(** * Skyblock bazaar flipper: derivation engine, result cache and client sort

    A shallow embedding of the profitability pipeline of the repository:
    - [backend/server.js] (legacy scrape backend): [parseNum];
    - the live-API backend (the second, unnamed server source): [parseNum],
      [getBazaarData] with its helper [getMeanPrice], and the
      [/api/flips] request handler;
    - [frontend/src/App.jsx]: the per-record recomputation under the live
      tax value and the [sorted] memo; the filters ([setFilter],
      [resetFilters], [blacklistTokens], the [filtered] memo), the
      [valueStats] memo, the sliders ([sliderBounds], [RangeFilterCard]'s
      range and [handleSliderChange]) and [fetchData].

    JavaScript numbers are modelled by exact rationals extended with
    [NaN], [+Infinity] and [-Infinity]; rounding to binary64 and the sign
    of zero are not modelled.  Strings are ASCII strings.
    [Array.prototype.sort] is modelled by the stable insertion sort, and,
    for the comparator that is not consistent, by the sort of one engine. *)

From Stdlib Require Import QArith Qround Qminmax Lqa ZArith Lia Ascii String List.
From Stdlib Require Import Sorting.Sorted Sorting.Permutation.
From stdpp Require Import base option list strings pretty gmap.

Local Open Scope Q_scope.

(** ** JavaScript numbers *)

Inductive num : Type :=
| NaN
| NInf
| Fin (q : Q)
| PInf.

Module JsNum.

(** Sign of a rational as JavaScript sees it when multiplying or dividing
    by an infinity. *)
Definition Qsign (q : Q) : comparison := q ?= 0.

Definition neg (a : num) : num :=
  match a with
  | NaN => NaN
  | NInf => PInf
  | Fin q => Fin (- q)
  | PInf => NInf
  end.

Definition add (a b : num) : num :=
  match a, b with
  | NaN, _ | _, NaN => NaN
  | PInf, NInf | NInf, PInf => NaN
  | PInf, _ | _, PInf => PInf
  | NInf, _ | _, NInf => NInf
  | Fin x, Fin y => Fin (x + y)
  end.

Definition sub (a b : num) : num := add a (neg b).

Definition inf_of_sign (c : comparison) : num :=
  match c with
  | Gt => PInf
  | Lt => NInf
  | Eq => NaN
  end.

Definition sign (a : num) : option comparison :=
  match a with
  | NaN => None
  | NInf => Some Lt
  | Fin q => Some (Qsign q)
  | PInf => Some Gt
  end.

Definition mul_sign (c d : comparison) : comparison :=
  match c, d with
  | Eq, _ | _, Eq => Eq
  | Gt, Gt | Lt, Lt => Gt
  | _, _ => Lt
  end.

Definition mul (a b : num) : num :=
  match a, b with
  | Fin x, Fin y => Fin (x * y)
  | _, _ =>
      match sign a, sign b with
      | Some c, Some d => inf_of_sign (mul_sign c d)
      | _, _ => NaN
      end
  end.

(** Division; a finite non-zero value divided by zero is an infinity whose
    sign is that of the dividend (the model has a single zero). *)
Definition div (a b : num) : num :=
  match a, b with
  | NaN, _ | _, NaN => NaN
  | Fin x, Fin y =>
      if Qeq_bool y 0 then inf_of_sign (Qsign x) else Fin (x / y)
  | Fin _, (PInf | NInf) => Fin 0
  | (PInf | NInf), (PInf | NInf) => NaN
  | PInf, Fin y => match Qsign y with Lt => NInf | _ => PInf end
  | NInf, Fin y => match Qsign y with Lt => PInf | _ => NInf end
  end.

(** [a < b] as the relational operator evaluates it: false when either side
    is [NaN]. *)
Definition ltb (a b : num) : bool :=
  match a, b with
  | NaN, _ | _, NaN => false
  | _, NInf => false
  | NInf, _ => true
  | PInf, _ => false
  | Fin _, PInf => true
  | Fin x, Fin y => match x ?= y with Lt => true | _ => false end
  end.

(** [a === b] on numbers. *)
Definition eqb (a b : num) : bool :=
  match a, b with
  | NInf, NInf | PInf, PInf => true
  | Fin x, Fin y => Qeq_bool x y
  | _, _ => false
  end.

Definition gtb (a b : num) : bool := ltb b a.
Definition leb (a b : num) : bool := ltb a b || eqb a b.
Definition geb (a b : num) : bool := leb b a.

(** [Math.min] of two arguments. *)
Definition min (a b : num) : num :=
  match a, b with
  | NaN, _ | _, NaN => NaN
  | _, _ => if ltb b a then b else a
  end.

(** [Math.round]: the nearest integer, ties towards [+Infinity]. *)
Definition round (a : num) : num :=
  match a with
  | Fin q => Fin (inject_Z (Qfloor (q + (1 # 2))))
  | _ => a
  end.

Definition isNaN (a : num) : bool :=
  match a with NaN => true | _ => false end.

(** Falsy numbers: zero and [NaN]. *)
Definition falsy (a : num) : bool :=
  match a with
  | NaN => true
  | Fin q => Qeq_bool q 0
  | _ => false
  end.

(** The order of the extended rationals, as a proposition. *)
Definition le (a b : num) : Prop := leb a b = true.

(** Two numbers denote the same JavaScript value. *)
Definition same (a b : num) : Prop :=
  match a, b with
  | NaN, NaN | NInf, NInf | PInf, PInf => True
  | Fin x, Fin y => x == y
  | _, _ => False
  end.

End JsNum.

Declare Scope num_scope.
Delimit Scope num_scope with J.
Bind Scope num_scope with num.
Infix "+" := JsNum.add : num_scope.
Infix "-" := JsNum.sub : num_scope.
Infix "*" := JsNum.mul : num_scope.
Infix "/" := JsNum.div : num_scope.
Infix "<?" := JsNum.ltb : num_scope.
Infix ">?" := JsNum.gtb : num_scope.
Infix "<=?" := JsNum.leb : num_scope.
Infix ">=?" := JsNum.geb : num_scope.
Infix "===" := JsNum.eqb (at level 70) : num_scope.

Arguments JsNum.gtb : simpl never.
Arguments JsNum.leb : simpl never.
Arguments JsNum.geb : simpl never.

(** ** JavaScript strings (ASCII) and the built-ins the sources call *)

Module JsString.

Local Open Scope char_scope.

(** White space and line terminators in the ASCII range. *)
Definition isWhiteSpace (c : ascii) : bool :=
  match c with
  | " " | "009" | "010" | "011" | "012" | "013" => true
  | _ => false
  end.

Definition isDigit (c : ascii) : bool :=
  (48 <=? nat_of_ascii c)%nat && (nat_of_ascii c <=? 57)%nat.

Definition digitVal (c : ascii) : Z := Z.of_nat (nat_of_ascii c - 48).

Definition isUpper (c : ascii) : bool :=
  (65 <=? nat_of_ascii c)%nat && (nat_of_ascii c <=? 90)%nat.

Definition lowerChar (c : ascii) : ascii :=
  if isUpper c then ascii_of_nat (nat_of_ascii c + 32) else c.

Local Open Scope string_scope.

Fixpoint trimStart (s : string) : string :=
  match s with
  | String c r => if isWhiteSpace c then trimStart r else s
  | EmptyString => EmptyString
  end.

Fixpoint trimEnd (s : string) : string :=
  match s with
  | String c r =>
      match trimEnd r with
      | EmptyString => if isWhiteSpace c then EmptyString else String c EmptyString
      | r' => String c r'
      end
  | EmptyString => EmptyString
  end.

(** [String.prototype.trim] *)
Definition trim (s : string) : string := trimEnd (trimStart s).

(** [String.prototype.toLowerCase] *)
Fixpoint toLowerCase (s : string) : string :=
  match s with
  | String c r => String (lowerChar c) (toLowerCase r)
  | EmptyString => EmptyString
  end.

(** [s.replace(/,/g, '')] *)
Fixpoint removeCommas (s : string) : string :=
  match s with
  | String c r => if Ascii.eqb c "," then removeCommas r else String c (removeCommas r)
  | EmptyString => EmptyString
  end.

(** [s.replace(/_/g, ' ')] *)
Fixpoint underscoresToSpaces (s : string) : string :=
  match s with
  | String c r =>
      String (if Ascii.eqb c "_" then " "%char else c) (underscoresToSpaces r)
  | EmptyString => EmptyString
  end.

(** [s.slice(-1)]: the last character as a string, empty for the empty
    string. *)
Fixpoint sliceLast (s : string) : string :=
  match s with
  | String c EmptyString => String c EmptyString
  | String _ r => sliceLast r
  | EmptyString => EmptyString
  end.

(** The character [c] occurs in [s]. *)
Fixpoint occurs (c : ascii) (s : string) : bool :=
  match s with
  | String d r => Ascii.eqb c d || occurs c r
  | EmptyString => false
  end.

Definition hasWhiteSpace (s : string) : bool :=
  existsb isWhiteSpace (list_ascii_of_string s).

(** *** [parseFloat] *)

Fixpoint scanDigits (s : string) : list Z * string :=
  match s with
  | String c r =>
      if isDigit c
      then let '(ds, rest) := scanDigits r in (digitVal c :: ds, rest)
      else (nil, s)
  | EmptyString => (nil, EmptyString)
  end.

Definition digitsValue (ds : list Z) : Z :=
  fold_left (fun acc d => (10 * acc + d)%Z) ds 0%Z.

Definition scanSign (s : string) : Z * string :=
  match s with
  | String "-" r => ((-1)%Z, r)
  | String "+" r => (1%Z, r)
  | _ => (1%Z, s)
  end.

(** The optional exponent part: its value and what follows it.  An [e]
    that is not followed by digits is not part of the literal. *)
Definition scanExponent (s : string) : Z * string :=
  match s with
  | String c r =>
      if Ascii.eqb c "e" || Ascii.eqb c "E" then
        let '(sg, r1) := scanSign r in
        match scanDigits r1 with
        | (nil, _) => (0%Z, s)
        | (ds, rest) => ((sg * digitsValue ds)%Z, rest)
        end
      else (0%Z, s)
  | EmptyString => (0%Z, s)
  end.

(** The optional fraction part: a dot and the digits after it. *)
Definition scanFraction (s : string) : list Z * string :=
  match s with
  | String "." r => scanDigits r
  | _ => (nil, s)
  end.

(** The longest prefix that is a [StrDecimalLiteral], with its value and
    the rest of the string. *)
Definition scanDecimal (s : string) : option (num * string) :=
  let '(sg, s1) := scanSign s in
  if String.prefix "Infinity" s1 then
    Some (if (sg <? 0)%Z then NInf else PInf, String.substring 8 (String.length s1 - 8) s1)
  else
    let '(ip, s2) := scanDigits s1 in
    let '(fp, s3) := scanFraction s2 in
    match (ip ++ fp)%list with
    | nil => None
    | ds =>
        let '(e, s4) := scanExponent s3 in
        Some (Fin (inject_Z (sg * digitsValue ds)
                   * Qpower 10 (e - Z.of_nat (List.length fp))), s4)
    end.

(** [parseFloat]: the value of the decimal literal the text starts with,
    exact, where the code rounds it and gives [Infinity] beyond the range of
    its numbers. *)
Definition parseFloat (s : string) : num :=
  match scanDecimal (trimStart s) with
  | Some (n, _) => n
  | None => NaN
  end.

(** The whole string is one decimal literal. *)
Definition isNumeric (s : string) : bool :=
  match scanDecimal s with
  | Some (_, EmptyString) => true
  | _ => false
  end.

End JsString.

(** ** Arrays *)

Module JsArray.

(** [Array.prototype.sort(comparefn)].  The language specifies a stable
    sort that moves [x] behind [y] only when [comparefn(x, y) > 0]; a
    [NaN] result counts as [+0].  The model is the stable insertion sort,
    which is the order every conforming engine produces when the
    comparator is consistent.  When it is not, as with the client's
    comparator on titles that read as numbers, the language leaves the order
    to the engine and the model gives one possible order, not the engine's
    (see [V8.sort]): nothing is stated of the order of the result there. *)
Fixpoint insert {A} (comparefn : A -> A -> num) (x : A) (l : list A) : list A :=
  match l with
  | [] => [x]
  | y :: l' =>
      if (comparefn x y >? Fin 0)%J then y :: insert comparefn x l' else x :: l
  end.

Fixpoint sort {A} (comparefn : A -> A -> num) (l : list A) : list A :=
  match l with
  | [] => []
  | x :: l' => insert comparefn x (sort comparefn l')
  end.

(** [arr.slice(0, n)] *)
Definition slice0 {A} (n : nat) (l : list A) : list A := take n l.

End JsArray.

(** ** What the sources take from the JavaScript runtime

    [NumberToString] is the conversion of a number to a string (template
    literals, [toString()]); distinct numbers have distinct renderings.
    [StringToNumber] is the coercion of a string operand of an arithmetic
    operator. *)

Class Runtime := {
  NumberToString : num -> string;
  StringToNumber : string -> num;
  NumberToString_inj :
    forall a b, NumberToString a = NumberToString b -> JsNum.same a b
}.

(** ** [parseNum] (both backends carry the same function) *)

Inductive value : Type :=
| VUndefined
| VNull
| VNum (n : num)
| VStr (s : string).

(** [!v] *)
Definition falsy (v : value) : bool :=
  match v with
  | VUndefined | VNull => true
  | VNum n => JsNum.falsy n
  | VStr s => String.eqb s ""
  end.

Section ParseNum.
Context `{Runtime}.

Definition toString (v : value) : string :=
  match v with
  | VUndefined => "undefined"
  | VNull => "null"
  | VNum n => NumberToString n
  | VStr s => s
  end.

(** The cleaned text [parseNum] works on after its second line. *)
Definition cleaned (s : string) : string :=
  JsString.removeCommas (JsString.toLowerCase (JsString.trim s)).

(** [null] is [None]. *)
Definition parseNum (str : value) : option num :=
  if falsy str then None else
  let str := cleaned (toString str) in
  if String.eqb str "-" then None else
  let suffix := JsString.sliceLast str in
  if String.eqb suffix "k" then Some (JsString.parseFloat str * Fin 1000)%J else
  if String.eqb suffix "m" then Some (JsString.parseFloat str * Fin 1000000)%J else
  if String.eqb suffix "b" then Some (JsString.parseFloat str * Fin 1000000000)%J else
  let n := JsString.parseFloat str in
  if JsNum.isNaN n then None else Some n.

End ParseNum.

(** ** The live-API backend *)

Module Server.

Record order := { pricePerUnit : num }.

(** [statusJson] stands for [JSON.stringify(quick_status)]; a counter that
    is missing upstream reads as [undefined], which arithmetic turns into
    [NaN]. *)
Record QuickStatus := {
  buyMovingWeek : num;
  sellMovingWeek : num;
  statusJson : string
}.

(** A missing summary behaves like the empty one. *)
Record product := {
  product_id : string;
  quick_status : QuickStatus;
  buy_summary : list order;
  sell_summary : list order
}.

Record card := {
  id : string;
  title : string;
  buy : num;
  sell : num;
  instabuy : num;
  instasell : num;
  margin : num;
  coinsPerHour : num;
  href : string;
  img : string;
  raw : string
}.

(** Outcome of the upstream request [axios.get(...)]. *)
Inductive upstream : Type :=
| Rejected (message : string)
| Response (success : bool) (products : list product).

Inductive outcome (A : Type) : Type :=
| Returned (a : A)
| Thrown (message : string).
Arguments Returned {A} a.
Arguments Thrown {A} message.

Inductive body : Type :=
| Success (data : list card)
| Failure (error : string).

Record reply := { statusCode : nat; json : body }.

(** The [NodeCache] instance: [get] is lookup, [set] is insert, and an
    entry that outlives its ten seconds is deleted. *)
Definition cache : Type := gmap string (list card).

(** The helper [getMeanPrice] of the callback; its default [count = 5] is
    never used, both calls pass 1.  Sum and quotient are exact here; with
    [count = 1] they are exact in the code as well, with more prices the
    code rounds each step. *)
Definition getMeanPrice (summary : list order) (count : nat) : num :=
  match summary with
  | [] => Fin 0
  | _ =>
      let limit := Nat.min (length summary) count in
      let sum :=
        fold_left (fun sum o => (sum + pricePerUnit o)%J) (take limit summary) (Fin 0) in
      (sum / Fin (inject_Z (Z.of_nat limit)))%J
  end.

(** The constants of the [forEach] callback, as functions of the product
    and the tax rate. *)
Definition buyPriceOf (p : product) : num := getMeanPrice (buy_summary p) 1.

Definition sellPriceOf (p : product) : num := getMeanPrice (sell_summary p) 1.

Definition taxMultiplier (taxRate : num) : num := (Fin 1 - taxRate / Fin 100)%J.

(** The margin in the code's own order of operations, each of them exact
    here and rounded in the code: an identity of exact arithmetic that
    reorders them need not hold of the code. *)
Definition marginOf (taxRate : num) (p : product) : num :=
  (buyPriceOf p * taxMultiplier taxRate - sellPriceOf p)%J.

Definition instabuyHourlyOf (p : product) : num :=
  JsNum.round (buyMovingWeek (quick_status p) / Fin 168)%J.

Definition instasellHourlyOf (p : product) : num :=
  JsNum.round (sellMovingWeek (quick_status p) / Fin 168)%J.

Definition coinsPerHourOf (taxRate : num) (p : product) : num :=
  (marginOf taxRate p * JsNum.min (instabuyHourlyOf p) (instasellHourlyOf p))%J.

(** The body of the [forEach] callback: the card pushed for one product,
    if any. *)
Definition flipCard (taxRate : num) (p : product) : option card :=
  let buyPrice := buyPriceOf p in
  let sellPrice := sellPriceOf p in
  if (buyPrice <=? Fin 0)%J || (sellPrice <=? Fin 0)%J then None else
  let margin := marginOf taxRate p in
  let instabuyHourly := instabuyHourlyOf p in
  let instasellHourly := instasellHourlyOf p in
  let coinsPerHour := coinsPerHourOf taxRate p in
  if (margin >? Fin 0)%J && (JsNum.min instabuyHourly instasellHourly >? Fin 10)%J then
    Some {| id := product_id p;
            title := JsString.underscoresToSpaces (product_id p);
            buy := sellPrice;
            sell := buyPrice;
            instabuy := instabuyHourly;
            instasell := instasellHourly;
            margin := margin;
            coinsPerHour := coinsPerHour;
            href := "https://skyblock.bz/product/" +:+ product_id p;
            img := "https://sky.coflnet.com/static/icon/" +:+ product_id p;
            raw := statusJson (quick_status p) |}
  else None.

(** The cards of a snapshot, sorted and cut to the first hundred. *)
Definition topCards (taxRate : num) (products : list product) : list card :=
  let cards := omap (flipCard taxRate) products in
  let cards := JsArray.sort (fun a b => (coinsPerHour b - coinsPerHour a)%J) cards in
  JsArray.slice0 100 cards.

Definition defaultTaxRate : num := Fin 1.25.

(** The message of the error a failed snapshot request ends in: the
    rejection of the request, or the one thrown for a snapshot whose
    [success] flag is false. *)
Definition failure (fetch : upstream) : option string :=
  match fetch with
  | Rejected e => Some e
  | Response false _ => Some "Hypixel API failed"
  | Response true _ => None
  end.

(** A list of cards in descending order of coins per hour. *)
Definition descending (l : list card) : Prop :=
  StronglySorted (fun a b => JsNum.le (coinsPerHour b) (coinsPerHour a)) l.

Section Engine.
Context `{Runtime}.

Definition cacheKey (taxRate : num) : string := "flips_" +:+ NumberToString taxRate.

(** [getBazaarData(taxRate = 1.25)]; [None] is an omitted argument. *)
Definition getBazaarData (taxRateArg : option num) (fetch : upstream) (c : cache)
  : outcome (list card) * cache :=
  let taxRate := default defaultTaxRate taxRateArg in
  match c !! cacheKey taxRate with
  | Some cached => (Returned cached, c)
  | None =>
      match fetch with
      | Rejected e => (Thrown e, c)
      | Response success products =>
          if negb success then (Thrown "Hypixel API failed", c)
          else
            let topCards := topCards taxRate products in
            (Returned topCards, <[cacheKey taxRate := topCards]> c)
      end
  end.

(** The tax rate the handler derives from [req.query.tax]. *)
Definition queryTax (tax : option string) : num :=
  match tax with
  | Some s => if negb (String.eqb s "") then JsString.parseFloat s else Fin 1.25
  | None => Fin 1.25
  end.

(** [app.get('/api/flips', ...)] *)
Definition apiFlips (tax : option string) (fetch : upstream) (c : cache) : reply * cache :=
  match getBazaarData (Some (queryTax tax)) fetch c with
  | (Returned data, c') => ({| statusCode := 200; json := Success data |}, c')
  | (Thrown message, c') => ({| statusCode := 500; json := Failure message |}, c')
  end.

(** What happens to the cache over time: requests, and entries expiring. *)
Inductive event : Type :=
| Request (taxRateArg : option num) (fetch : upstream)
| Expire (key : string).

Definition step (c : cache) (ev : event) : cache :=
  match ev with
  | Request t fetch => (getBazaarData t fetch c).2
  | Expire key => delete key c
  end.

Definition run (evs : list event) : cache := fold_left step evs ∅.

(** Every entry of the cache is the ranked list of some snapshot, derived
    with the tax rate its key is built from. *)
Definition derived (c : cache) : Prop :=
  forall key l, c !! key = Some l ->
    exists taxRate products, key = cacheKey taxRate /\ l = topCards taxRate products.

End Engine.

End Server.

(** ** The client ([App.jsx]) *)

Module Client.

(** A record as it arrives in the JSON reply: a numeric field is a finite
    number or [null]. *)
Record item := {
  id : string;
  title : string;
  buy : option Q;
  sell : option Q;
  instabuy : option Q;
  instasell : option Q;
  margin : option Q;
  coinsPerHour : option Q;
  href : option string;
  img : option string;
  raw : string
}.

(** JSON has no [NaN] and no infinities: [JSON.stringify] writes [null]. *)
Definition jsonNumber (n : num) : option Q :=
  match n with
  | Fin q => Some q
  | _ => None
  end.

(** A card of the live-API backend as the client receives it. *)
Definition received (c : Server.card) : item :=
  {| id := Server.id c;
     title := Server.title c;
     buy := jsonNumber (Server.buy c);
     sell := jsonNumber (Server.sell c);
     instabuy := jsonNumber (Server.instabuy c);
     instasell := jsonNumber (Server.instasell c);
     margin := jsonNumber (Server.margin c);
     coinsPerHour := jsonNumber (Server.coinsPerHour c);
     href := Some (Server.href c);
     img := Some (Server.img c);
     raw := Server.raw c |}.

(** [v || 0] *)
Definition orZero (v : option Q) : Q :=
  match v with
  | Some q => if Qeq_bool q 0 then 0 else q
  | None => 0
  end.

(** The callback of [items.map] in the [filtered] memo: margin and coins
    per hour recomputed under the live tax value. *)
Definition recompute (tax : Q) (it : item) : item :=
  let highPrice := orZero (buy it) in
  let lowPrice := orZero (sell it) in
  let taxMultiplier := 1 - tax / 100 in
  let newMargin := highPrice * taxMultiplier - lowPrice in
  let volume := Qmin (orZero (instabuy it)) (orZero (instasell it)) in
  let newCPH := newMargin * volume in
  {| id := id it;
     title := title it;
     buy := buy it;
     sell := sell it;
     instabuy := instabuy it;
     instasell := instasell it;
     margin := Some newMargin;
     coinsPerHour := Some newCPH;
     href := href it;
     img := img it;
     raw := raw it |}.

(** The options of the [sortBy] select. *)
Inductive sortField : Type :=
| by_margin
| by_buy
| by_sell
| by_instabuy
| by_instasell
| by_coinsPerHour
| by_title.

Inductive sortDirection : Type := asc | desc.

Definition ofNumber (v : option Q) : value :=
  match v with
  | Some q => VNum (Fin q)
  | None => VNull
  end.

(** [a[sortBy]] *)
Definition field (sortBy : sortField) (a : item) : value :=
  match sortBy with
  | by_margin => ofNumber (margin a)
  | by_buy => ofNumber (buy a)
  | by_sell => ofNumber (sell a)
  | by_instabuy => ofNumber (instabuy a)
  | by_instasell => ofNumber (instasell a)
  | by_coinsPerHour => ofNumber (coinsPerHour a)
  | by_title => VStr (title a)
  end.

(** [v ?? d] *)
Definition nullish (v d : value) : value :=
  match v with
  | VUndefined | VNull => d
  | _ => v
  end.

(** [a[sortBy] ?? -Infinity], the value the comparator works with. *)
Definition keyOf (sortBy : sortField) (a : item) : value :=
  nullish (field sortBy a) (VNum NInf).

(** The sort field of the record is [null] or missing. *)
Definition isNull (sortBy : sortField) (a : item) : bool :=
  match field sortBy a with
  | VUndefined | VNull => true
  | _ => false
  end.

(** [A === B] *)
Definition strictEq (A B : value) : bool :=
  match A, B with
  | VUndefined, VUndefined | VNull, VNull => true
  | VNum a, VNum b => (a === b)%J
  | VStr a, VStr b => String.eqb a b
  | _, _ => false
  end.

Section Sorted.
Context `{Runtime}.

(** The numeric value of an operand of [-]. *)
Definition toNumber (v : value) : num :=
  match v with
  | VUndefined => NaN
  | VNull => Fin 0
  | VNum n => n
  | VStr s => StringToNumber s
  end.

(** The comparator of the [sorted] memo. *)
Definition compareBy (sortBy : sortField) (sortDir : sortDirection) (a b : item) : num :=
  let A := keyOf sortBy a in
  let B := keyOf sortBy b in
  if strictEq A B then Fin 0 else
  match sortDir with
  | asc => (toNumber A - toNumber B)%J
  | desc => (toNumber B - toNumber A)%J
  end.

Definition sorted (sortBy : sortField) (sortDir : sortDirection) (filtered : list item)
  : list item :=
  JsArray.sort (compareBy sortBy sortDir) filtered.

(** The order the chosen direction asks for, on the numeric keys. *)
Definition inOrder (sortBy : sortField) (sortDir : sortDirection) (a b : item) : Prop :=
  match sortDir with
  | asc => JsNum.le (toNumber (keyOf sortBy a)) (toNumber (keyOf sortBy b))
  | desc => JsNum.le (toNumber (keyOf sortBy b)) (toNumber (keyOf sortBy a))
  end.

End Sorted.

End Client.

(** ** A reference runtime

    An instance of [Runtime] on which the definitions can be run.  Its
    renderings of finite numbers are canonical, not the decimal ones of a
    JavaScript engine; its [StringToNumber] reads decimal literals only. *)

Definition referenceNumberToString (n : num) : string :=
  match n with
  | NaN => "NaN"
  | NInf => "-Infinity"
  | PInf => "Infinity"
  | Fin q => String "n" (pretty (encode (Qnum (Qred q), Qden (Qred q))))
  end.

Definition referenceStringToNumber (s : string) : num :=
  let t := JsString.trim s in
  if String.eqb t "" then Fin 0
  else if JsString.isNumeric t then JsString.parseFloat t
  else NaN.

#[export] Instance reference_runtime : Runtime.
Proof.
  refine {| NumberToString := referenceNumberToString;
            StringToNumber := referenceStringToNumber |}.
  intros [| |x|] [| |y|]; simpl; try done.
  intros [= Hp]. apply (inj pretty), (inj encode) in Hp.
  injection Hp as Hn Hd.
  rewrite <- (Qred_correct x), <- (Qred_correct y).
  destruct (Qred x), (Qred y); simpl in *. by subst.
Defined.

(** ** Sample data *)

Module Sample.
Import Server.

Definition quote (productId : string) (high low : list Q) (buyWeek sellWeek : Q) : product :=
  {| product_id := productId;
     quick_status := {| buyMovingWeek := Fin buyWeek;
                        sellMovingWeek := Fin sellWeek;
                        statusJson := "{}" |};
     buy_summary := (fun x => {| pricePerUnit := Fin x |}) <$> high;
     sell_summary := (fun x => {| pricePerUnit := Fin x |}) <$> low |}.

(** The quote of the specification's worked example. *)
Definition rune : product := quote "ENCHANTED_RUNE" [100] [90] 2016 2016.

(** A liquid product nobody offers to sell to. *)
Definition unsold : product := quote "DIAMOND" [100] [] 2016 2016.

Definition coal : product := quote "COAL" [40; 39] [10; 11] 16800 33600.

(** The worked example with a thin buy side, and one never bought. *)
Definition thin : product := quote "ENCHANTED_RUNE" [100] [90] 840 2016.

Definition idle : product := quote "IDLE" [100] [90] 0 2016.

(** A record as the legacy backend may serve it, prices possibly missing. *)
Definition record (name : string) (buyPrice sellPrice : option Q) : Client.item :=
  {| Client.id := name;
     Client.title := name;
     Client.buy := buyPrice;
     Client.sell := sellPrice;
     Client.instabuy := Some 12;
     Client.instasell := Some 12;
     Client.margin := None;
     Client.coinsPerHour := None;
     Client.href := None;
     Client.img := None;
     Client.raw := "" |}.

Definition records : list Client.item :=
  [record "a" (Some 5) (Some 1); record "b" None (Some 2);
   record "c" (Some 3) None; record "d" None None; record "e" (Some 5) (Some 3)].

End Sample.

(** ** Vocabulary for further properties of the engine *)

Module EngineSpec.
Import Server.

(** The cards of a snapshot before they are sorted and cut. *)
Definition qualifying (taxRate : num) (products : list product) : list card :=
  omap (flipCard taxRate) products.

End EngineSpec.

(** ** More of the client: filters, value statistics, fetching *)

Module App.
Import Client.

(** The keys of the [filters] object. *)
Inductive filterKey : Type :=
| key_buyMin | key_buyMax
| key_sellMin | key_sellMax
| key_instaBuyMin | key_instaBuyMax
| key_instaSellMin | key_instaSellMax
| key_marginMin | key_marginMax
| key_cphMin | key_cphMax
| key_blacklist.

#[export] Instance filterKey_eq_dec : EqDecision filterKey.
Proof. solve_decision. Defined.

(** The [filters] state: every key of [defaultFilters] with its text. *)
Record filters := {
  buyMin : string;
  buyMax : string;
  sellMin : string;
  sellMax : string;
  instaBuyMin : string;
  instaBuyMax : string;
  instaSellMin : string;
  instaSellMax : string;
  marginMin : string;
  marginMax : string;
  cphMin : string;
  cphMax : string;
  blacklist : string
}.

Definition defaultFilters : filters :=
  {| buyMin := ""; buyMax := ""; sellMin := ""; sellMax := "";
     instaBuyMin := ""; instaBuyMax := ""; instaSellMin := ""; instaSellMax := "";
     marginMin := ""; marginMax := ""; cphMin := ""; cphMax := "";
     blacklist := "" |}.

(** [filters[key]] *)
Definition getFilter (f : filters) (key : filterKey) : string :=
  match key with
  | key_buyMin => buyMin f | key_buyMax => buyMax f
  | key_sellMin => sellMin f | key_sellMax => sellMax f
  | key_instaBuyMin => instaBuyMin f | key_instaBuyMax => instaBuyMax f
  | key_instaSellMin => instaSellMin f | key_instaSellMax => instaSellMax f
  | key_marginMin => marginMin f | key_marginMax => marginMax f
  | key_cphMin => cphMin f | key_cphMax => cphMax f
  | key_blacklist => blacklist f
  end.

(** [setFilter(key, value)]: the state [{ ...prev, [key]: value }]. *)
Definition setFilter (key : filterKey) (value : string) (prev : filters) : filters :=
  {| buyMin := match key with key_buyMin => value | _ => buyMin prev end;
     buyMax := match key with key_buyMax => value | _ => buyMax prev end;
     sellMin := match key with key_sellMin => value | _ => sellMin prev end;
     sellMax := match key with key_sellMax => value | _ => sellMax prev end;
     instaBuyMin := match key with key_instaBuyMin => value | _ => instaBuyMin prev end;
     instaBuyMax := match key with key_instaBuyMax => value | _ => instaBuyMax prev end;
     instaSellMin := match key with key_instaSellMin => value | _ => instaSellMin prev end;
     instaSellMax := match key with key_instaSellMax => value | _ => instaSellMax prev end;
     marginMin := match key with key_marginMin => value | _ => marginMin prev end;
     marginMax := match key with key_marginMax => value | _ => marginMax prev end;
     cphMin := match key with key_cphMin => value | _ => cphMin prev end;
     cphMax := match key with key_cphMax => value | _ => cphMax prev end;
     blacklist := match key with key_blacklist => value | _ => blacklist prev end |}.

(** [resetFilters] *)
Definition resetFilters (prev : filters) : filters := defaultFilters.

Record config := {
  field : sortField;
  label : string;
  minKey : filterKey;
  maxKey : filterKey;
  step : Q;
  defaultMax : Q
}.

Definition filterConfig : list config :=
  [ {| field := by_buy; label := "Buy price";
       minKey := key_buyMin; maxKey := key_buyMax; step := 1000; defaultMax := 50000000 |};
    {| field := by_sell; label := "Sell price";
       minKey := key_sellMin; maxKey := key_sellMax; step := 1000; defaultMax := 50000000 |};
    {| field := by_instabuy; label := "Instabuy volume";
       minKey := key_instaBuyMin; maxKey := key_instaBuyMax; step := 1; defaultMax := 50000 |};
    {| field := by_instasell; label := "Instasell volume";
       minKey := key_instaSellMin; maxKey := key_instaSellMax; step := 1; defaultMax := 50000 |};
    {| field := by_margin; label := "Margin";
       minKey := key_marginMin; maxKey := key_marginMax; step := 1000; defaultMax := 100000000 |};
    {| field := by_coinsPerHour; label := "Coins / hour";
       minKey := key_cphMin; maxKey := key_cphMax; step := 1000; defaultMax := 100000000 |} ].

(** [s.split(',')] *)
Fixpoint splitCommas (s : string) : list string :=
  match s with
  | EmptyString => [EmptyString]
  | String c r =>
      if Ascii.eqb c "," then EmptyString :: splitCommas r
      else match splitCommas r with
           | piece :: pieces => String c piece :: pieces
           | [] => [String c EmptyString]
           end
  end.

(** [haystack.includes(kw)] *)
Fixpoint includes (haystack kw : string) : bool :=
  String.prefix kw haystack ||
  match haystack with
  | String _ r => includes r kw
  | EmptyString => false
  end.

(** The [blacklistTokens] memo; [filter(Boolean)] drops the empty
    strings. *)
Definition blacklistTokens (f : filters) : list string :=
  List.filter (fun item => negb (String.eqb item ""))
    ((fun item => JsString.toLowerCase (JsString.trim item)) <$> splitCommas (blacklist f)).

Section Filtered.
Context `{Runtime}.

(** [inRange] of the [filtered] memo; [Number(minStr)] is the runtime's
    reading of the text. *)
Definition inRange (value : value) (minStr maxStr : string) : bool :=
  match value with
  | VUndefined | VNull => false
  | _ =>
      let min := if String.eqb minStr "" then NInf else StringToNumber minStr in
      let max := if String.eqb maxStr "" then PInf else StringToNumber maxStr in
      (toNumber value >=? min)%J && (toNumber value <=? max)%J
  end.

(** The lower and the upper bound of a range, as [inRange] reads them. *)
Definition lowerBound (minStr : string) : num :=
  if String.eqb minStr "" then NInf else StringToNumber minStr.

Definition upperBound (maxStr : string) : num :=
  if String.eqb maxStr "" then PInf else StringToNumber maxStr.

(** The test the callback makes for one entry of [filterConfig]. *)
Definition rangeOk (f : filters) (it : item) (cfg : config) : bool :=
  negb ((negb (String.eqb (getFilter f (minKey cfg)) "")
         || negb (String.eqb (getFilter f (maxKey cfg)) ""))
        && negb (inRange (Client.field (field cfg) it)
                         (getFilter f (minKey cfg)) (getFilter f (maxKey cfg)))).

(** The callback of [.filter] in the [filtered] memo. *)
Definition passes (f : filters) (tokens : list string) (it : item) : bool :=
  let haystack := JsString.toLowerCase (title it +:+ " " +:+ raw it) in
  if existsb (fun kw => includes haystack kw) tokens then false
  else
    forallb
      (fun cfg =>
         negb ((negb (String.eqb (getFilter f (minKey cfg)) "")
                || negb (String.eqb (getFilter f (maxKey cfg)) ""))
               && negb (inRange (Client.field (field cfg) it)
                                (getFilter f (minKey cfg)) (getFilter f (maxKey cfg)))))
      filterConfig.

(** The [filtered] memo. *)
Definition filtered (items : list item) (f : filters) (tax : Q) : list item :=
  List.filter (passes f (blacklistTokens f)) (recompute tax <$> items).

(** What is shown: the [sorted] memo over [filtered]. *)
Definition shown (items : list item) (f : filters) (tax : Q)
    (sortBy : sortField) (sortDir : sortDirection) : list item :=
  sorted sortBy sortDir (filtered items f tax).

End Filtered.

(** One round of the inner loop of the [valueStats] memo: values that are
    not numbers, or are [NaN], are passed over. *)
Definition statsStep (f : sortField) : num * num -> item -> num * num :=
  fun '(min, max) it =>
    match Client.field f it with
    | VNum val =>
        if JsNum.isNaN val then (min, max)
        else (if (val <? min)%J then val else min,
              if (val >? max)%J then val else max)
    | _ => (min, max)
    end.

(** The [valueStats] memo for one field: the least and the greatest number
    among the items' values, if there is any. *)
Definition valueStats (items : list item) (f : sortField) : option (num * num) :=
  let '(min, max) := fold_left (statsStep f) items (PInf, NInf) in
  if negb (min === PInf)%J && negb (max === NInf)%J then Some (min, max) else None.

End App.

Module Slider.
Import Client App.

(** [Math.max] of two arguments. *)
Definition mathMax (a b : num) : num :=
  match a, b with
  | NaN, _ | _, NaN => NaN
  | _, _ => if (a <? b)%J then b else a
  end.

(** [x || 0] for [x] a number or [undefined]. *)
Definition numberOrZero (x : option num) : num :=
  match x with
  | Some n => if JsNum.falsy n then Fin 0 else n
  | None => Fin 0
  end.

(** The [sliderBounds] handed to the card of one entry of [filterConfig]:
    [min: 0] and [max: Math.max(cfg.defaultMax, valueStats[cfg.field]?.max || 0)]. *)
Definition sliderBounds (items : list item) (cfg : config) : num * num :=
  (Fin 0,
   mathMax (Fin (defaultMax cfg)) (numberOrZero (snd <$> valueStats items (field cfg)))).

(** [sliderMin] and [sliderMax] of [RangeFilterCard]. *)
Definition sliderRange (cfg : config) (bounds : num * num) : num * num :=
  let sliderMin := bounds.1 in
  let computedMax := bounds.2 in
  let sliderMax :=
    if (computedMax <=? sliderMin)%J then (sliderMin + Fin (step cfg) * Fin 10)%J
    else computedMax in
  (sliderMin, sliderMax).

End Slider.

Module Fetching.
Import Client.

(** The state [fetchData] writes to. *)
Record state := {
  items : list item;
  loading : bool;
  error : option string;
  lastUpdated : option Z
}.

(** The state of the first render: the initial values of [useState]. *)
Definition initialState : state :=
  {| items := []; loading := false; error := None; lastUpdated := None |}.

(** The body of a reply, as [res.json()] gives it. *)
Record jsonBody := {
  success : bool;
  errorText : option string;
  data : option (list item)
}.

(** What [fetch(API)] and [res.json()] come to: an exception, or a body. *)
Inductive fetched : Type :=
| Threw (message : string)
| Parsed (j : jsonBody).

(** [text || fallback] for a text that may be missing. *)
Definition textOr (text : option string) (fallback : string) : string :=
  match text with
  | Some s => if String.eqb s "" then fallback else s
  | None => fallback
  end.

(** The state once [fetchData(silent)] has run to its end; [now] is the
    [new Date()] of a success. *)
Definition fetchData (silent : bool) (now : Z) (response : fetched) (s : state) : state :=
  let failWith message :=
    {| items := items s;
       loading := if negb silent then false else loading s;
       error := Some message;
       lastUpdated := lastUpdated s |} in
  match response with
  | Threw message => failWith message
  | Parsed j =>
      if negb (success j) then failWith (textOr (errorText j) "Failed to load flips")
      else
        {| items := default [] (data j);
           loading := if negb silent then false else loading s;
           error := None;
           lastUpdated := Some now |}
  end.

(** The reply of the live-API backend as the client parses it; a reply
    with status 500 is parsed like any other. *)
Definition overTheWire (r : Server.reply) : fetched :=
  match Server.json r with
  | Server.Success cards =>
      Parsed {| success := true; errorText := None; data := Some (received <$> cards) |}
  | Server.Failure e =>
      Parsed {| success := false; errorText := Some e; data := None |}
  end.

End Fetching.

(** ** The sliders' handler, and a runtime with decimal renderings *)

Module SliderChange.
Import Client App.

(** The first argument of [handleSliderChange]. *)
Inductive sliderKind : Type := kind_min | kind_max.

Section Handler.
Context `{Runtime}.

(** The state [handleSliderChange(kind, raw)] of the card of [cfg] leaves,
    from the state [prev]. *)
Definition handleSliderChange (cfg : config) (kind : sliderKind) (raw : string)
    (prev : filters) : filters :=
  let numericValue := StringToNumber raw in
  if JsNum.isNaN numericValue then prev
  else
    match kind with
    | kind_min =>
        let next := setFilter (minKey cfg) (NumberToString numericValue) prev in
        if negb (String.eqb (getFilter next (maxKey cfg)) "")
           && (numericValue >? StringToNumber (getFilter next (maxKey cfg)))%J
        then setFilter (maxKey cfg) (NumberToString numericValue) next
        else next
    | kind_max =>
        let next := setFilter (maxKey cfg) (NumberToString numericValue) prev in
        if negb (String.eqb (getFilter next (minKey cfg)) "")
           && (numericValue <? StringToNumber (getFilter next (minKey cfg)))%J
        then setFilter (minKey cfg) (NumberToString numericValue) next
        else next
    end.

End Handler.

(** The natural number a rational is, if it is one. *)
Definition naturalOf (q : Q) : option N :=
  let r := Qred q in
  if (Qden r =? 1)%positive && (0 <=? Qnum r)%Z then Some (Z.to_N (Qnum r)) else None.

(** A rendering that writes the natural numbers in decimal digits, as a
    JavaScript engine does, and the other numbers as the reference runtime
    does. *)
Definition decimalNumberToString (n : num) : string :=
  match n with
  | Fin q =>
      match naturalOf q with
      | Some k => pretty k
      | None => referenceNumberToString n
      end
  | _ => referenceNumberToString n
  end.

Definition decimal_runtime : Runtime.
Proof.
  refine {| NumberToString := decimalNumberToString;
            StringToNumber := referenceStringToNumber |}.
  assert (forall c, (forall d, pretty_N_char d <> c) ->
          forall x s s', s <> String c s' -> pretty_N_go x s <> String c s') as Hgo.
  { intros c Hc x. induction (N.lt_wf_0 x) as [x _ IH]. intros s s' Hs.
    assert (x = 0 \/ 0 < x)%N as [->|Hx] by lia; [by rewrite pretty_N_go_0|].
    rewrite pretty_N_go_step by done. apply IH; [by apply N.div_lt|].
    intros [= Hd _]. by apply (Hc _ Hd). }
  assert (forall c, (forall d, pretty_N_char d <> c) ->
          forall (k : N) s', pretty k <> String c s') as Hhead.
  { intros c Hc k s'. unfold pretty, pretty_N. case_decide.
    - intros [= Hd _]. by apply (Hc 0%N).
    - by apply Hgo. }
  assert (forall d, pretty_N_char d <> "n"%char) as Hn
    by (intros d; unfold pretty_N_char; by repeat case_match).
  assert (forall d, pretty_N_char d <> "N"%char) as HN
    by (intros d; unfold pretty_N_char; by repeat case_match).
  assert (forall d, pretty_N_char d <> "I"%char) as HI
    by (intros d; unfold pretty_N_char; by repeat case_match).
  assert (forall d, pretty_N_char d <> "-"%char) as Hdash
    by (intros d; unfold pretty_N_char; by repeat case_match).
  assert (forall x k, naturalOf x = Some k -> Qred x = Qmake (Z.of_N k) 1) as Hnat.
  { intros x k. unfold naturalOf. destruct (Qred x) as [a d]. cbn [Qden Qnum].
    destruct (Pos.eqb_spec d 1) as [->|]; [|done].
    destruct (Z.leb_spec 0 a) as [Ha|]; [|done]. cbn [andb]. intros [= <-].
    by rewrite Z2N.id. }
  intros a b Hab.
  apply (@NumberToString_inj reference_runtime).
  change (referenceNumberToString a = referenceNumberToString b).
  destruct a as [| |x|], b as [| |y|]; simpl in Hab; try done;
    try destruct (naturalOf x) as [k|] eqn:Ex;
    try destruct (naturalOf y) as [k'|] eqn:Ey;
    try done;
    try (by apply Hhead in Hab); try (symmetry in Hab; by apply Hhead in Hab).
  apply (inj pretty) in Hab as <-.
  apply Hnat in Ex, Ey. simpl. by rewrite Ex, Ey.
Defined.

End SliderChange.

(** ** One engine's [Array.prototype.sort]

    When the comparator is not a consistent comparison function the
    language leaves the order to the engine, and [JsArray.sort] is then no
    more than one possible order.  This is the sort of V8 (Chrome, Node) for
    an array shorter than 64 elements, after its [array-sort.tq]:
    [CountAndMakeRun] finds the run the array starts with and reverses it
    when it descends strictly, [BinaryInsertionSort] then inserts the other
    elements one by one at the place a binary search gives.  Longer arrays
    are sorted run by run and merged, which is not modelled. *)

Module V8.

Section Sort.
Context {A : Type} (comparefn : A -> A -> num).

(** [order < 0] for the [order] of one comparison, a [NaN] counting as
    [+0]. *)
Definition negative (x y : A) : bool := (comparefn x y <? Fin 0)%J.

(** The loop of [CountAndMakeRun]: the elements that continue the run, and
    the elements left. *)
Fixpoint runTail (isDescending : bool) (previousElement : A) (l : list A)
  : list A * list A :=
  match l with
  | [] => ([], [])
  | currentElement :: l' =>
      if Bool.eqb (negative currentElement previousElement) isDescending
      then let '(run, rest) := runTail isDescending currentElement l' in
           (currentElement :: run, rest)
      else ([], l)
  end.

(** [CountAndMakeRun]: the run, reversed when it descends, and the
    elements left. *)
Definition countAndMakeRun (l : list A) : list A * list A :=
  match l with
  | elementHigh :: elementLow :: l' =>
      let isDescending := negative elementLow elementHigh in
      let '(run, rest) := runTail isDescending elementLow l' in
      let whole := elementHigh :: elementLow :: run in
      (if isDescending then rev whole else whole, rest)
  | _ => (l, [])
  end.

(** The binary search of [BinaryInsertionSort] for the place of [pivot] in
    the part sorted so far. *)
Fixpoint search (fuel : nat) (pivot : A) (work : list A) (left right : nat) : nat :=
  match fuel with
  | O => left
  | S fuel' =>
      if (left <? right)%nat then
        let mid := (left + (right - left) / 2)%nat in
        match work !! mid with
        | Some element =>
            if negative pivot element then search fuel' pivot work left mid
            else search fuel' pivot work (mid + 1)%nat right
        | None => left
        end
      else left
  end.

(** One round of [BinaryInsertionSort]: [pivot] moves to its place. *)
Definition place (work : list A) (pivot : A) : list A :=
  let left := search (S (length work)) pivot work 0 (length work) in
  take left work ++ pivot :: drop left work.

Definition binaryInsertionSort (run rest : list A) : list A :=
  fold_left place rest run.

(** The sort of an array shorter than 64 elements. *)
Definition sort (l : list A) : option (list A) :=
  if (length l <? 2)%nat then Some l
  else if (length l <? 64)%nat then
    let '(run, rest) := countAndMakeRun l in Some (binaryInsertionSort run rest)
  else None.

End Sort.

End V8.

(** ** Records to sort by title *)

Module Shelf.
Import Client.

(** A record with nothing but a key and a title. *)
Definition titled (key name : string) : item :=
  {| id := key; title := name;
     buy := None; sell := None; instabuy := None; instasell := None;
     margin := None; coinsPerHour := None;
     href := None; img := None; raw := "" |}.

(** Titles some of which read as numbers, two of them the same. *)
Definition mixed : list item :=
  [titled "r1" "x"; titled "r2" "y"; titled "r3" "9"; titled "r4" "z";
   titled "r5" "5"; titled "r6" "1"; titled "r7" "5"].

Definition short : list item :=
  [titled "s1" "10"; titled "s2" "9"; titled "s3" "x"; titled "s4" "1"].

End Shelf.

(** * Properties *)

(** ** Numbers *)

Module JsNumFacts.

Lemma ltb_Fin a b : (Fin a <? Fin b)%J = true <-> a < b.
Proof.
  simpl. rewrite Qlt_alt. destruct (a ?= b); split; congruence.
Qed.

Lemma gtb_Fin a b : (Fin a >? Fin b)%J = true <-> b < a.
Proof. apply ltb_Fin. Qed.

Lemma eqb_Fin a b : (Fin a === Fin b)%J = true <-> a == b.
Proof. apply Qeq_bool_iff. Qed.

Lemma leb_Fin a b : (Fin a <=? Fin b)%J = true <-> a <= b.
Proof.
  unfold JsNum.leb. rewrite orb_true_iff, ltb_Fin, eqb_Fin.
  rewrite Qle_lteq. tauto.
Qed.

Lemma ltb_Fin_false a b : (Fin a <? Fin b)%J = false <-> b <= a.
Proof.
  rewrite <- not_true_iff_false, ltb_Fin. split; [apply Qnot_lt_le | apply Qle_not_lt].
Qed.

Lemma leb_Fin_false a b : (Fin a <=? Fin b)%J = false <-> b < a.
Proof.
  rewrite <- not_true_iff_false, leb_Fin. split; [apply Qnot_le_lt | apply Qlt_not_le].
Qed.

Lemma eqb_refl a : a <> NaN -> (a === a)%J = true.
Proof. destruct a; try done. intros _. apply eqb_Fin. reflexivity. Qed.

Lemma le_refl a : a <> NaN -> JsNum.le a a.
Proof. destruct a; try done. intros _. apply leb_Fin. apply Qle_refl. Qed.

Lemma le_trans a b c : JsNum.le a b -> JsNum.le b c -> JsNum.le a c.
Proof.
  unfold JsNum.le. destruct a, b, c; try done.
  rewrite !leb_Fin. apply Qle_trans.
Qed.

Lemma le_total a b : a <> NaN -> b <> NaN -> JsNum.le a b \/ JsNum.le b a.
Proof.
  unfold JsNum.le. destruct a, b; try done; auto.
  intros _ _. rewrite !leb_Fin. destruct (Qlt_le_dec q q0); [left | right]; auto.
  by apply Qlt_le_weak.
Qed.

Lemma ltb_false_le a b : a <> NaN -> b <> NaN -> (a <? b)%J = false -> JsNum.le b a.
Proof.
  unfold JsNum.le. destruct a, b; try done.
  intros _ _. rewrite ltb_Fin_false, leb_Fin. auto.
Qed.

Lemma ltb_true_le a b : (a <? b)%J = true -> JsNum.le a b.
Proof. unfold JsNum.le, JsNum.leb. by intros ->. Qed.

(** Sign of a difference of two numbers that are not [NaN]. *)
Lemma sub_gtb_0 a b :
  a <> NaN -> b <> NaN -> (b - a >? Fin 0)%J = (a <? b)%J.
Proof.
  destruct a as [| |x|], b as [| |y|]; try done. intros _ _.
  unfold JsNum.gtb, JsNum.sub. simpl JsNum.add.
  apply eq_true_iff_eq. rewrite !ltb_Fin. split; intros; lra.
Qed.

Lemma ltb_not_le a b : (a <? b)%J = true -> ~ JsNum.le b a.
Proof.
  unfold JsNum.le. destruct a as [| |x|], b as [| |y|]; try done.
  rewrite ltb_Fin, leb_Fin. apply Qlt_not_le.
Qed.

Lemma eqb_le a b : (a === b)%J = true <-> JsNum.le a b /\ JsNum.le b a.
Proof.
  unfold JsNum.le. destruct a as [| |x|], b as [| |y|]; try (simpl; intuition done).
  rewrite eqb_Fin, !leb_Fin. split; [intros ->; split; apply Qle_refl|].
  intros [? ?]. by apply Qle_antisym.
Qed.

Lemma same_refl a : JsNum.same a a.
Proof. destruct a; simpl; auto. reflexivity. Qed.

Lemma same_sym a b : JsNum.same a b -> JsNum.same b a.
Proof. destruct a, b; simpl; auto. intros. by symmetry. Qed.

End JsNumFacts.

(** ** Insertion sort *)

Module JsArrayFacts.

Section Generic.
Context {A : Type} (comparefn : A -> A -> num).

Lemma insert_perm x l : JsArray.insert comparefn x l ≡ₚ x :: l.
Proof.
  induction l as [|y l IH]; simpl; [done|].
  destruct (comparefn x y >? Fin 0)%J; [|done].
  rewrite IH. apply Permutation_swap.
Qed.

Lemma sort_perm l : JsArray.sort comparefn l ≡ₚ l.
Proof.
  induction l as [|x l IH]; simpl; [done|].
  by rewrite insert_perm, IH.
Qed.

Lemma sort_length l : length (JsArray.sort comparefn l) = length l.
Proof. apply Permutation_length, sort_perm. Qed.

(** An element never moves behind one it does not compare greater than,
    so the members of any class of mutually non-greater elements keep
    their input order. *)
Lemma insert_filter_in (P : A -> bool) x l :
  (forall y, y ∈ l -> P x = true -> P y = true -> (comparefn x y >? Fin 0)%J = false) ->
  List.filter P (JsArray.insert comparefn x l) = List.filter P (x :: l).
Proof.
  induction l as [|y l IH]; intros Hstay; [done|].
  simpl JsArray.insert. destruct (comparefn x y >? Fin 0)%J eqn:E; [|done].
  simpl in *. rewrite IH by (intros z Hz; apply Hstay; by right).
  destruct (P x) eqn:Px, (P y) eqn:Py; try done.
  rewrite Hstay in E; [done|by left|done..].
Qed.

Lemma sort_filter_in (P : A -> bool) l :
  (forall x y, x ∈ l -> y ∈ l -> P x = true -> P y = true ->
               (comparefn x y >? Fin 0)%J = false) ->
  List.filter P (JsArray.sort comparefn l) = List.filter P l.
Proof.
  induction l as [|x l IH]; intros Hstay; [done|].
  simpl JsArray.sort. rewrite insert_filter_in.
  - simpl. rewrite IH; [done|]. intros y z Hy Hz. apply Hstay; by right.
  - intros y Hy. rewrite sort_perm in Hy. apply Hstay; [by left|by right].
Qed.

Lemma sort_filter (P : A -> bool) l :
  (forall x y, P x = true -> P y = true -> (comparefn x y >? Fin 0)%J = false) ->
  List.filter P (JsArray.sort comparefn l) = List.filter P l.
Proof. intros Hstay. apply sort_filter_in. auto. Qed.

(** A list on which the comparator is never positive is left as it is. *)
Lemma sort_id l :
  (forall x y, x ∈ l -> y ∈ l -> (comparefn x y >? Fin 0)%J = false) ->
  JsArray.sort comparefn l = l.
Proof.
  induction l as [|x l IH]; intros Hc; [done|].
  simpl. rewrite IH by (intros y z Hy Hz; apply Hc; by right).
  destruct l as [|y l]; [done|]. simpl.
  rewrite Hc; [done|by left|by right; left].
Qed.
(** Sortedness with respect to an order [R] that agrees with the
    comparator on the elements satisfying [Q]. *)
Context (R : A -> A -> Prop) (Q : A -> Prop).
Hypothesis R_trans : forall x y z, Q x -> Q y -> Q z -> R x y -> R y z -> R x z.
Hypothesis R_stay : forall x y, Q x -> Q y -> (comparefn x y >? Fin 0)%J = false -> R x y.
Hypothesis R_move : forall x y, Q x -> Q y -> (comparefn x y >? Fin 0)%J = true -> R y x.

Lemma insert_sorted x l :
  Q x -> Forall Q l -> StronglySorted R l ->
  StronglySorted R (JsArray.insert comparefn x l).
Proof using R_trans R_stay R_move.
  intros Qx HQ Hs. induction Hs as [|y l Hs IH Hy]; simpl.
  - repeat constructor.
  - apply Forall_cons in HQ as [Qy HQ].
    destruct (comparefn x y >? Fin 0)%J eqn:E.
    + constructor; [by apply IH|].
      rewrite insert_perm. constructor; [by apply R_move|done].
    + constructor; [by constructor|].
      constructor; [by apply R_stay|].
      rewrite Forall_forall in HQ, Hy. apply Forall_forall. intros z Hz.
      apply (R_trans x y z); auto.
Qed.

Lemma sort_sorted l : Forall Q l -> StronglySorted R (JsArray.sort comparefn l).
Proof using R_trans R_stay R_move.
  induction l as [|x l IH]; simpl; [constructor|].
  intros [Qx HQ]%Forall_cons. apply insert_sorted; auto.
  by rewrite sort_perm.
Qed.

End Generic.

(** *** The stable sorted arrangement is unique *)

Section Unique.
Context {A : Type} (comparefn : A -> A -> num).
Context (R : A -> A -> Prop) (Q : A -> Prop) (eqv : A -> A -> bool).
Hypothesis R_refl : forall x, Q x -> R x x.
Hypothesis R_trans : forall x y z, Q x -> Q y -> Q z -> R x y -> R y z -> R x z.
Hypothesis R_stay : forall x y, Q x -> Q y -> (comparefn x y >? Fin 0)%J = false -> R x y.
Hypothesis R_move :
  forall x y, Q x -> Q y -> (comparefn x y >? Fin 0)%J = true -> R y x /\ ~ R x y.
Hypothesis eqv_spec : forall x y, Q x -> Q y -> eqv x y = true <-> R x y /\ R y x.

(** Two sorted arrangements of the same elements that keep the elements
    of every class of equals in the same order are the same list. *)
Lemma stable_sorted_unique l1 l2 :
  Forall Q l1 -> l1 ≡ₚ l2 ->
  StronglySorted R l1 -> StronglySorted R l2 ->
  (forall x, Q x -> List.filter (eqv x) l1 = List.filter (eqv x) l2) ->
  l1 = l2.
Proof using R_refl eqv_spec.
  revert l2. induction l1 as [|a t1 IH]; intros l2 HQ Hp Hs1 Hs2 Hst.
  - by apply Permutation_nil in Hp.
  - destruct l2 as [|b t2]; [by apply Permutation_sym, Permutation_nil in Hp|].
    apply Forall_cons in HQ as [Qa HQ].
    apply StronglySorted_inv in Hs1 as [Hs1 Ha], Hs2 as [Hs2 Hb].
    assert (Q b) as Qb.
    { assert (b ∈ a :: t1) as Hin by (rewrite Hp; left).
      apply elem_of_cons in Hin as [->|Hin]; [done|].
      by eapply Forall_forall in HQ. }
    assert (a = b) as <-.
    { assert (R a b) as Hab.
      { assert (b ∈ a :: t1) as Hin by (rewrite Hp; left).
        apply elem_of_cons in Hin as [->|Hin]; [by apply R_refl|].
        by eapply Forall_forall in Ha. }
      assert (R b a) as Hba.
      { assert (a ∈ b :: t2) as Hin by (rewrite <- Hp; left).
        apply elem_of_cons in Hin as [->|Hin]; [by apply R_refl|].
        by eapply Forall_forall in Hb. }
      specialize (Hst a Qa). simpl in Hst.
      rewrite (proj2 (eqv_spec a a Qa Qa)) in Hst by auto.
      rewrite (proj2 (eqv_spec a b Qa Qb)) in Hst by auto.
      congruence. }
    f_equal. apply IH; try done.
    + by apply Permutation_cons_inv in Hp.
    + intros x Qx. specialize (Hst x Qx). simpl in Hst.
      destruct (eqv x a); congruence.
Qed.

(** Hence the list [sort] returns is the only one a stable sort can
    return. *)
Lemma sort_unique l l' :
  Forall Q l -> l' ≡ₚ l -> StronglySorted R l' ->
  (forall x, Q x -> List.filter (eqv x) l' = List.filter (eqv x) l) ->
  l' = JsArray.sort comparefn l.
Proof using R_refl R_trans R_stay R_move eqv_spec.
  intros HQ Hp Hs Hst.
  assert (Forall Q l') as HQ' by (by rewrite Hp).
  apply stable_sorted_unique; try done.
  - by rewrite sort_perm.
  - apply (sort_sorted comparefn R Q); try done.
    intros x y Qx Qy Hc. by apply R_move.
  - intros x Qx. rewrite Hst by done. symmetry.
    apply sort_filter_in. intros y z Hy Hz Exy Exz.
    rewrite Forall_forall in HQ.
    apply eqv_spec in Exy as [_ Hyx], Exz as [Hxz _]; auto.
    destruct (comparefn y z >? Fin 0)%J eqn:E; [|done].
    apply R_move in E as [_ E]; auto. destruct E. apply (R_trans y x z); auto.
Qed.

End Unique.

Lemma StronglySorted_take {A} (R : A -> A -> Prop) n l :
  StronglySorted R l -> StronglySorted R (take n l).
Proof.
  intros Hs. revert n. induction Hs as [|x l Hs IH Hx]; intros [|n]; simpl; try constructor.
  - apply IH.
  - rewrite Forall_forall in *. intros y Hy. apply Hx.
    eapply (subseteq_take n l), Hy.
Qed.

End JsArrayFacts.

(** ** The derivation engine *)

Module ServerFacts.
Import Server.

(** With [count = 1] the mean is the first price of the book, and 0 for an
    empty book. *)
Lemma getMeanPrice_top o rest : JsNum.same (getMeanPrice (o :: rest) 1) (pricePerUnit o).
Proof.
  unfold getMeanPrice.
  replace (Nat.min (length (o :: rest)) 1) with 1%nat by (simpl; lia).
  simpl. destruct (pricePerUnit o) as [| |x|]; try done.
  simpl. field.
Qed.

Lemma getMeanPrice_empty count : getMeanPrice [] count = Fin 0.
Proof. done. Qed.

Lemma min_gtb a b c :
  (JsNum.min a b >? c)%J = true -> (a >? c)%J = true /\ (b >? c)%J = true.
Proof.
  unfold JsNum.min.
  destruct a as [| |x|], b as [| |y|]; try (simpl; done);
    destruct c as [| |z|]; try (simpl; done).
  all: try (destruct (_ <? _)%J eqn:E; simpl in E; try done).
  all: rewrite ?JsNumFacts.gtb_Fin; intros Hc.
  - apply JsNumFacts.ltb_Fin in E. split; [lra|done].
  - apply JsNumFacts.ltb_Fin_false in E. split; [done|lra].
Qed.

Lemma gtb_min a b c :
  (a >? c)%J = true -> (b >? c)%J = true -> (JsNum.min a b >? c)%J = true.
Proof.
  unfold JsNum.min. intros Ha Hb.
  destruct a, b; try done; by destruct (_ <? _)%J.
Qed.

Lemma mul_gtb_0 a b :
  (a >? Fin 0)%J = true -> (b >? Fin 0)%J = true -> (a * b >? Fin 0)%J = true.
Proof.
  destruct a as [| |x|], b as [| |y|]; try done.
  - change (Fin x * Fin y)%J with (Fin (x * y)).
    rewrite !JsNumFacts.gtb_Fin. intros. by apply Qmult_lt_0_compat.
  - rewrite JsNumFacts.gtb_Fin. intros Hx _. unfold JsNum.mul. simpl.
    unfold JsNum.Qsign. apply Qgt_alt in Hx. by rewrite Hx.
  - rewrite JsNumFacts.gtb_Fin. intros _ Hy. unfold JsNum.mul. simpl.
    unfold JsNum.Qsign. apply Qgt_alt in Hy. by rewrite Hy.
Qed.

Lemma gtb_not_NaN a c : (a >? c)%J = true -> a <> NaN.
Proof. by destruct a, c. Qed.

Lemma gtb_10_0 a : (a >? Fin 10)%J = true -> (a >? Fin 0)%J = true.
Proof. destruct a; try done. rewrite !JsNumFacts.gtb_Fin. lra. Qed.

Lemma leb_0_false a : (a <=? Fin 0)%J = false -> a = NaN \/ (a >? Fin 0)%J = true.
Proof.
  destruct a; try done; auto.
  rewrite JsNumFacts.leb_Fin_false, JsNumFacts.gtb_Fin. auto.
Qed.

Lemma gtb_0_leb a : (a >? Fin 0)%J = true -> (a <=? Fin 0)%J = false.
Proof.
  destruct a; try done.
  by rewrite JsNumFacts.leb_Fin_false, JsNumFacts.gtb_Fin.
Qed.

Lemma marginOf_NaN taxRate p :
  buyPriceOf p = NaN \/ sellPriceOf p = NaN -> marginOf taxRate p = NaN.
Proof.
  unfold marginOf. intros [-> | ->].
  - by destruct (taxMultiplier taxRate).
  - by destruct (_ * _)%J.
Qed.

(** The card of a product, when there is one. *)
Lemma flipCard_Some taxRate p c :
  flipCard taxRate p = Some c ->
  (buyPriceOf p >? Fin 0)%J = true /\ (sellPriceOf p >? Fin 0)%J = true /\
  (marginOf taxRate p >? Fin 0)%J = true /\
  (JsNum.min (instabuyHourlyOf p) (instasellHourlyOf p) >? Fin 10)%J = true /\
  buy c = sellPriceOf p /\ sell c = buyPriceOf p /\
  instabuy c = instabuyHourlyOf p /\ instasell c = instasellHourlyOf p /\
  margin c = marginOf taxRate p /\ coinsPerHour c = coinsPerHourOf taxRate p.
Proof.
  unfold flipCard.
  destruct (_ || _) eqn:Eguard; [done|].
  destruct (_ && _) eqn:Equal; [|done].
  intros [= <-]. simpl.
  apply orb_false_iff in Eguard as [Eb Es].
  apply andb_true_iff in Equal as [Em Ev].
  assert (marginOf taxRate p <> NaN) as Hm by (by eapply gtb_not_NaN).
  apply leb_0_false in Eb as [Eb|Eb];
    [by destruct Hm; apply marginOf_NaN; left|].
  apply leb_0_false in Es as [Es|Es];
    [by destruct Hm; apply marginOf_NaN; right|].
  done.
Qed.

Lemma flipCard_is_Some taxRate p :
  (buyPriceOf p >? Fin 0)%J = true -> (sellPriceOf p >? Fin 0)%J = true ->
  (marginOf taxRate p >? Fin 0)%J = true ->
  (JsNum.min (instabuyHourlyOf p) (instasellHourlyOf p) >? Fin 10)%J = true ->
  is_Some (flipCard taxRate p).
Proof.
  intros Hb Hs Hm Hv. unfold flipCard.
  rewrite (gtb_0_leb _ Hb), (gtb_0_leb _ Hs), Hm, Hv. simpl. eauto.
Qed.

Lemma flipCard_iff taxRate p :
  is_Some (flipCard taxRate p) <->
  (buyPriceOf p >? Fin 0)%J = true /\ (sellPriceOf p >? Fin 0)%J = true /\
  (marginOf taxRate p >? Fin 0)%J = true /\
  (JsNum.min (instabuyHourlyOf p) (instasellHourlyOf p) >? Fin 10)%J = true.
Proof.
  split.
  - intros [c Hc]. apply flipCard_Some in Hc. tauto.
  - intros (? & ? & ? & ?). by apply flipCard_is_Some.
Qed.

Lemma flipCard_coinsPerHour taxRate p c :
  flipCard taxRate p = Some c ->
  (coinsPerHour c >? Fin 0)%J = true /\
  coinsPerHour c = (margin c * JsNum.min (instabuy c) (instasell c))%J.
Proof.
  intros (_ & _ & Hm & Hv & _ & _ & -> & -> & -> & ->)%flipCard_Some.
  split; [|done]. apply mul_gtb_0; [done|by apply gtb_10_0].
Qed.

Lemma topCards_descending taxRate products : descending (topCards taxRate products).
Proof.
  unfold topCards, descending, JsArray.slice0.
  apply JsArrayFacts.StronglySorted_take.
  apply JsArrayFacts.sort_sorted with (Q := fun c => coinsPerHour c <> NaN).
  - intros x y z _ _ _ Hxy Hyz. eapply JsNumFacts.le_trans; eauto.
  - intros x y Hx Hy. rewrite JsNumFacts.sub_gtb_0 by done.
    by apply JsNumFacts.ltb_false_le.
  - intros x y Hx Hy. rewrite JsNumFacts.sub_gtb_0 by done.
    apply JsNumFacts.ltb_true_le.
  - apply Forall_forall. intros c (p & _ & Hp)%list_elem_of_omap.
    apply flipCard_coinsPerHour in Hp as [Hp _]. by eapply gtb_not_NaN.
Qed.

Lemma topCards_length taxRate products :
  (length (topCards taxRate products) <= 100)%nat.
Proof. unfold topCards, JsArray.slice0. rewrite length_take. lia. Qed.

Lemma topCards_coinsPerHour taxRate products :
  Forall (fun c => coinsPerHour c = (margin c * JsNum.min (instabuy c) (instasell c))%J)
         (topCards taxRate products).
Proof.
  apply Forall_forall. intros c Hc.
  unfold topCards, JsArray.slice0 in Hc.
  apply (subseteq_take 100) in Hc. rewrite JsArrayFacts.sort_perm in Hc.
  apply list_elem_of_omap in Hc as (p & _ & Hp).
  by apply flipCard_coinsPerHour in Hp as [_ Hp].
Qed.

(** Any stable arrangement of the cards in descending order of coins per
    hour is the one the model of [sort] gives. *)
Lemma sort_by_coinsPerHour_unique cards l' :
  Forall (fun c => coinsPerHour c <> NaN) cards ->
  l' ≡ₚ cards -> descending l' ->
  (forall x, List.filter (fun c => coinsPerHour x === coinsPerHour c)%J l'
             = List.filter (fun c => coinsPerHour x === coinsPerHour c)%J cards) ->
  l' = JsArray.sort (fun a b => (coinsPerHour b - coinsPerHour a)%J) cards.
Proof.
  intros HQ Hp Hs Hst.
  apply (JsArrayFacts.sort_unique _
           (fun a b => JsNum.le (coinsPerHour b) (coinsPerHour a))
           (fun c => coinsPerHour c <> NaN)
           (fun x c => coinsPerHour x === coinsPerHour c)%J); try done.
  - intros x Hx. by apply JsNumFacts.le_refl.
  - intros x y z _ _ _ Hxy Hyz. eapply JsNumFacts.le_trans; eauto.
  - intros x y Hx Hy. rewrite JsNumFacts.sub_gtb_0 by done.
    by apply JsNumFacts.ltb_false_le.
  - intros x y Hx Hy. rewrite JsNumFacts.sub_gtb_0 by done.
    intros Hlt. split; [by apply JsNumFacts.ltb_true_le|by apply JsNumFacts.ltb_not_le].
  - intros x y _ _. rewrite JsNumFacts.eqb_le. tauto.
Qed.
End ServerFacts.

(** ** The cache and the request handler *)

Section EngineFacts.
Context `{Runtime}.
Import Server.

Lemma cacheKey_inj t1 t2 : cacheKey t1 = cacheKey t2 -> JsNum.same t1 t2.
Proof.
  unfold cacheKey. intros Hk.
  apply NumberToString_inj. by apply (inj (String.app _)) in Hk.
Qed.

Lemma getBazaarData_derived taxRateArg fetch c :
  derived c -> derived (getBazaarData taxRateArg fetch c).2.
Proof.
  intros Hc. unfold getBazaarData.
  destruct (c !! _) eqn:E; [done|].
  destruct fetch as [e|[] products]; try done.
  simpl. unfold derived, cache in *. intros key l. rewrite lookup_insert.
  case_decide as Hk; [|by apply Hc].
  intros [= <-]. eauto.
Qed.

Lemma step_derived c ev : derived c -> derived (step c ev).
Proof.
  destruct ev as [t fetch|key]; simpl.
  - apply getBazaarData_derived.
  - unfold derived, cache. intros Hc k l [_ Hl]%lookup_delete_Some. by apply Hc.
Qed.

Lemma run_derived evs : derived (run evs).
Proof.
  unfold run.
  assert (derived (∅ : cache)) as Hc
    by (unfold derived, cache; intros k l; by rewrite lookup_empty).
  revert Hc. generalize (∅ : cache).
  induction evs as [|ev evs IH]; intros c Hc; simpl; [done|].
  by apply IH, step_derived.
Qed.

(** A list a request returns is the ranked list of some snapshot. *)
Lemma getBazaarData_Returned_topCards taxRateArg fetch c l :
  derived c ->
  (getBazaarData taxRateArg fetch c).1 = Returned l ->
  exists taxRate products, l = topCards taxRate products.
Proof.
  intros Hc. unfold getBazaarData.
  destruct (c !! _) eqn:E.
  - intros [= ->]. apply Hc in E as (t & ps & _ & ->). eauto.
  - destruct fetch as [e|[] products]; try done.
    intros [= <-]. eauto.
Qed.

(** A list a request returns is the cached one for its key, or freshly
    derived with its tax rate. *)
Lemma getBazaarData_Returned taxRateArg fetch c l :
  derived c ->
  (getBazaarData taxRateArg fetch c).1 = Returned l ->
  exists taxRate products,
    JsNum.same (default defaultTaxRate taxRateArg) taxRate /\
    l = topCards taxRate products.
Proof.
  intros Hc. unfold getBazaarData.
  destruct (c !! _) eqn:E.
  - intros [= ->]. apply Hc in E as (t & ps & Hk & ->).
    exists t, ps. split; [by apply cacheKey_inj|done].
  - destruct fetch as [e|[] products]; try done.
    intros [= <-]. eexists _, _. split; [apply JsNumFacts.same_refl|done].
Qed.

End EngineFacts.

(** ** Claims about the derivation engine *)

(** C1. For a quote whose reference prices [highPrice] (top of the
    buy-order book) and [lowPrice] (top of the sell-order book) are
    positive, and for every finite tax rate, in particular every rate in
    [0,100], the margin the engine computes, and tests, is
    [highPrice * (1 - taxRate/100) - lowPrice], the expression of the code:
    the tax multiplies the high price only and the low price is subtracted
    untaxed.  When that margin and the hourly volume pass the tests of the
    callback, the engine pushes a card, and the card carries this margin,
    the high price as [sell] and the low price as [buy]; it pushes no card
    with another margin. *)
Theorem margin_formula (taxRate highPrice lowPrice : Q) (p : Server.product) :
  Server.buyPriceOf p = Fin highPrice ->
  Server.sellPriceOf p = Fin lowPrice ->
  0 < highPrice -> 0 < lowPrice ->
  JsNum.same (Server.marginOf (Fin taxRate) p)
             (Fin (highPrice * (1 - taxRate / 100) - lowPrice)) /\
  ((Server.marginOf (Fin taxRate) p >? Fin 0)%J = true ->
   (JsNum.min (Server.instabuyHourlyOf p) (Server.instasellHourlyOf p) >? Fin 10)%J = true ->
   exists c,
     Server.flipCard (Fin taxRate) p = Some c /\
     JsNum.same (Server.margin c) (Fin (highPrice * (1 - taxRate / 100) - lowPrice)) /\
     Server.sell c = Fin highPrice /\ Server.buy c = Fin lowPrice) /\
  (forall c, Server.flipCard (Fin taxRate) p = Some c ->
     JsNum.same (Server.margin c) (Fin (highPrice * (1 - taxRate / 100) - lowPrice)) /\
     Server.sell c = Fin highPrice /\ Server.buy c = Fin lowPrice).
Proof.
  intros Hh Hl Hhpos Hlpos.
  assert (Server.marginOf (Fin taxRate) p
          = Fin (highPrice * (1 + - (taxRate / 100)) + - lowPrice)) as Hm.
  { unfold Server.marginOf, Server.taxMultiplier. by rewrite Hh, Hl. }
  assert (forall c, Server.flipCard (Fin taxRate) p = Some c ->
            JsNum.same (Server.margin c) (Fin (highPrice * (1 - taxRate / 100) - lowPrice)) /\
            Server.sell c = Fin highPrice /\ Server.buy c = Fin lowPrice) as Hcard.
  { intros c Hc. apply ServerFacts.flipCard_Some in Hc.
    destruct Hc as (_ & _ & _ & _ & -> & -> & _ & _ & -> & _).
    rewrite Hm, Hh, Hl. split; [|done]. simpl. unfold Qminus. reflexivity. }
  split; [|split; [|exact Hcard]].
  - rewrite Hm. simpl. unfold Qminus. reflexivity.
  - intros Hpos Hvol.
    destruct (ServerFacts.flipCard_is_Some (Fin taxRate) p) as [c Hc]; try done.
    + rewrite Hh. by apply JsNumFacts.gtb_Fin.
    + rewrite Hl. by apply JsNumFacts.gtb_Fin.
    + exists c. split; [done|]. by apply Hcard.
Qed.

Lemma margin_formula_witness :
  exists c,
    Server.flipCard (Fin 1.125) Sample.rune = Some c /\
    JsNum.same (Server.margin c) (Fin (100 * (1 - 1.125 / 100) - 90)) /\
    Server.sell c = Fin 100 /\ Server.buy c = Fin 90.
Proof.
  apply (margin_formula 1.125 100 90 Sample.rune);
    [vm_compute; reflexivity|vm_compute; reflexivity|reflexivity|reflexivity
    |vm_compute; reflexivity|vm_compute; reflexivity].
Defined.

(** At the ends of the range: no tax leaves the spread, full tax leaves
    the cost of the purchase. *)
Lemma margin_at_tax_0_and_100 (highPrice lowPrice : Q) (p : Server.product) :
  Server.buyPriceOf p = Fin highPrice ->
  Server.sellPriceOf p = Fin lowPrice ->
  JsNum.same (Server.marginOf (Fin 0) p) (Fin (highPrice - lowPrice)) /\
  JsNum.same (Server.marginOf (Fin 100) p) (Fin (- lowPrice)).
Proof.
  intros Hh Hl. unfold Server.marginOf, Server.taxMultiplier. rewrite Hh, Hl.
  split; simpl; field.
Qed.

Lemma hourly_zero v :
  JsNum.same v (Fin 0) -> exists z, JsNum.round (v / Fin 168)%J = Fin z /\ z == 0.
Proof.
  destruct v as [| |q|]; try done. intros Hq.
  change (q == 0) in Hq.
  exists (inject_Z (Qfloor (q / 168 + (1 # 2)))). split; [done|].
  rewrite Hq. reflexivity.
Qed.

Lemma hourly_nonneg q :
  0 <= q -> exists z, JsNum.round (Fin q / Fin 168)%J = Fin z /\ 0 <= z.
Proof.
  intros Hq. exists (inject_Z (Qfloor (q / 168 + (1 # 2)))). split; [done|].
  change 0 with (inject_Z 0). rewrite <- Zle_Qle.
  change 0%Z with (Qfloor 0). apply Qfloor_resp_le.
  assert (0 <= q / 168) by (apply Qle_shift_div_l; lra). lra.
Qed.

(** C2, amended. A card is pushed for a quote exactly when both reference
    prices are positive, the margin is positive and the smaller of the two
    hourly rates exceeds ten, the rates being the weekly volumes divided by
    168 and rounded.  A quote with a zero weekly volume gets no card; when
    both volumes are non-negative numbers the smaller rate is then zero. *)
Theorem flipCard_qualification (taxRate : num) (p : Server.product) :
  (is_Some (Server.flipCard taxRate p) <->
     (Server.buyPriceOf p >? Fin 0)%J = true /\
     (Server.sellPriceOf p >? Fin 0)%J = true /\
     (Server.marginOf taxRate p >? Fin 0)%J = true /\
     (JsNum.min (Server.instabuyHourlyOf p) (Server.instasellHourlyOf p) >? Fin 10)%J = true) /\
  Server.instabuyHourlyOf p
    = JsNum.round (Server.buyMovingWeek (Server.quick_status p) / Fin 168)%J /\
  Server.instasellHourlyOf p
    = JsNum.round (Server.sellMovingWeek (Server.quick_status p) / Fin 168)%J /\
  (JsNum.same (Server.buyMovingWeek (Server.quick_status p)) (Fin 0) \/
   JsNum.same (Server.sellMovingWeek (Server.quick_status p)) (Fin 0) ->
   Server.flipCard taxRate p = None /\
   forall b s,
     Server.buyMovingWeek (Server.quick_status p) = Fin b ->
     Server.sellMovingWeek (Server.quick_status p) = Fin s ->
     0 <= b -> 0 <= s ->
     JsNum.same (JsNum.min (Server.instabuyHourlyOf p) (Server.instasellHourlyOf p)) (Fin 0)).
Proof.
  split; [apply ServerFacts.flipCard_iff|split; [done|split; [done|]]].
  intros Hzero. split.
  - destruct (Server.flipCard taxRate p) as [c|] eqn:Hc; [|done].
    apply ServerFacts.flipCard_Some in Hc as (_ & _ & _ & Hv & _).
    apply ServerFacts.min_gtb in Hv as [Hb Hs].
    unfold Server.instabuyHourlyOf, Server.instasellHourlyOf in *.
    destruct Hzero as [Hz|Hz]; apply hourly_zero in Hz as (z & Hz & Hz0).
    + rewrite Hz in Hb. apply JsNumFacts.gtb_Fin in Hb. lra.
    + rewrite Hz in Hs. apply JsNumFacts.gtb_Fin in Hs. lra.
  - intros b s Hb Hs Hb0 Hs0.
    unfold Server.instabuyHourlyOf, Server.instasellHourlyOf.
    rewrite Hb, Hs in *.
    destruct (hourly_nonneg b Hb0) as (zb & Ezb & Hzb).
    destruct (hourly_nonneg s Hs0) as (zs & Ezs & Hzs).
    assert (zb == 0 \/ zs == 0) as Hz.
    { destruct Hzero as [Hz|Hz]; apply hourly_zero in Hz as (z & Hz & Hz0).
      * left. rewrite Ezb in Hz. by injection Hz as ->.
      * right. rewrite Ezs in Hz. by injection Hz as ->. }
    rewrite Ezb, Ezs.
    unfold JsNum.min. destruct (Fin zs <? Fin zb)%J eqn:E; simpl.
    + apply JsNumFacts.ltb_Fin in E. lra.
    + apply JsNumFacts.ltb_Fin_false in E. lra.
Qed.

(** Without the two price conditions the equivalence fails: for a quote
    with an empty sell-order book the margin is positive and both hourly
    rates are twelve, yet no card is pushed. *)
Lemma unsold_quote_not_emitted :
  ~ (is_Some (Server.flipCard (Fin 1.125) Sample.unsold) <->
     (Server.marginOf (Fin 1.125) Sample.unsold >? Fin 0)%J = true /\
     (JsNum.min (Server.instabuyHourlyOf Sample.unsold)
                (Server.instasellHourlyOf Sample.unsold) >? Fin 10)%J = true).
Proof.
  intros [_ Hemit]. destruct Hemit as [c Hc].
  - split; vm_compute; reflexivity.
  - vm_compute in Hc. discriminate Hc.
Qed.

Lemma flipCard_qualification_witness :
  Server.flipCard (Fin 1.125) Sample.idle = None /\
  JsNum.same (JsNum.min (Server.instabuyHourlyOf Sample.idle)
                        (Server.instasellHourlyOf Sample.idle)) (Fin 0).
Proof.
  destruct (flipCard_qualification (Fin 1.125) Sample.idle) as (_ & _ & _ & Hzero).
  destruct Hzero as [Hnone Hmin]; [left; reflexivity|].
  split; [exact Hnone|].
  apply (Hmin 0 2016); [reflexivity|reflexivity|discriminate|discriminate].
Defined.

(** The same on finite data, in terms of the rationals: [h] and [l] the
    reference prices, [t] the tax rate, [b] and [s] the weekly volumes.
    The margin test is the one of the model, in exact arithmetic: where the
    exact margin is 0 (tax 45 on 100 and 55), rounding can leave the code a
    margin in the last digit and a card. *)
Lemma flipCard_qualification_finite (t h l b s : Q) (p : Server.product) :
  Server.buyPriceOf p = Fin h -> Server.sellPriceOf p = Fin l ->
  Server.buyMovingWeek (Server.quick_status p) = Fin b ->
  Server.sellMovingWeek (Server.quick_status p) = Fin s ->
  is_Some (Server.flipCard (Fin t) p) <->
  0 < h /\ 0 < l /\ 0 < h * (1 - t / 100) - l /\
  10 < Qmin (inject_Z (Qfloor (b / 168 + (1 # 2)))) (inject_Z (Qfloor (s / 168 + (1 # 2)))).
Proof.
  intros Hh Hl Hb Hs.
  rewrite ServerFacts.flipCard_iff.
  unfold Server.marginOf, Server.taxMultiplier,
    Server.instabuyHourlyOf, Server.instasellHourlyOf.
  rewrite Hh, Hl, Hb, Hs.
  set (zb := inject_Z (Qfloor (b / 168 + (1 # 2)))).
  set (zs := inject_Z (Qfloor (s / 168 + (1 # 2)))).
  change (JsNum.round (Fin b / Fin 168)%J) with (Fin zb).
  change (JsNum.round (Fin s / Fin 168)%J) with (Fin zs).
  change (Fin h * (Fin 1 - Fin t / Fin 100) - Fin l)%J
    with (Fin (h * (1 + - (t / 100)) + - l)).
  assert ((JsNum.min (Fin zb) (Fin zs) >? Fin 10)%J = true <-> 10 < Qmin zb zs) as ->.
  { unfold JsNum.min. destruct (Fin zs <? Fin zb)%J eqn:E.
    - apply JsNumFacts.ltb_Fin in E. rewrite JsNumFacts.gtb_Fin.
      rewrite (Q.min_r zb zs) by lra. tauto.
    - apply JsNumFacts.ltb_Fin_false in E. rewrite JsNumFacts.gtb_Fin.
      rewrite (Q.min_l zb zs) by lra. tauto. }
  rewrite !JsNumFacts.gtb_Fin. unfold Qminus. tauto.
Qed.

(** The worked examples of the specification. *)
Example worked_example_included :
  exists c,
    Server.flipCard (Fin 1.125) Sample.rune = Some c /\
    Server.sell c = Fin 100 /\ Server.buy c = Fin 90 /\
    JsNum.same (Server.margin c) (Fin 8.875) /\
    Server.instabuy c = Fin 12 /\ Server.instasell c = Fin 12 /\
    JsNum.same (Server.coinsPerHour c) (Fin 106.5).
Proof. eexists. split; [vm_compute; reflexivity|]. by repeat split. Qed.

Example worked_example_excluded :
  Server.instabuyHourlyOf Sample.thin = Fin 5 /\
  Server.flipCard (Fin 1.125) Sample.thin = None.
Proof. by split. Qed.

(** C3. Whatever requests and expiries came before, the list a call of
    [getBazaarData] returns is in descending order of coins per hour, where
    each card's coins per hour is its margin times the smaller of its two
    hourly rates, and has at most one hundred entries. *)
Theorem ranked_output_sorted_top100 `{Runtime}
    (evs : list Server.event) (taxRateArg : option num) (fetch : Server.upstream)
    (l : list Server.card) :
  (Server.getBazaarData taxRateArg fetch (Server.run evs)).1 = Server.Returned l ->
  Server.descending l /\
  (length l <= 100)%nat /\
  Forall (fun c => Server.coinsPerHour c
                   = (Server.margin c * JsNum.min (Server.instabuy c) (Server.instasell c))%J) l.
Proof.
  intros Hl. apply getBazaarData_Returned_topCards in Hl as (t & ps & ->);
    [|apply run_derived].
  split; [apply ServerFacts.topCards_descending|].
  split; [apply ServerFacts.topCards_length|apply ServerFacts.topCards_coinsPerHour].
Qed.

Lemma ranked_output_sorted_top100_witness :
  let l := Server.topCards (Fin 1.125) [Sample.rune; Sample.unsold; Sample.coal] in
  Server.descending l /\
  (length l <= 100)%nat /\
  Forall (fun c => Server.coinsPerHour c
                   = (Server.margin c * JsNum.min (Server.instabuy c) (Server.instasell c))%J) l.
Proof.
  apply (ranked_output_sorted_top100 [] (Some (Fin 1.125))
           (Server.Response true [Sample.rune; Sample.unsold; Sample.coal])).
  reflexivity.
Defined.

(** ** Claims about the cache and the served endpoint *)

(** C5 (what the code does). Called without a tax parameter, or with an
    empty one, the handler derives with the tax rate 1.25, which is also the
    default of [getBazaarData]'s own parameter; 1.25 is not 1.125. *)
Theorem default_tax_rate_is_1_25 `{Runtime} (fetch : Server.upstream) (c : Server.cache) :
  Server.queryTax None = Fin 1.25 /\
  Server.queryTax (Some "") = Fin 1.25 /\
  Server.apiFlips None fetch c
    = (let '(r, c') := Server.getBazaarData (Some (Fin 1.25)) fetch c in
       (match r with
        | Server.Returned data => {| Server.statusCode := 200; Server.json := Server.Success data |}
        | Server.Thrown e => {| Server.statusCode := 500; Server.json := Server.Failure e |}
        end, c')) /\
  Server.getBazaarData None fetch c = Server.getBazaarData (Some (Fin 1.25)) fetch c /\
  ~ JsNum.same (Fin 1.25) (Fin 1.125).
Proof.
  repeat split; try done.
  unfold Server.apiFlips. simpl Server.queryTax.
  by destruct (Server.getBazaarData _ _ _) as [[data|e] c'].
Qed.

(** C8. When the cache has no entry for the tax rate, so that the snapshot
    is requested, and the request is rejected or the snapshot's [success]
    flag is false, [getBazaarData] throws, returns no list and leaves the
    cache as it was; the handler then answers with status 500 and the body
    [{ success: false, error }] carrying the message of the error. *)
Theorem upstream_failure_is_reported `{Runtime}
    (tax : option string) (fetch : Server.upstream) (c : Server.cache) (message : string) :
  Server.failure fetch = Some message ->
  c !! Server.cacheKey (Server.queryTax tax) = None ->
  Server.getBazaarData (Some (Server.queryTax tax)) fetch c = (Server.Thrown message, c) /\
  Server.apiFlips tax fetch c
    = ({| Server.statusCode := 500; Server.json := Server.Failure message |}, c).
Proof.
  intros Hfail Hmiss.
  assert (Server.getBazaarData (Some (Server.queryTax tax)) fetch c
          = (Server.Thrown message, c)) as Hget.
  { unfold Server.getBazaarData. simpl default. rewrite Hmiss.
    destruct fetch as [e|[] products]; simpl in *; congruence. }
  split; [done|]. unfold Server.apiFlips. by rewrite Hget.
Qed.

Lemma upstream_failure_is_reported_witness :
  Server.getBazaarData (Some (Server.queryTax (Some "2"))) (Server.Response false [])
                       (Server.run [Server.Request None (Server.Response true [Sample.rune])])
    = (Server.Thrown "Hypixel API failed",
       Server.run [Server.Request None (Server.Response true [Sample.rune])]) /\
  Server.apiFlips (Some "2") (Server.Response false [])
                  (Server.run [Server.Request None (Server.Response true [Sample.rune])])
    = ({| Server.statusCode := 500; Server.json := Server.Failure "Hypixel API failed" |},
       Server.run [Server.Request None (Server.Response true [Sample.rune])]).
Proof.
  apply (upstream_failure_is_reported (Some "2") (Server.Response false [])); reflexivity.
Defined.

(** The same for a call of [getBazaarData] with any argument. *)
Lemma getBazaarData_failure `{Runtime} taxRateArg fetch (c : Server.cache) message :
  Server.failure fetch = Some message ->
  c !! Server.cacheKey (default Server.defaultTaxRate taxRateArg) = None ->
  Server.getBazaarData taxRateArg fetch c = (Server.Thrown message, c).
Proof.
  intros Hfail Hmiss. unfold Server.getBazaarData. rewrite Hmiss.
  destruct fetch as [e|[] products]; simpl in *; congruence.
Qed.

(** C9. The cache key is the namespace [flips_] followed by the rendering
    of the tax rate, so equal keys mean equal tax rates.  A request writes
    no entry but the one of its own tax rate, and its result depends on no
    other entry.  Whatever requests and expiries came before, every entry
    of the cache is a list derived with the tax rate of its key, and the
    list a request returns was derived with the tax rate of the request. *)
Theorem cache_entries_per_tax_rate `{Runtime} :
  (forall taxRate, Server.cacheKey taxRate = "flips_" +:+ NumberToString taxRate) /\
  (forall t1 t2, Server.cacheKey t1 = Server.cacheKey t2 -> JsNum.same t1 t2) /\
  (forall t1 t2 fetch (c : Server.cache),
     ~ JsNum.same t1 t2 ->
     (Server.getBazaarData (Some t1) fetch c).2 !! Server.cacheKey t2
       = c !! Server.cacheKey t2) /\
  (forall t fetch (c c' : Server.cache),
     c !! Server.cacheKey t = c' !! Server.cacheKey t ->
     (Server.getBazaarData (Some t) fetch c).1 = (Server.getBazaarData (Some t) fetch c').1) /\
  (forall evs key l,
     Server.run evs !! key = Some l ->
     exists taxRate products,
       key = Server.cacheKey taxRate /\ l = Server.topCards taxRate products) /\
  (forall evs t fetch l,
     (Server.getBazaarData (Some t) fetch (Server.run evs)).1 = Server.Returned l ->
     exists taxRate products,
       JsNum.same t taxRate /\ l = Server.topCards taxRate products).
Proof.
  split; [done|]. split; [apply cacheKey_inj|]. split; [|split; [|split]].
  - intros t1 t2 fetch c Hne. unfold Server.getBazaarData. simpl default.
    destruct (c !! Server.cacheKey t1); [done|].
    destruct fetch as [e|[] products]; try done.
    simpl. unfold Server.cache in *. apply lookup_insert_ne.
    intros Hk. by apply Hne, cacheKey_inj.
  - intros t fetch c c' Hc. unfold Server.getBazaarData. simpl default.
    rewrite <- Hc. destruct (c !! Server.cacheKey t); [done|].
    by destruct fetch as [e|[] products].
  - intros evs. apply run_derived.
  - intros evs t fetch l Hl.
    by apply getBazaarData_Returned in Hl; [|apply run_derived].
Qed.

Lemma cache_entries_per_tax_rate_witness :
  let c := Server.run [Server.Request (Some (Fin 1.25)) (Server.Response true [Sample.rune])] in
  (Server.getBazaarData (Some (Fin 1.125)) (Server.Response true [Sample.coal]) c).2
    !! Server.cacheKey (Fin 1.25)
  = c !! Server.cacheKey (Fin 1.25).
Proof.
  apply (proj1 (proj2 (proj2 cache_entries_per_tax_rate))). by intros [=].
Defined.

(** ** Claims about the client *)

Module ClientFacts.
Import Client.

Lemma orZero_Some q : orZero (Some q) == q.
Proof.
  simpl. destruct (Qeq_bool q 0) eqn:E; [|reflexivity].
  apply Qeq_bool_iff in E. by rewrite E.
Qed.

(** What the client recomputes at tax rate 0 from a card of the live-API
    backend: the low reference price minus the high one. *)
Lemma recompute_received_tax_0 taxRate p c highPrice lowPrice :
  Server.flipCard taxRate p = Some c ->
  Server.buyPriceOf p = Fin highPrice ->
  Server.sellPriceOf p = Fin lowPrice ->
  exists m, margin (recompute 0 (received c)) = Some m /\ m == lowPrice - highPrice.
Proof.
  intros Hc Hh Hl. apply ServerFacts.flipCard_Some in Hc.
  destruct Hc as (_ & _ & _ & _ & Hbuy & Hsell & _).
  eexists. split; [done|].
  cbn [received buy sell]. rewrite Hbuy, Hsell, Hh, Hl. cbn [jsonNumber].
  rewrite !orZero_Some. field.
Qed.

Lemma strictEq_euclid a b v :
  strictEq a v = true -> strictEq b v = true -> strictEq a b = true.
Proof.
  destruct a as [| |x|s], b as [| |y|t], v as [| |z|u]; try done; simpl.
  - destruct x as [| |x|], y as [| |y|], z as [| |z|]; try done; simpl.
    rewrite !Qeq_bool_iff. intros -> ->. reflexivity.
  - rewrite !String.eqb_eq. congruence.
Qed.

Lemma strictEq_sym a b : strictEq a b = strictEq b a.
Proof.
  destruct a as [| |x|s], b as [| |y|t]; try done; simpl.
  - destruct x as [| |x|], y as [| |y|]; try done; simpl.
    destruct (Qeq_bool x y) eqn:E, (Qeq_bool y x) eqn:E'; try done.
    + apply Qeq_bool_iff in E. apply Qeq_bool_neq in E'. by destruct E'.
    + apply Qeq_bool_iff in E'. apply Qeq_bool_neq in E. by destruct E.
  - apply String.eqb_sym.
Qed.

Section Sorted.
Context `{Runtime}.

Lemma compareBy_equal_keys sortBy sortDir v x y :
  strictEq (keyOf sortBy x) v = true -> strictEq (keyOf sortBy y) v = true ->
  (compareBy sortBy sortDir x y >? Fin 0)%J = false.
Proof.
  intros Hx Hy. unfold compareBy.
  by rewrite (strictEq_euclid _ _ _ Hx Hy).
Qed.

(** The key of a numeric field is a finite number or [-Infinity]. *)
Lemma keyOf_numeric sortBy a :
  sortBy <> by_title ->
  (isNull sortBy a = true /\ keyOf sortBy a = VNum NInf) \/
  (isNull sortBy a = false /\ exists q, keyOf sortBy a = VNum (Fin q)).
Proof.
  intros Hf. unfold keyOf, isNull.
  destruct sortBy; try done; simpl;
    match goal with |- context [ofNumber ?v] => destruct v end; simpl; eauto.
Qed.

Lemma keyOf_not_NaN sortBy a : sortBy <> by_title -> toNumber (keyOf sortBy a) <> NaN.
Proof.
  intros Hf. by destruct (keyOf_numeric sortBy a Hf) as [[_ ->]|[_ [q ->]]].
Qed.

Lemma compareBy_gtb sortBy sortDir x y :
  sortBy <> by_title ->
  (compareBy sortBy sortDir x y >? Fin 0)%J
  = match sortDir with
    | asc => (toNumber (keyOf sortBy y) <? toNumber (keyOf sortBy x))%J
    | desc => (toNumber (keyOf sortBy x) <? toNumber (keyOf sortBy y))%J
    end.
Proof.
  intros Hf. unfold compareBy.
  pose proof (keyOf_not_NaN sortBy x Hf) as Hx.
  pose proof (keyOf_not_NaN sortBy y Hf) as Hy.
  destruct (strictEq _ _) eqn:E.
  - destruct (keyOf_numeric sortBy x Hf) as [[_ Ex]|[_ [q Ex]]],
             (keyOf_numeric sortBy y Hf) as [[_ Ey]|[_ [r Ey]]];
      rewrite Ex, Ey in *; simpl in E; try done; [by destruct sortDir|].
    apply Qeq_bool_iff in E.
    destruct sortDir; symmetry; apply JsNumFacts.ltb_Fin_false; rewrite E; apply Qle_refl.
  - destruct sortDir; by apply JsNumFacts.sub_gtb_0.
Qed.

Lemma sorted_inOrder sortBy sortDir filtered :
  sortBy <> by_title ->
  StronglySorted (inOrder sortBy sortDir) (sorted sortBy sortDir filtered).
Proof.
  intros Hf. unfold sorted.
  apply JsArrayFacts.sort_sorted with (Q := fun _ => True).
  - intros x y z _ _ _. unfold inOrder. destruct sortDir; intros; eapply JsNumFacts.le_trans; eauto.
  - intros x y _ _. rewrite compareBy_gtb by done. unfold inOrder.
    destruct sortDir; apply JsNumFacts.ltb_false_le; by apply keyOf_not_NaN.
  - intros x y _ _. rewrite compareBy_gtb by done. unfold inOrder.
    destruct sortDir; apply JsNumFacts.ltb_true_le.
  - by apply Forall_forall.
Qed.

(** Sorting by title leaves the list as it is when no title reads as a
    number: the difference of two such titles is [NaN]. *)
Lemma sorted_by_title sortDir filtered :
  Forall (fun a => StringToNumber (title a) = NaN) filtered ->
  sorted by_title sortDir filtered = filtered.
Proof.
  intros Ht. apply JsArrayFacts.sort_id. intros x y Hx Hy.
  rewrite Forall_forall in Ht. unfold compareBy. simpl.
  destruct (String.eqb _ _); [done|].
  rewrite (Ht x Hx), (Ht y Hy). by destruct sortDir.
Qed.
(** A record with a value is never at or below one without. *)
Lemma null_strictly_lowest sortBy a b :
  sortBy <> by_title ->
  isNull sortBy a = true -> isNull sortBy b = false ->
  ~ JsNum.le (toNumber (keyOf sortBy b)) (toNumber (keyOf sortBy a)).
Proof.
  intros Hf Ha Hb.
  destruct (keyOf_numeric sortBy a Hf) as [[_ ->]|[? _]]; [|congruence].
  destruct (keyOf_numeric sortBy b Hf) as [[? _]|[_ [q ->]]]; [congruence|].
  by unfold JsNum.le.
Qed.

(** Any stable arrangement of the records in the order asked for is the
    one the model of [sort] gives. *)
Lemma sorted_unique sortBy sortDir filtered l' :
  sortBy <> by_title ->
  l' ≡ₚ filtered -> StronglySorted (inOrder sortBy sortDir) l' ->
  (forall x, List.filter (fun a => strictEq (keyOf sortBy x) (keyOf sortBy a)) l'
             = List.filter (fun a => strictEq (keyOf sortBy x) (keyOf sortBy a)) filtered) ->
  l' = sorted sortBy sortDir filtered.
Proof.
  intros Hf Hp Hs Hst.
  apply (JsArrayFacts.sort_unique _ (inOrder sortBy sortDir) (fun _ => True)
           (fun x a => strictEq (keyOf sortBy x) (keyOf sortBy a))); try done.
  - intros x _. unfold inOrder.
    destruct sortDir; apply JsNumFacts.le_refl; by apply keyOf_not_NaN.
  - intros x y z _ _ _. unfold inOrder.
    destruct sortDir; intros; eapply JsNumFacts.le_trans; eauto.
  - intros x y _ _. rewrite compareBy_gtb by done. unfold inOrder.
    destruct sortDir; apply JsNumFacts.ltb_false_le; by apply keyOf_not_NaN.
  - intros x y _ _. rewrite compareBy_gtb by done. unfold inOrder.
    destruct sortDir; intros Hlt;
      (split; [by apply JsNumFacts.ltb_true_le|by apply JsNumFacts.ltb_not_le]).
  - intros x y _ _. unfold inOrder.
    destruct (keyOf_numeric sortBy x Hf) as [[_ ->]|[_ [q ->]]],
             (keyOf_numeric sortBy y Hf) as [[_ ->]|[_ [r ->]]];
      change (strictEq (VNum ?a) (VNum ?b)) with (a === b)%J;
      cbn [toNumber]; rewrite JsNumFacts.eqb_le; destruct sortDir; tauto.
  - by apply Forall_true.
Qed.
End Sorted.

Lemma filter_none {A} (P : A -> bool) l :
  Forall (fun b => P b = false) l ->
  List.filter P l = [] /\ List.filter (fun a => negb (P a)) l = l.
Proof.
  induction 1 as [|b l Hb _ [IH1 IH2]]; [done|].
  simpl. rewrite Hb. simpl. by rewrite IH1, IH2.
Qed.

(** A list sorted by an order in which no element outside [P] is below one
    inside [P] starts with its [P] elements. *)
Lemma StronglySorted_partition {A} (R : A -> A -> Prop) (P : A -> bool) l :
  (forall a b, P a = false -> P b = true -> ~ R a b) ->
  StronglySorted R l ->
  l = List.filter P l ++ List.filter (fun a => negb (P a)) l.
Proof.
  intros HR Hs. induction Hs as [|x l Hs IH Hx]; [done|].
  simpl. destruct (P x) eqn:Px; simpl; [by rewrite <- IH|].
  destruct (filter_none P l) as [-> ->]; [|done].
  eapply Forall_impl; [exact Hx|]. intros b Hb. simpl in Hb.
  destruct (P b) eqn:Pb; [|done]. by destruct (HR x b).
Qed.

End ClientFacts.

(** X23. For the numeric sort fields, every list and both directions, the
    client sort rearranges the list, keeps records whose keys are equal in
    their input order, and puts the list in the order the direction asks
    for, a record whose field is [null] or missing counting as
    [-Infinity]: ascending, these records come first, descending, last, and
    among themselves in their input order.  The comparator is consistent on
    these fields, so the result is the only arrangement with these
    properties, whatever stable sort the engine runs. *)
Theorem numeric_sort_stable_null_lowest `{Runtime}
    (sortBy : Client.sortField) (sortDir : Client.sortDirection)
    (filtered : list Client.item) :
  sortBy <> Client.by_title ->
  let out := Client.sorted sortBy sortDir filtered in
  out ≡ₚ filtered /\
  (forall v,
     List.filter (fun a => Client.strictEq (Client.keyOf sortBy a) v) out
     = List.filter (fun a => Client.strictEq (Client.keyOf sortBy a) v) filtered) /\
  StronglySorted (Client.inOrder sortBy sortDir) out /\
  (forall a, Client.isNull sortBy a = true ->
             Client.toNumber (Client.keyOf sortBy a) = NInf) /\
  out = match sortDir with
        | Client.asc =>
            List.filter (Client.isNull sortBy) filtered
            ++ List.filter (fun a => negb (Client.isNull sortBy a)) out
        | Client.desc =>
            List.filter (fun a => negb (Client.isNull sortBy a)) out
            ++ List.filter (Client.isNull sortBy) filtered
        end /\
  (forall out',
     out' ≡ₚ filtered ->
     StronglySorted (Client.inOrder sortBy sortDir) out' ->
     (forall v,
        List.filter (fun a => Client.strictEq (Client.keyOf sortBy a) v) out'
        = List.filter (fun a => Client.strictEq (Client.keyOf sortBy a) v) filtered) ->
     out' = out).
Proof.
  intros Hf out. split; [apply JsArrayFacts.sort_perm|]. split.
  { intros v. apply JsArrayFacts.sort_filter.
    intros x y. apply ClientFacts.compareBy_equal_keys. }
  pose proof (ClientFacts.sorted_inOrder sortBy sortDir filtered Hf) as Hs.
  fold out in Hs. split; [done|]. split.
  { intros a Ha. by destruct (ClientFacts.keyOf_numeric sortBy a Hf) as [[_ ->]|[? _]]; [|congruence]. }
  split.
  - assert (List.filter (Client.isNull sortBy) out
            = List.filter (Client.isNull sortBy) filtered) as Hnull.
    { apply JsArrayFacts.sort_filter. intros x y Hx Hy.
      apply (ClientFacts.compareBy_equal_keys _ _ (VNum NInf)).
      - by destruct (ClientFacts.keyOf_numeric sortBy x Hf) as [[_ ->]|[? _]]; [|congruence].
      - by destruct (ClientFacts.keyOf_numeric sortBy y Hf) as [[_ ->]|[? _]]; [|congruence]. }
    rewrite <- Hnull. destruct sortDir.
    + apply (ClientFacts.StronglySorted_partition (Client.inOrder sortBy Client.asc)); [|done].
      intros a b Ha Hb. by apply ClientFacts.null_strictly_lowest.
    + rewrite (ClientFacts.StronglySorted_partition (Client.inOrder sortBy Client.desc)
                 (fun a => negb (Client.isNull sortBy a)) out) at 1; [|
        intros a b Ha%negb_false_iff Hb%negb_true_iff;
        by apply ClientFacts.null_strictly_lowest | done].
      f_equal. apply List.filter_ext. intros a. apply negb_involutive.
  - intros out' Hp Hs' Hst. apply ClientFacts.sorted_unique; try done.
    intros x.
    assert (forall l : list Client.item,
              List.filter (fun a => Client.strictEq (Client.keyOf sortBy x)
                                                    (Client.keyOf sortBy a)) l
              = List.filter (fun a => Client.strictEq (Client.keyOf sortBy a)
                                                      (Client.keyOf sortBy x)) l) as Hsym.
    { intros l. apply List.filter_ext. intros a. apply ClientFacts.strictEq_sym. }
    rewrite !Hsym. apply Hst.
Qed.

Lemma numeric_sort_stable_null_lowest_witness :
  StronglySorted (Client.inOrder Client.by_buy Client.asc)
                 (Client.sorted Client.by_buy Client.asc Sample.records) /\
  Client.sorted Client.by_buy Client.asc Sample.records
  = List.filter (Client.isNull Client.by_buy) Sample.records
    ++ List.filter (fun a => negb (Client.isNull Client.by_buy a))
         (Client.sorted Client.by_buy Client.asc Sample.records).
Proof.
  destruct (numeric_sort_stable_null_lowest Client.by_buy Client.asc Sample.records)
    as (_ & _ & Hs & _ & Hout & _); [discriminate|]. by split.
Defined.

(** C7 (what the code does). The comparator of the [sorted] memo subtracts
    the keys, whatever the sort field.  With [title], which the sort select
    offers, the keys are strings: the difference of two different titles is
    [NaN], which the sort takes for a tie, as soon as one of them does not
    read as a number, and it is the difference of the numbers when both do.
    So the record titled 9 ties with the one titled x, and x ties with 5,
    but 9 goes behind 5: the comparator is not a consistent comparison
    function, the language leaves the order of the result to the engine,
    and nothing keeps records of equal title in their input order. *)
Theorem title_comparator_is_not_consistent :
  (forall (R : Runtime) sortDir a b,
     Client.title a <> Client.title b ->
     StringToNumber (Client.title a) = NaN \/ StringToNumber (Client.title b) = NaN ->
     Client.compareBy Client.by_title sortDir a b = NaN) /\
  (forall (R : Runtime) a b x y,
     StringToNumber (Client.title a) = Fin x -> StringToNumber (Client.title b) = Fin y ->
     ~ x == y ->
     JsNum.same (Client.compareBy Client.by_title Client.asc a b) (Fin (x - y))) /\
  Shelf.titled "r3" "9" ∈ Shelf.mixed /\
  Shelf.titled "r1" "x" ∈ Shelf.mixed /\
  Shelf.titled "r5" "5" ∈ Shelf.mixed /\
  Client.compareBy Client.by_title Client.asc (Shelf.titled "r3" "9") (Shelf.titled "r1" "x")
    = NaN /\
  Client.compareBy Client.by_title Client.asc (Shelf.titled "r1" "x") (Shelf.titled "r5" "5")
    = NaN /\
  (Client.compareBy Client.by_title Client.asc (Shelf.titled "r3" "9") (Shelf.titled "r5" "5")
     >? Fin 0)%J = true.
Proof.
  split; [|split].
  - intros R sortDir a b Hne Hnan. unfold Client.compareBy. simpl.
    destruct (String.eqb_spec (Client.title a) (Client.title b)); [done|].
    destruct Hnan as [-> | ->], sortDir; simpl; try done;
      by destruct (StringToNumber _).
  - intros R a b x y Hx Hy Hne. unfold Client.compareBy. simpl.
    destruct (String.eqb_spec (Client.title a) (Client.title b)) as [E|_].
    + rewrite E in Hx. rewrite Hx in Hy. injection Hy as ->. by destruct Hne.
    + rewrite Hx, Hy. simpl. reflexivity.
  - repeat split; try (vm_compute; reflexivity).
    + do 2 right. left.
    + left.
    + do 4 right. left.
Qed.

(** The sample records by buy price, in both directions, and by title. *)
Example sorted_by_buy_asc :
  Client.title <$> Client.sorted Client.by_buy Client.asc Sample.records
  = ["b"; "d"; "c"; "a"; "e"].
Proof. reflexivity. Qed.

Example sorted_by_buy_desc :
  Client.title <$> Client.sorted Client.by_buy Client.desc Sample.records
  = ["a"; "e"; "c"; "b"; "d"].
Proof. reflexivity. Qed.

(** C4 (what the code does). The live-API backend stores the low reference
    price in [buy] and the high one in [sell], while the client reads [buy]
    as the high and [sell] as the low price.  For the quote of the worked
    example (high 100, low 90) the client's margin at tax rate 0 is
    therefore 90 - 100 and not 100 - 90. *)
Theorem client_margin_swaps_reference_prices :
  exists c m,
    Server.flipCard (Fin 1.25) Sample.rune = Some c /\
    Server.buyPriceOf Sample.rune = Fin 100 /\
    Server.sellPriceOf Sample.rune = Fin 90 /\
    Client.margin (Client.recompute 0 (Client.received c)) = Some m /\
    m == 90 - 100 /\
    ~ m == 100 - 90.
Proof.
  eexists _, _. split; [vm_compute; reflexivity|].
  split; [vm_compute; reflexivity|]. split; [vm_compute; reflexivity|].
  split; [vm_compute; reflexivity|]. split; [reflexivity|]. by intros [=].
Qed.

(** ** Strings and [parseFloat] *)

Module JsStringFacts.
Import JsString.
Local Open Scope string_scope.

Lemma app_cons c r s : String c r +:+ s = String c (r +:+ s).
Proof. reflexivity. Qed.

Lemma app_empty s : "" +:+ s = s.
Proof. reflexivity. Qed.

(** *** Characters *)

Lemma isWhiteSpace_lowerChar c : isWhiteSpace (lowerChar c) = isWhiteSpace c.
Proof. by destruct c as [[] [] [] [] [] [] [] []]. Qed.

Lemma lowerChar_idemp c : lowerChar (lowerChar c) = lowerChar c.
Proof. by destruct c as [[] [] [] [] [] [] [] []]. Qed.

Lemma lowerChar_comma c : Ascii.eqb (lowerChar c) "," = Ascii.eqb c ",".
Proof. by destruct c as [[] [] [] [] [] [] [] []]. Qed.

Lemma isWhiteSpace_comma c : Ascii.eqb c "," = true -> isWhiteSpace c = false.
Proof. by destruct c as [[] [] [] [] [] [] [] []]. Qed.

(** *** Trimming, lower-casing and removing commas *)

Lemma trimStart_lower s : trimStart (toLowerCase s) = toLowerCase (trimStart s).
Proof.
  induction s as [|c r IH]; [done|]. simpl.
  rewrite isWhiteSpace_lowerChar. by destruct (isWhiteSpace c).
Qed.

Lemma trimEnd_lower s : trimEnd (toLowerCase s) = toLowerCase (trimEnd s).
Proof.
  induction s as [|c r IH]; [done|]. simpl. rewrite IH.
  destruct (trimEnd r); simpl; [|done].
  rewrite isWhiteSpace_lowerChar. by destruct (isWhiteSpace c).
Qed.

Lemma trim_lower s : trim (toLowerCase s) = toLowerCase (trim s).
Proof. unfold trim. by rewrite trimStart_lower, trimEnd_lower. Qed.

Lemma toLowerCase_idemp s : toLowerCase (toLowerCase s) = toLowerCase s.
Proof. induction s as [|c r IH]; [done|]. simpl. by rewrite lowerChar_idemp, IH. Qed.

Lemma removeCommas_lower s :
  removeCommas (toLowerCase s) = toLowerCase (removeCommas s).
Proof.
  induction s as [|c r IH]; [done|]. simpl. rewrite lowerChar_comma.
  destruct (Ascii.eqb c ","); simpl; by rewrite IH.
Qed.

Lemma removeCommas_idemp s : removeCommas (removeCommas s) = removeCommas s.
Proof.
  induction s as [|c r IH]; [done|]. simpl.
  destruct (Ascii.eqb c ",") eqn:E; simpl; [done|]. by rewrite E, IH.
Qed.

Lemma occurs_cons c d r : occurs c (String d r) = Ascii.eqb c d || occurs c r.
Proof. reflexivity. Qed.

Lemma removeCommas_occurs s : occurs "," (removeCommas s) = false.
Proof.
  induction s as [|c r IH]; [done|]. cbn [removeCommas].
  destruct (Ascii.eqb c ",") eqn:E; [done|].
  by rewrite occurs_cons, IH, Ascii.eqb_sym, E.
Qed.

Lemma hasWhiteSpace_cons c r :
  hasWhiteSpace (String c r) = isWhiteSpace c || hasWhiteSpace r.
Proof. reflexivity. Qed.

Lemma trimStart_id s : hasWhiteSpace s = false -> trimStart s = s.
Proof.
  destruct s as [|c r]; [done|]. rewrite hasWhiteSpace_cons.
  intros [Hc _]%orb_false_iff. simpl. by rewrite Hc.
Qed.

Lemma trimEnd_id s : hasWhiteSpace s = false -> trimEnd s = s.
Proof.
  induction s as [|c r IH]; [done|]. rewrite hasWhiteSpace_cons.
  intros [Hc Hr]%orb_false_iff. simpl. rewrite (IH Hr), Hc. by destruct r.
Qed.

Lemma trim_id s : hasWhiteSpace s = false -> trim s = s.
Proof. intros Hs. unfold trim. by rewrite trimStart_id, trimEnd_id. Qed.

Lemma hasWhiteSpace_removeCommas s :
  hasWhiteSpace s = false -> hasWhiteSpace (removeCommas s) = false.
Proof.
  induction s as [|c r IH]; [done|]. rewrite hasWhiteSpace_cons.
  intros [Hc Hr]%orb_false_iff. simpl.
  destruct (Ascii.eqb c ","); [auto|].
  rewrite hasWhiteSpace_cons, Hc. auto.
Qed.

Lemma toLowerCase_empty s : toLowerCase s = "" <-> s = "".
Proof. by destruct s. Qed.

(** *** A suffix letter does not change what [parseFloat] reads *)

Section Suffix.
Variable ch : ascii.
Hypothesis suffix_letter : ch = "k"%char \/ ch = "m"%char \/ ch = "b"%char.

Local Ltac letters := destruct suffix_letter as [->|[->| ->]].

Lemma sliceLast_snoc s : sliceLast (s +:+ String ch "") = String ch "".
Proof using Type.
  induction s as [|c r IH]; [done|].
  rewrite app_cons. simpl. rewrite IH. by destruct r.
Qed.

Lemma trimStart_snoc s :
  trimStart (s +:+ String ch "") = trimStart s +:+ String ch "".
Proof using suffix_letter.
  induction s as [|c r IH].
  - letters; reflexivity.
  - rewrite app_cons. simpl. destruct (isWhiteSpace c); [done|]. by rewrite app_cons.
Qed.

Lemma scanSign_snoc s :
  scanSign (s +:+ String ch "") = ((scanSign s).1, (scanSign s).2 +:+ String ch "").
Proof using suffix_letter.
  destruct s as [|c r].
  - letters; reflexivity.
  - rewrite app_cons. by destruct c as [[] [] [] [] [] [] [] []].
Qed.

Lemma prefix_snoc p s :
  occurs ch p = false -> String.prefix p (s +:+ String ch "") = String.prefix p s.
Proof using Type.
  revert s. induction p as [|c p IH]; intros s Hp; [by destruct s|].
  simpl in Hp. apply orb_false_iff in Hp as [Hc Hp].
  destruct s as [|d r].
  - rewrite app_empty. simpl. destruct (ascii_dec c ch) as [->|]; [|done].
    by rewrite Ascii.eqb_refl in Hc.
  - rewrite app_cons. simpl. destruct (ascii_dec c d); [|done]. by apply IH.
Qed.

Lemma scanDigits_snoc s :
  scanDigits (s +:+ String ch "")
  = ((scanDigits s).1, (scanDigits s).2 +:+ String ch "").
Proof using suffix_letter.
  induction s as [|c r IH].
  - letters; reflexivity.
  - rewrite app_cons. simpl. destruct (isDigit c); [|done].
    rewrite IH. by destruct (scanDigits r).
Qed.

Lemma scanFraction_snoc s :
  scanFraction (s +:+ String ch "")
  = ((scanFraction s).1, (scanFraction s).2 +:+ String ch "").
Proof using suffix_letter.
  destruct s as [|c r].
  - letters; reflexivity.
  - rewrite app_cons.
    destruct c as [[] [] [] [] [] [] [] []]; try reflexivity.
    apply scanDigits_snoc.
Qed.

Lemma scanExponent_snoc s :
  (scanExponent (s +:+ String ch "")).1 = (scanExponent s).1.
Proof using suffix_letter.
  destruct s as [|c r].
  - letters; reflexivity.
  - rewrite app_cons. unfold scanExponent.
    destruct (Ascii.eqb c "e" || Ascii.eqb c "E"); [|done].
    rewrite scanSign_snoc. destruct (scanSign r) as [sg r1]. simpl.
    rewrite scanDigits_snoc. destruct (scanDigits r1) as [[|d ds] rest]; done.
Qed.

Lemma scanDecimal_snoc s :
  fst <$> scanDecimal (s +:+ String ch "") = fst <$> scanDecimal s.
Proof using suffix_letter.
  unfold scanDecimal. rewrite scanSign_snoc.
  destruct (scanSign s) as [sg s1]. simpl.
  rewrite prefix_snoc by (letters; reflexivity).
  destruct (String.prefix "Infinity" s1); [done|].
  rewrite scanDigits_snoc. destruct (scanDigits s1) as [ip s2]. simpl.
  rewrite scanFraction_snoc. destruct (scanFraction s2) as [fp s3]. simpl.
  destruct (ip ++ fp)%list as [|d ds]; [done|].
  pose proof (scanExponent_snoc s3) as He.
  destruct (scanExponent (s3 +:+ String ch "")) as [e' s4'],
           (scanExponent s3) as [e s4]. simpl in *. by subst.
Qed.

Lemma parseFloat_snoc s : parseFloat (s +:+ String ch "") = parseFloat s.
Proof using suffix_letter.
  unfold parseFloat. rewrite trimStart_snoc.
  pose proof (scanDecimal_snoc (trimStart s)) as Hs.
  destruct (scanDecimal (trimStart s +:+ String ch "")) as [[n r]|],
           (scanDecimal (trimStart s)) as [[n' r']|]; simpl in Hs; congruence.
Qed.

End Suffix.

End JsStringFacts.

(** ** Claims about [parseNum] *)

Section ParseNumFacts.
Context `{Runtime}.
Local Open Scope string_scope.

Lemma parseNum_cleaned s s' :
  (s = "" <-> s' = "") -> cleaned s = cleaned s' ->
  parseNum (VStr s) = parseNum (VStr s').
Proof.
  intros Hempty Hclean. unfold parseNum. simpl. rewrite Hclean.
  destruct (String.eqb_spec s ""), (String.eqb_spec s' ""); tauto.
Qed.

Lemma snoc_not_dash body ch :
  ch <> "-"%char -> String.eqb (body +:+ String ch "") "-" = false.
Proof.
  intros Hch. apply String.eqb_neq.
  destruct body as [|c [|d r]];
    rewrite ?JsStringFacts.app_cons, ?JsStringFacts.app_empty; congruence.
Qed.

Lemma parseNum_suffix s body ch factor :
  (ch = "k"%char /\ factor = 1000) \/
  (ch = "m"%char /\ factor = 1000000) \/
  (ch = "b"%char /\ factor = 1000000000) ->
  s <> "" -> cleaned s = body +:+ String ch "" ->
  parseNum (VStr s) = Some (JsString.parseFloat body * Fin factor)%J.
Proof.
  intros Hch Hs Hclean. unfold parseNum. simpl.
  destruct (String.eqb_spec s ""); [done|]. rewrite Hclean.
  rewrite snoc_not_dash by (by destruct Hch as [[-> _]|[[-> _]|[-> _]]]).
  rewrite JsStringFacts.sliceLast_snoc.
  rewrite JsStringFacts.parseFloat_snoc by tauto.
  by destruct Hch as [[-> ->]|[[-> ->]|[-> ->]]].
Qed.

Lemma parseNum_plain s :
  s <> "" -> cleaned s <> "-" ->
  JsString.sliceLast (cleaned s) <> "k" ->
  JsString.sliceLast (cleaned s) <> "m" ->
  JsString.sliceLast (cleaned s) <> "b" ->
  parseNum (VStr s)
  = if JsNum.isNaN (JsString.parseFloat (cleaned s)) then None
    else Some (JsString.parseFloat (cleaned s)).
Proof.
  intros Hs Hdash Hk Hm Hb. unfold parseNum. simpl.
  destruct (String.eqb_spec s ""); [done|].
  destruct (String.eqb_spec (cleaned s) "-"); [done|].
  destruct (String.eqb_spec (JsString.sliceLast (cleaned s)) "k"); [done|].
  destruct (String.eqb_spec (JsString.sliceLast (cleaned s)) "m"); [done|].
  by destruct (String.eqb_spec (JsString.sliceLast (cleaned s)) "b").
Qed.

Lemma parseNum_lower s : parseNum (VStr (JsString.toLowerCase s)) = parseNum (VStr s).
Proof.
  apply parseNum_cleaned; [apply JsStringFacts.toLowerCase_empty|].
  unfold cleaned.
  by rewrite JsStringFacts.trim_lower, JsStringFacts.toLowerCase_idemp.
Qed.

Lemma parseNum_removeCommas s :
  JsString.hasWhiteSpace s = false ->
  parseNum (VStr (JsString.removeCommas s)) = parseNum (VStr s).
Proof.
  intros Hs.
  assert (cleaned (JsString.removeCommas s) = cleaned s) as Hclean.
  { unfold cleaned.
    rewrite !JsStringFacts.trim_id by auto using JsStringFacts.hasWhiteSpace_removeCommas.
    by rewrite !JsStringFacts.removeCommas_lower, JsStringFacts.removeCommas_idemp. }
  destruct (String.eqb_spec (JsString.removeCommas s) "") as [He|Hne].
  - rewrite He. destruct (String.eqb_spec s "") as [->|Hs']; [done|].
    unfold parseNum at 2. simpl. destruct (String.eqb_spec s ""); [done|].
    rewrite <- Hclean, He. reflexivity.
  - apply parseNum_cleaned; [|done]. split; [done|]. by intros ->.
Qed.

End ParseNumFacts.

(** C6, amended. [parseNum] works on its input trimmed, lower-cased and
    with every comma removed, so upper and lower case give the same result
    and, on input without white space, so do the input and the input without
    its commas.  It returns [null] for an empty input and for a bare dash.
    When the cleaned text ends in [k], [m] or [b] and the text before the
    letter starts with a decimal literal, the result is the value of the
    literal times 1e3, 1e6 or 1e9.  When it ends in none of the three, the
    result is the value of the decimal literal the text starts with, what
    follows the literal being ignored, and [null] exactly when the text does
    not start with one. *)
Theorem parseNum_of_text `{Runtime} (s : string) :
  JsString.occurs "," (cleaned s) = false /\
  parseNum (VStr (JsString.toLowerCase s)) = parseNum (VStr s) /\
  (JsString.hasWhiteSpace s = false ->
     parseNum (VStr (JsString.removeCommas s)) = parseNum (VStr s)) /\
  (s = "" \/ cleaned s = "-" -> parseNum (VStr s) = None) /\
  (forall body q,
     s <> "" -> JsString.parseFloat body = Fin q ->
     (cleaned s = body +:+ "k" -> parseNum (VStr s) = Some (Fin (q * 1000))) /\
     (cleaned s = body +:+ "m" -> parseNum (VStr s) = Some (Fin (q * 1000000))) /\
     (cleaned s = body +:+ "b" -> parseNum (VStr s) = Some (Fin (q * 1000000000)))) /\
  (s <> "" -> cleaned s <> "-" ->
   JsString.sliceLast (cleaned s) <> "k" ->
   JsString.sliceLast (cleaned s) <> "m" ->
   JsString.sliceLast (cleaned s) <> "b" ->
   (parseNum (VStr s) = None <-> JsString.parseFloat (cleaned s) = NaN) /\
   (forall n, JsString.parseFloat (cleaned s) = n -> n <> NaN ->
              parseNum (VStr s) = Some n)).
Proof.
  split; [apply JsStringFacts.removeCommas_occurs|].
  split; [apply parseNum_lower|]. split; [apply parseNum_removeCommas|].
  split; [|split].
  - intros [->|Hdash]; [done|]. unfold parseNum. simpl.
    destruct (String.eqb s ""); [done|]. by rewrite Hdash.
  - intros body q Hs Hq.
    split; [|split]; intros Hclean.
    + rewrite (parseNum_suffix s body "k" 1000) by auto. by rewrite Hq.
    + rewrite (parseNum_suffix s body "m" 1000000) by auto. by rewrite Hq.
    + rewrite (parseNum_suffix s body "b" 1000000000) by auto 6. by rewrite Hq.
  - intros Hs Hdash Hk Hm Hb. rewrite parseNum_plain by done.
    split.
    + by destruct (JsString.parseFloat (cleaned s)).
    + intros n -> Hn. by destruct n.
Qed.

Lemma parseNum_of_text_witness :
  parseNum (VStr "1,234.5K") = Some (Fin (1234.5 * 1000)) /\
  parseNum (VStr "-") = None.
Proof.
  destruct (parseNum_of_text "1,234.5K") as (_ & _ & _ & _ & Hsuffix & _).
  destruct (parseNum_of_text "-") as (_ & _ & _ & Hdash & _).
  split.
  - apply (Hsuffix "1234.5" 1234.5); [discriminate|reflexivity|reflexivity].
  - apply Hdash. right. reflexivity.
Defined.

Example parseNum_examples :
  parseNum (VStr " -12,000 ") = Some (Fin (-12000)) /\
  parseNum (VStr "3B") = Some (Fin 3000000000) /\
  parseNum (VStr "1e3") = Some (Fin 1000) /\
  parseNum (VStr "12abc") = Some (Fin 12) /\
  parseNum (VStr "abc") = None /\
  parseNum (VStr ",") = None.
Proof. by repeat split. Qed.

(** Not every text that is not a number gives [null]: [1.2.3] is none,
    yet [parseNum] returns 1.2, the value of the literal it starts with. *)
Lemma parseNum_reads_leading_literal :
  JsString.isNumeric (cleaned "1.2.3") = false /\
  parseNum (VStr "1.2.3") = Some (Fin 1.2) /\
  ~ (forall s, JsString.isNumeric (cleaned s) = false -> parseNum (VStr s) = None).
Proof.
  split; [reflexivity|]. split; [reflexivity|].
  intros Hclaim. by specialize (Hclaim "1.2.3" eq_refl).
Qed.

(** A suffix letter with no number before it gives [NaN], not [null]; the
    check for [NaN] is made on the path without suffix only. *)
Lemma parseNum_suffix_without_number :
  parseNum (VStr "k") = Some NaN /\ parseNum (VStr "-m") = Some NaN.
Proof. split; reflexivity. Qed.

(** C10. [parseNum] returns [null] for every falsy input: the number 0
    (and [NaN]), the empty string, [null] and [undefined].  A zero given as
    the number 0 is thereby lost, while the text [0] is read as zero. *)
Theorem parseNum_falsy_is_null `{Runtime} :
  (forall v, falsy v = true -> parseNum v = None) /\
  (forall q, q == 0 -> parseNum (VNum (Fin q)) = None) /\
  parseNum (VNum (Fin 0)) = None /\
  parseNum (VNum NaN) = None /\
  parseNum (VStr "") = None /\
  parseNum VNull = None /\
  parseNum VUndefined = None /\
  parseNum (VStr "0") = Some (Fin 0).
Proof.
  split; [by intros v Hv; unfold parseNum; rewrite Hv|].
  split; [|by repeat split].
  intros q Hq. unfold parseNum. simpl.
  apply Qeq_bool_iff in Hq. by rewrite Hq.
Qed.

(** * Further properties

    ** The derivation engine *)

Module MeanPriceFacts.
Import Server.

(** ** [getMeanPrice] as the callback calls it, with [count = 1] *)

Lemma getMeanPrice_1_rest o rest rest' :
  getMeanPrice (o :: rest) 1 = getMeanPrice (o :: rest') 1.
Proof.
  unfold getMeanPrice.
  replace (Nat.min (length (o :: rest)) 1) with 1%nat by (simpl; lia).
  by replace (Nat.min (length (o :: rest')) 1) with 1%nat by (simpl; lia).
Qed.

Lemma getMeanPrice_1_head summary summary' :
  head summary = head summary' -> getMeanPrice summary 1 = getMeanPrice summary' 1.
Proof.
  destruct summary as [|o rest], summary' as [|o' rest']; try done.
  intros [= ->]. apply getMeanPrice_1_rest.
Qed.

(** X1. Only the first order of each book counts: a reference price is
    the price of the first order of its book, and 0 for an empty book, so
    that two products with the same id and quick status whose books start
    with the same orders have the same reference prices and give the same
    card, or none, whatever the books hold deeper down. *)
Theorem only_the_first_order_counts (taxRate : num) (p p' : product) :
  product_id p = product_id p' ->
  quick_status p = quick_status p' ->
  head (buy_summary p) = head (buy_summary p') ->
  head (sell_summary p) = head (sell_summary p') ->
  buyPriceOf p = buyPriceOf p' /\
  sellPriceOf p = sellPriceOf p' /\
  flipCard taxRate p = flipCard taxRate p' /\
  match head (buy_summary p) with
  | Some o => JsNum.same (buyPriceOf p) (pricePerUnit o)
  | None => buyPriceOf p = Fin 0
  end /\
  match head (sell_summary p) with
  | Some o => JsNum.same (sellPriceOf p) (pricePerUnit o)
  | None => sellPriceOf p = Fin 0
  end.
Proof.
  intros Hid Hq Hb Hs.
  assert (buyPriceOf p = buyPriceOf p') as Eb by (by apply getMeanPrice_1_head).
  assert (sellPriceOf p = sellPriceOf p') as Es by (by apply getMeanPrice_1_head).
  split; [done|]. split; [done|]. split; [|split].
  - unfold flipCard, coinsPerHourOf, marginOf, instabuyHourlyOf, instasellHourlyOf.
    by rewrite Eb, Es, Hid, Hq.
  - unfold buyPriceOf. destruct (buy_summary p) as [|o rest]; [done|].
    apply ServerFacts.getMeanPrice_top.
  - unfold sellPriceOf. destruct (sell_summary p) as [|o rest]; [done|].
    apply ServerFacts.getMeanPrice_top.
Qed.

Lemma only_the_first_order_counts_witness :
  flipCard (Fin 1.25) Sample.coal
  = flipCard (Fin 1.25) (Sample.quote "COAL" [40] [10] 16800 33600) /\
  JsNum.same (buyPriceOf Sample.coal) (Fin 40) /\
  JsNum.same (sellPriceOf Sample.coal) (Fin 10).
Proof.
  destruct (only_the_first_order_counts (Fin 1.25) Sample.coal
              (Sample.quote "COAL" [40] [10] 16800 33600))
    as (_ & _ & Hcard & Hb & Hs); [reflexivity..|].
  split; [exact Hcard|]. split; [exact Hb|exact Hs].
Defined.

End MeanPriceFacts.

(** ** What a served card is *)

Module CardFacts.
Import Server EngineSpec.

Lemma gtb_Fin_or_PInf a c :
  (a >? Fin c)%J = true -> a = PInf \/ exists x, a = Fin x /\ c < x.
Proof.
  destruct a as [| |x|]; try done; [|by left].
  rewrite JsNumFacts.gtb_Fin. eauto.
Qed.

Lemma elem_of_topCards taxRate products c :
  c ∈ topCards taxRate products -> c ∈ qualifying taxRate products.
Proof.
  unfold topCards, JsArray.slice0, qualifying. intros Hc.
  apply (subseteq_take 100) in Hc. by rewrite JsArrayFacts.sort_perm in Hc.
Qed.

Lemma underscoresToSpaces_occurs s :
  JsString.occurs "_" (JsString.underscoresToSpaces s) = false.
Proof.
  induction s as [|ch r IH]; [done|]. cbn [JsString.underscoresToSpaces].
  rewrite JsStringFacts.occurs_cons, IH, orb_false_r.
  destruct (Ascii.eqb ch "_") eqn:E; [done|]. by rewrite Ascii.eqb_sym.
Qed.

End CardFacts.

Module ServedCard.
Import Server EngineSpec.

(** X2. A served card is the card of a product of the snapshot: it carries
    the product's id, a title without underscores, and metrics that
    passed the tests of the callback, none of them [NaN]. *)
Theorem served_card_is_backed (taxRate : num) (products : list product) (c : card) :
  c ∈ topCards taxRate products ->
  (exists p, p ∈ products /\ flipCard taxRate p = Some c /\ id c = product_id p) /\
  JsString.occurs "_" (title c) = false /\
  (buy c >? Fin 0)%J = true /\ (sell c >? Fin 0)%J = true /\
  (margin c >? Fin 0)%J = true /\
  (instabuy c >? Fin 10)%J = true /\ (instasell c >? Fin 10)%J = true /\
  (coinsPerHour c >? Fin 0)%J = true.
Proof.
  intros Hc%CardFacts.elem_of_topCards.
  apply list_elem_of_omap in Hc as (p & Hp & Hc).
  pose proof (ServerFacts.flipCard_coinsPerHour _ _ _ Hc) as [Hcph _].
  pose proof (ServerFacts.flipCard_Some _ _ _ Hc)
    as (Hb & Hs & Hm & Hv & -> & -> & -> & -> & -> & _).
  apply ServerFacts.min_gtb in Hv as [Hib His].
  split; [exists p; split; [done|split; [done|]]|].
  - unfold flipCard in Hc. by repeat case_match; simplify_eq.
  - split; [|done].
    unfold flipCard in Hc. repeat case_match; simplify_eq. simpl.
    apply CardFacts.underscoresToSpaces_occurs.
Qed.

Lemma served_card_is_backed_witness :
  exists c,
    c ∈ topCards (Fin 1.25) [Sample.rune; Sample.unsold] /\
    (exists p, p ∈ [Sample.rune; Sample.unsold] /\
               flipCard (Fin 1.25) p = Some c /\ id c = product_id p) /\
    JsString.occurs "_" (title c) = false /\
    (buy c >? Fin 0)%J = true /\ (sell c >? Fin 0)%J = true /\
    (margin c >? Fin 0)%J = true /\
    (instabuy c >? Fin 10)%J = true /\ (instasell c >? Fin 10)%J = true /\
    (coinsPerHour c >? Fin 0)%J = true.
Proof.
  assert (exists c, c ∈ topCards (Fin 1.25) [Sample.rune; Sample.unsold]) as [c Hc].
  { eexists. vm_compute. left. }
  exists c. split; [exact Hc|].
  exact (served_card_is_backed (Fin 1.25) [Sample.rune; Sample.unsold] c Hc).
Defined.

End ServedCard.

Module TaxFacts.
Import Server EngineSpec.

Ltac div100 := change (?t / 100) with (t * (1 # 100)) in *.

Lemma taxMultiplier_Fin t : taxMultiplier (Fin t) = Fin (1 + - (t / 100)).
Proof. reflexivity. Qed.

(** What [flipCard] leaves of the prices of a card: the high price is a
    positive number or [+Infinity], the low price a positive number. *)
Lemma flipCard_prices t p c :
  flipCard (Fin t) p = Some c ->
  exists l, sellPriceOf p = Fin l /\ 0 < l /\
    ((buyPriceOf p = PInf /\ t < 100) \/
     exists h, buyPriceOf p = Fin h /\ 0 < h /\ l < h * (1 - t / 100)).
Proof.
  intros (Hb & Hs & Hm & _)%ServerFacts.flipCard_Some.
  unfold marginOf in Hm. rewrite taxMultiplier_Fin in Hm.
  apply CardFacts.gtb_Fin_or_PInf in Hb as [Eb|(h & Eb & Hh)],
        Hs as [Es|(l & Es & Hl)]; rewrite Eb, Es in *.
  - exfalso. revert Hm. unfold JsNum.mul. simpl.
    by destruct (JsNum.Qsign _).
  - exists l. split; [done|]. split; [done|]. left. split; [done|].
    revert Hm. unfold JsNum.mul. simpl. unfold JsNum.Qsign.
    destruct (_ ?= 0) eqn:E; try done. intros _.
    apply Qgt_alt in E. div100. lra.
  - done.
  - exists l. split; [done|]. split; [done|]. right. exists h.
    split; [done|]. split; [done|].
    change (Fin h * Fin (1 + - (t / 100)) - Fin l)%J
      with (Fin (h * (1 + - (t / 100)) + - l)) in Hm.
    apply JsNumFacts.gtb_Fin in Hm. div100. lra.
Qed.

(** X3. Under a tax rate that is not negative, every served card has its
    buy price, the low reference price, strictly below its sell price. *)
Theorem served_buy_below_sell (t : Q) (products : list product) (c : card) :
  0 <= t -> c ∈ topCards (Fin t) products -> (buy c <? sell c)%J = true.
Proof.
  intros Ht Hc%CardFacts.elem_of_topCards.
  apply list_elem_of_omap in Hc as (p & _ & Hc).
  pose proof (ServerFacts.flipCard_Some _ _ _ Hc)
    as (_ & _ & _ & _ & -> & -> & _).
  apply flipCard_prices in Hc as (l & -> & Hl & [[-> _]|(h & -> & Hh & Hlh)]); [done|].
  apply JsNumFacts.ltb_Fin. div100. nra.
Qed.

Lemma served_buy_below_sell_witness :
  exists c,
    c ∈ topCards (Fin 1.25) [Sample.rune; Sample.coal] /\ (buy c <? sell c)%J = true.
Proof.
  assert (exists c, c ∈ topCards (Fin 1.25) [Sample.rune; Sample.coal]) as [c Hc].
  { eexists. vm_compute. left. }
  exists c. split; [exact Hc|].
  apply (served_buy_below_sell 1.25 [Sample.rune; Sample.coal] c); [discriminate|exact Hc].
Defined.

(** Under a tax rate that is not below 100, or that is [NaN], no product
    has a card. *)
Lemma flipCard_full_tax (taxRate : num) (p : product) :
  (taxRate <? Fin 100)%J = false -> flipCard taxRate p = None.
Proof.
  intros Ht. destruct (flipCard taxRate p) as [c|] eqn:Hc; [|done]. exfalso.
  destruct taxRate as [| |t|]; try done.
  - apply ServerFacts.flipCard_Some in Hc as (_ & _ & Hm & _).
    unfold marginOf, taxMultiplier in Hm. simpl in Hm.
    by destruct (buyPriceOf p), (sellPriceOf p).
  - apply JsNumFacts.ltb_Fin_false in Ht.
    apply flipCard_prices in Hc as (l & _ & Hl & [[_ ?]|(h & _ & Hh & Hlh)]); [lra|div100; nra].
  - apply ServerFacts.flipCard_Some in Hc as (Hb & Hs & Hm & _).
    unfold marginOf, taxMultiplier in Hm. simpl in Hm.
    apply CardFacts.gtb_Fin_or_PInf in Hb as [Eb|(h & Eb & Hh)],
          Hs as [Es|(l & Es & Hl)]; rewrite Eb, Es in Hm; try done.
    + revert Hm. unfold JsNum.mul. simpl. unfold JsNum.Qsign.
      apply Qgt_alt in Hh. by rewrite Hh.
    + revert Hm. unfold JsNum.mul. simpl. unfold JsNum.Qsign.
      apply Qgt_alt in Hh. by rewrite Hh.
Qed.

Lemma topCards_none (taxRate : num) (products : list product) :
  (forall p, flipCard taxRate p = None) -> topCards taxRate products = [].
Proof.
  intros Hnone. unfold topCards.
  assert (omap (flipCard taxRate) products = []) as ->; [|done].
  induction products as [|p ps IH]; [done|]. simpl. by rewrite Hnone.
Qed.

(** X4. A tax rate that is not below 100, or that is [NaN], leaves no
    card at all. *)
Theorem no_card_at_full_tax (taxRate : num) (products : list product) :
  (taxRate <? Fin 100)%J = false -> topCards taxRate products = [].
Proof.
  intros Ht. apply topCards_none. intros p. by apply flipCard_full_tax.
Qed.

Lemma no_card_at_full_tax_witness :
  topCards (Fin 100) [Sample.rune; Sample.coal] = [].
Proof. apply no_card_at_full_tax. reflexivity. Defined.

(** X5. Lowering the tax rate never loses a card: a product with a card
    at the higher rate has one at the lower rate, with the same prices and
    rates and a margin that is not smaller. *)
Theorem lower_tax_keeps_cards (t1 t2 : Q) (p : product) (c2 : card) :
  t1 <= t2 -> flipCard (Fin t2) p = Some c2 ->
  exists c1,
    flipCard (Fin t1) p = Some c1 /\
    buy c1 = buy c2 /\ sell c1 = sell c2 /\
    instabuy c1 = instabuy c2 /\ instasell c1 = instasell c2 /\
    JsNum.le (margin c2) (margin c1) /\
    JsNum.le (coinsPerHour c2) (coinsPerHour c1).
Proof.
  intros Ht Hc2.
  pose proof (ServerFacts.flipCard_Some _ _ _ Hc2)
    as (Hb & Hs & Hm2 & Hv & Eb2 & Es2 & Eib2 & Eis2 & Em2 & Ec2).
  pose proof (flipCard_prices _ _ _ Hc2) as (l & El & Hl & Hhigh).
  assert ((marginOf (Fin t1) p >? Fin 0)%J = true /\
          JsNum.le (marginOf (Fin t2) p) (marginOf (Fin t1) p)) as [Hm1 Hle].
  { unfold marginOf. rewrite !taxMultiplier_Fin, El.
    destruct Hhigh as [[-> Ht2]|(h & -> & Hh & Hlh)].
    - assert (0 < 1 + - (t1 / 100)) as H1%Qgt_alt by (div100; lra).
      assert (0 < 1 + - (t2 / 100)) as H2%Qgt_alt by (div100; lra).
      unfold JsNum.mul. simpl. unfold JsNum.Qsign. by rewrite H1, H2.
    - change (Fin h * Fin ?m - Fin l)%J with (Fin (h * m + - l)).
      rewrite JsNumFacts.gtb_Fin. unfold JsNum.le. rewrite JsNumFacts.leb_Fin.
      div100. split; nra. }
  destruct (ServerFacts.flipCard_is_Some (Fin t1) p Hb Hs Hm1 Hv) as [c1 Hc1].
  pose proof (ServerFacts.flipCard_Some _ _ _ Hc1)
    as (_ & _ & _ & _ & Eb1 & Es1 & Eib1 & Eis1 & Em1 & Ec1).
  exists c1. rewrite Eb1, Es1, Eib1, Eis1, Em1, Ec1, Eb2, Es2, Eib2, Eis2, Em2, Ec2.
  repeat split; try done.
  unfold coinsPerHourOf.
  set (v := JsNum.min (instabuyHourlyOf p) (instasellHourlyOf p)) in *.
  apply CardFacts.gtb_Fin_or_PInf in Hv as [Ev|(x & Ev & Hx)];
    apply CardFacts.gtb_Fin_or_PInf in Hm1 as [E1|(m1 & E1 & Hm1)];
    apply CardFacts.gtb_Fin_or_PInf in Hm2 as [E2|(m2 & E2 & Hm2)];
    rewrite Ev, E1, E2 in *; unfold JsNum.le in *; try done.
  all: try (unfold JsNum.mul; simpl; unfold JsNum.Qsign;
            repeat match goal with
                   | H : 0 < ?a |- context [?a ?= 0] =>
                       rewrite (proj1 (Qgt_alt a 0) H)
                   | H : 10 < ?a |- context [?a ?= 0] =>
                       rewrite (proj1 (Qgt_alt a 0)) by lra
                   end; done).
  change (Fin m2 * Fin x)%J with (Fin (m2 * x)).
  change (Fin m1 * Fin x)%J with (Fin (m1 * x)).
  apply JsNumFacts.leb_Fin in Hle. apply JsNumFacts.leb_Fin. nra.
Qed.

Lemma lower_tax_keeps_cards_witness :
  exists c2 c1,
    flipCard (Fin 1.25) Sample.rune = Some c2 /\
    flipCard (Fin 1.125) Sample.rune = Some c1 /\
    buy c1 = buy c2 /\ sell c1 = sell c2 /\
    instabuy c1 = instabuy c2 /\ instasell c1 = instasell c2 /\
    JsNum.le (margin c2) (margin c1) /\
    JsNum.le (coinsPerHour c2) (coinsPerHour c1).
Proof.
  assert (exists c2, flipCard (Fin 1.25) Sample.rune = Some c2) as [c2 Hc2].
  { eexists. vm_compute. reflexivity. }
  destruct (lower_tax_keeps_cards 1.125 1.25 Sample.rune c2) as [c1 Hc1];
    [discriminate|exact Hc2|].
  exists c2, c1. split; [exact Hc2|exact Hc1].
Defined.

End TaxFacts.

Module RankingFacts.
Import Server EngineSpec.

Lemma StronglySorted_app_cross {A} (R : A -> A -> Prop) l1 l2 :
  StronglySorted R (l1 ++ l2) -> forall a b, a ∈ l1 -> b ∈ l2 -> R a b.
Proof.
  induction l1 as [|x l1 IH]; intros Hs a b Ha Hb; [by apply elem_of_nil in Ha|].
  apply StronglySorted_inv in Hs as [Hs Hx].
  apply elem_of_cons in Ha as [->|Ha]; [|by apply IH].
  rewrite Forall_forall in Hx. apply Hx. apply elem_of_app. by right.
Qed.

(** X6. The cut keeps the best: the cards left out are those of the
    qualifying cards with the least coins per hour, none of them above a
    card that is served; nothing is left out when at most a hundred
    qualify. *)
Theorem cut_keeps_the_best (taxRate : num) (products : list product) :
  exists dropped,
    topCards taxRate products ++ dropped ≡ₚ qualifying taxRate products /\
    (forall a b, a ∈ topCards taxRate products -> b ∈ dropped ->
                 JsNum.le (coinsPerHour b) (coinsPerHour a)) /\
    length (topCards taxRate products)
      = Nat.min 100 (length (qualifying taxRate products)) /\
    ((length (qualifying taxRate products) <= 100)%nat -> dropped = []).
Proof.
  set (ranked := JsArray.sort (fun a b => (coinsPerHour b - coinsPerHour a)%J)
                              (qualifying taxRate products)).
  assert (topCards taxRate products = take 100 ranked) as -> by done.
  exists (drop 100 ranked). rewrite take_drop.
  split; [apply JsArrayFacts.sort_perm|]. split; [|split].
  - apply StronglySorted_app_cross. rewrite take_drop.
    apply JsArrayFacts.sort_sorted with (Q := fun c => coinsPerHour c <> NaN).
    + intros x y z _ _ _ Hxy Hyz. eapply JsNumFacts.le_trans; eauto.
    + intros x y Hx Hy. rewrite JsNumFacts.sub_gtb_0 by done.
      by apply JsNumFacts.ltb_false_le.
    + intros x y Hx Hy. rewrite JsNumFacts.sub_gtb_0 by done.
      apply JsNumFacts.ltb_true_le.
    + apply Forall_forall. intros c (p & _ & Hp)%list_elem_of_omap.
      apply ServerFacts.flipCard_coinsPerHour in Hp as [Hp _].
      by eapply ServerFacts.gtb_not_NaN.
  - rewrite length_take. unfold ranked. by rewrite JsArrayFacts.sort_length.
  - intros Hlen. apply drop_ge. unfold ranked. by rewrite JsArrayFacts.sort_length.
Qed.

End RankingFacts.

(** ** Requests *)

Module RequestFacts.
Import Server EngineSpec.

Section Cache.
Context `{Runtime}.

(** X7. Once a request has returned a list, repeating it returns the same
    list and leaves the cache alone, whatever the upstream would answer
    now, and so until the entry expires. *)
Theorem repeated_request_is_served_from_cache
    (taxRateArg : option num) (fetch fetch' : upstream) (c : cache) (l : list card) :
  (getBazaarData taxRateArg fetch c).1 = Returned l ->
  getBazaarData taxRateArg fetch' (getBazaarData taxRateArg fetch c).2
  = (Returned l, (getBazaarData taxRateArg fetch c).2).
Proof.
  unfold getBazaarData, cache in *.
  destruct (c !! cacheKey _) as [cached|] eqn:E; simpl.
  - intros [= ->]. by rewrite E.
  - destruct fetch as [e|[] products]; simpl; try done.
    intros [= <-]. by rewrite lookup_insert_eq.
Qed.

(** After the entry has expired the list is derived afresh from what the
    upstream answers. *)
Lemma request_after_expiry taxRate products (c : cache) :
  getBazaarData (Some taxRate) (Response true products) (delete (cacheKey taxRate) c)
  = (Returned (topCards taxRate products),
     <[cacheKey taxRate := topCards taxRate products]> c).
Proof.
  unfold getBazaarData, cache in *. simpl.
  by rewrite lookup_delete_eq, insert_delete_eq.
Qed.

(** X8. A tax parameter that does not start with a number is no error:
    when the snapshot is requested and arrives, the handler answers with
    status 200 and an empty list, which it caches. *)
Theorem non_numeric_tax_gives_empty_list
    (tax : string) (products : list product) (c : cache) :
  tax <> "" -> JsString.parseFloat tax = NaN ->
  c !! cacheKey NaN = None ->
  apiFlips (Some tax) (Response true products) c
  = ({| statusCode := 200; json := Success [] |}, <[cacheKey NaN := []]> c).
Proof.
  intros Hne Hnan Hmiss. unfold apiFlips, queryTax, getBazaarData.
  destruct (String.eqb_spec tax ""); [done|]. simpl.
  rewrite Hnan, Hmiss. simpl.
  rewrite (TaxFacts.topCards_none NaN products); [done|].
  intros p. by apply TaxFacts.flipCard_full_tax.
Qed.

End Cache.

Lemma repeated_request_is_served_from_cache_witness :
  getBazaarData (Some (Fin 1.25)) (Rejected "Network Error")
    (getBazaarData (Some (Fin 1.25)) (Response true [Sample.rune]) ∅).2
  = (Returned (topCards (Fin 1.25) [Sample.rune]),
     (getBazaarData (Some (Fin 1.25)) (Response true [Sample.rune]) ∅).2).
Proof.
  apply (repeated_request_is_served_from_cache (Some (Fin 1.25)) (Response true [Sample.rune])).
  reflexivity.
Defined.

Lemma non_numeric_tax_gives_empty_list_witness :
  apiFlips (Some "abc") (Response true [Sample.rune]) ∅
  = ({| statusCode := 200; json := Success [] |}, <[cacheKey NaN := []]> ∅).
Proof.
  apply (non_numeric_tax_gives_empty_list "abc" [Sample.rune] ∅);
    [discriminate|reflexivity|reflexivity].
Defined.

End RequestFacts.

(** ** The client's filters *)

Module TextFacts.
Import Client App.
Local Open Scope string_scope.

(** *** Text *)

Lemma prefix_spec p s : String.prefix p s = true <-> exists post, s = p +:+ post.
Proof.
  revert s. induction p as [|c p IH]; intros s.
  - split; [intros _; by exists s|]. by destruct s.
  - destruct s as [|d s]; simpl.
    + split; [done|]. intros [post Hp]. by rewrite JsStringFacts.app_cons in Hp.
    + destruct (ascii_dec c d) as [->|Hne].
      * rewrite IH. split; intros [post Hp]; exists post.
        -- by rewrite JsStringFacts.app_cons, Hp.
        -- rewrite JsStringFacts.app_cons in Hp. congruence.
      * split; [done|]. intros [post Hp].
        rewrite JsStringFacts.app_cons in Hp. congruence.
Qed.

(** [includes] is the search for a substring. *)
Lemma includes_spec haystack kw :
  includes haystack kw = true <-> exists pre post, haystack = pre +:+ kw +:+ post.
Proof.
  induction haystack as [|c r IH].
  - cbn [includes]. rewrite orb_false_r, prefix_spec. split.
    + intros [post Hp]. by exists "", post.
    + intros (pre & post & Hp). destruct pre; [by exists post|].
      by rewrite JsStringFacts.app_cons in Hp.
  - cbn [includes]. rewrite orb_true_iff, prefix_spec, IH. split.
    + intros [[post Hp]|(pre & post & Hp)].
      * by exists "", post.
      * exists (String c pre), post. by rewrite JsStringFacts.app_cons, Hp.
    + intros (pre & post & Hp). destruct pre as [|d pre].
      * left. by exists post.
      * right. exists pre, post. rewrite JsStringFacts.app_cons in Hp. congruence.
Qed.

Lemma splitCommas_not_nil s : splitCommas s <> [].
Proof.
  destruct s as [|c r]; [done|]. simpl.
  destruct (Ascii.eqb c ","); [done|]. by destruct (splitCommas r).
Qed.

Lemma splitCommas_lower s :
  splitCommas (JsString.toLowerCase s) = JsString.toLowerCase <$> splitCommas s.
Proof.
  induction s as [|c r IH]; [done|]. simpl.
  rewrite JsStringFacts.lowerChar_comma, IH.
  destruct (Ascii.eqb c ","); [done|]. by destruct (splitCommas r).
Qed.

(** Splitting a text made of two texts joined by a comma. *)
Lemma splitCommas_join a b :
  splitCommas (a +:+ "," +:+ b) = (splitCommas a ++ splitCommas b)%list.
Proof.
  induction a as [|c r IH]; [done|].
  rewrite JsStringFacts.app_cons. cbn [splitCommas]. rewrite IH.
  destruct (Ascii.eqb c ","); [done|].
  pose proof (splitCommas_not_nil r). by destruct (splitCommas r).
Qed.

(** *** The keys *)

Lemma getFilter_setFilter key key' value f :
  getFilter (setFilter key value f) key'
  = if decide (key = key') then value else getFilter f key'.
Proof. destruct key, key'; by case_decide. Qed.

End TextFacts.

Module FilterFacts.
Import Client App.
Local Open Scope string_scope.

Section Filtered.
Context `{Runtime}.

Lemma passes_true f tokens it :
  passes f tokens it = true <->
  existsb (fun kw => includes (JsString.toLowerCase (title it +:+ " " +:+ raw it)) kw) tokens
    = false /\
  forall cfg, cfg ∈ filterConfig -> rangeOk f it cfg = true.
Proof.
  unfold passes. fold (rangeOk f it).
  destruct (existsb _ tokens).
  - split; [done|]. by intros [? _].
  - rewrite forallb_forall. setoid_rewrite <- list_elem_of_In. tauto.
Qed.

Lemma passes_rangeOk f tokens it cfg :
  cfg ∈ filterConfig -> rangeOk f it cfg = false -> passes f tokens it = false.
Proof.
  intros Hcfg Hr. apply not_true_iff_false. rewrite passes_true.
  intros [_ Hall]. specialize (Hall cfg Hcfg). congruence.
Qed.

Lemma between_unsatisfiable v min max :
  min = NaN \/ max = NaN \/ (max <? min)%J = true ->
  (v >=? min)%J && (v <=? max)%J = false.
Proof.
  intros Hbad. apply not_true_iff_false. intros [Hlo Hhi]%andb_true_iff.
  change (JsNum.le min v) in Hlo. change (JsNum.le v max) in Hhi.
  destruct Hbad as [->|[->|Hlt]].
  - by destruct v.
  - by destruct v.
  - apply JsNumFacts.ltb_not_le in Hlt. apply Hlt.
    by apply JsNumFacts.le_trans with v.
Qed.

Lemma inRange_unsatisfiable v minStr maxStr :
  (if String.eqb minStr "" then NInf else StringToNumber minStr) = NaN \/
  (if String.eqb maxStr "" then PInf else StringToNumber maxStr) = NaN \/
  ((if String.eqb maxStr "" then PInf else StringToNumber maxStr)
   <? (if String.eqb minStr "" then NInf else StringToNumber minStr))%J = true ->
  inRange v minStr maxStr = false.
Proof.
  intros Hbad. unfold inRange.
  destruct v as [| |n|s]; try done; by apply between_unsatisfiable.
Qed.


(** X9. A range that no number satisfies empties the list: a bound whose
    text is not a number, or a minimum above the maximum, on any of the
    six fields drops every record, whatever the other filters are. *)
Theorem unsatisfiable_range_empties_list
    (items : list item) (f : filters) (tax : Q) (cfg : config) :
  cfg ∈ filterConfig ->
  lowerBound (getFilter f (minKey cfg)) = NaN \/
  upperBound (getFilter f (maxKey cfg)) = NaN \/
  (upperBound (getFilter f (maxKey cfg)) <? lowerBound (getFilter f (minKey cfg)))%J = true ->
  filtered items f tax = [].
Proof.
  intros Hcfg Hbad. unfold filtered.
  induction (recompute tax <$> items) as [|it l IH]; [done|].
  cbn [List.filter]. rewrite IH.
  rewrite (passes_rangeOk f _ it cfg Hcfg); [done|].
  unfold rangeOk. rewrite (inRange_unsatisfiable _ _ _ Hbad). simpl.
  rewrite andb_true_r. apply negb_false_iff, orb_true_iff.
  unfold lowerBound, upperBound in Hbad.
  destruct (String.eqb (getFilter f (minKey cfg)) ""),
           (String.eqb (getFilter f (maxKey cfg)) ""); auto.
  by destruct Hbad as [?|[?|?]].
Qed.

(** The callback turns down a record whose value for a bounded field is
    [null]. *)
Lemma passes_null (f : filters) (tokens : list string) (it : item) (cfg : config) :
  cfg ∈ filterConfig ->
  getFilter f (minKey cfg) <> "" \/ getFilter f (maxKey cfg) <> "" ->
  isNull (field cfg) it = true ->
  passes f tokens it = false.
Proof.
  intros Hcfg Hset Hnull. apply (passes_rangeOk f tokens it cfg Hcfg).
  unfold rangeOk, inRange. unfold isNull in Hnull.
  destruct (Client.field (field cfg) it); try done.
  all: simpl; rewrite andb_true_r; apply negb_false_iff, orb_true_iff.
  all: destruct (String.eqb_spec (getFilter f (minKey cfg)) ""),
                (String.eqb_spec (getFilter f (maxKey cfg)) ""); auto.
  all: by destruct Hset.
Qed.

(** The record still has its [null] after the recomputation, for the four
    fields the recomputation copies. *)
Lemma isNull_recompute tax sortBy it :
  sortBy <> by_margin -> sortBy <> by_coinsPerHour ->
  isNull sortBy (recompute tax it) = isNull sortBy it.
Proof. by destruct sortBy. Qed.

(** X10. As soon as a field has a bound, even one every number
    satisfies, every record of the list has a value for the field: an item
    whose price or volume is [null] is dropped. *)
Theorem bounded_field_hides_null_values
    (items : list item) (f : filters) (tax : Q) (cfg : config) :
  cfg ∈ filterConfig ->
  getFilter f (minKey cfg) <> "" \/ getFilter f (maxKey cfg) <> "" ->
  Forall (fun it => isNull (field cfg) it = false) (filtered items f tax) /\
  (forall it,
     field cfg <> by_margin -> field cfg <> by_coinsPerHour ->
     isNull (field cfg) it = true ->
     recompute tax it ∉ filtered items f tax).
Proof.
  intros Hcfg Hset.
  assert (forall it, it ∈ filtered items f tax -> isNull (field cfg) it = false) as Hshown.
  { intros it Hin. unfold filtered in Hin.
    apply list_elem_of_In, filter_In in Hin as [_ Hp].
    destruct (isNull (field cfg) it) eqn:E; [|done].
    by rewrite (passes_null f _ it cfg Hcfg Hset E) in Hp. }
  split; [by apply Forall_forall|].
  intros it Hm Hc Hnull Hin. apply Hshown in Hin.
  rewrite isNull_recompute in Hin by done. congruence.
Qed.

(** With default filters every entry of [filterConfig] is satisfied. *)
Lemma rangeOk_default it cfg : rangeOk defaultFilters it cfg = true.
Proof. unfold rangeOk. by destruct (minKey cfg), (maxKey cfg). Qed.

(** X11. With the default filters, and after [resetFilters], nothing is
    dropped: the list is the list of all items, recomputed, in their
    order.  With any filters the result is a part of that list, in the
    same order. *)
Theorem default_filters_keep_everything (items : list item) (f : filters) (tax : Q) :
  filtered items defaultFilters tax = recompute tax <$> items /\
  filtered items (resetFilters f) tax = recompute tax <$> items /\
  sublist (filtered items f tax) (recompute tax <$> items).
Proof.
  assert (filtered items defaultFilters tax = recompute tax <$> items) as Hall.
  { unfold filtered. induction (recompute tax <$> items) as [|it l IH]; [done|].
    cbn [List.filter]. rewrite IH.
    assert (passes defaultFilters (blacklistTokens defaultFilters) it = true) as ->; [|done].
    apply passes_true. split; [done|]. intros cfg _. apply rangeOk_default. }
  split; [done|]. split; [done|].
  unfold filtered. generalize (recompute tax <$> items). clear Hall.
  intros l. induction l as [|it l IH]; [done|].
  cbn [List.filter]. destruct (passes _ _ it); [by apply sublist_skip|by apply sublist_cons].
Qed.


Lemma inRange_Fin v minStr maxStr :
  inRange (VNum (Fin v)) minStr maxStr = true <->
  JsNum.le (lowerBound minStr) (Fin v) /\ JsNum.le (Fin v) (upperBound maxStr).
Proof. unfold inRange. cbn [toNumber]. by rewrite andb_true_iff. Qed.

(** The fields of [filterConfig] hold a finite number or [null]. *)
Lemma field_of_config cfg it :
  cfg ∈ filterConfig ->
  Client.field (field cfg) it = VNull \/ exists v, Client.field (field cfg) it = VNum (Fin v).
Proof.
  intros Hcfg. repeat (apply elem_of_cons in Hcfg as [->|Hcfg]);
    [..|by apply elem_of_nil in Hcfg]; cbn [field Client.field];
    match goal with |- context [ofNumber ?x] => destruct x end; simpl; eauto.
Qed.

(** Each entry of [filterConfig] has keys of its own. *)
Lemma config_by_minKey cfg cfg' :
  cfg ∈ filterConfig -> cfg' ∈ filterConfig -> minKey cfg = minKey cfg' -> cfg = cfg'.
Proof.
  intros Hcfg Hcfg'.
  repeat (apply elem_of_cons in Hcfg as [->|Hcfg]);
    [..|by apply elem_of_nil in Hcfg];
    repeat (apply elem_of_cons in Hcfg' as [->|Hcfg']);
    try (by apply elem_of_nil in Hcfg'); done.
Qed.

(** X12. With bounds on one field only and no blacklist, a record is kept
    exactly when its value for the field is a number between the bounds, a
    bound left empty being no bound: with a minimum only, exactly the
    records at or above it are kept. *)
Theorem single_range_filter
    (cfg : config) (minStr maxStr : string) (it : item) :
  cfg ∈ filterConfig ->
  minStr <> "" \/ maxStr <> "" ->
  let f := setFilter (maxKey cfg) maxStr (setFilter (minKey cfg) minStr defaultFilters) in
  passes f (blacklistTokens f) it = true <->
  exists v, Client.field (field cfg) it = VNum (Fin v) /\
            JsNum.le (lowerBound minStr) (Fin v) /\ JsNum.le (Fin v) (upperBound maxStr).
Proof.
  intros Hcfg Hset f.
  assert (blacklistTokens f = []) as ->.
  { unfold f. repeat (apply elem_of_cons in Hcfg as [->|Hcfg]);
      [..|by apply elem_of_nil in Hcfg]; reflexivity. }
  rewrite passes_true. cbn [existsb].
  assert (forall cfg', cfg' ∈ filterConfig -> minKey cfg' <> minKey cfg ->
                       rangeOk f it cfg' = true)
    as Hothers.
  { intros cfg' Hcfg' Hne. unfold rangeOk, f. rewrite !TextFacts.getFilter_setFilter.
    repeat (apply elem_of_cons in Hcfg as [->|Hcfg]);
      [..|by apply elem_of_nil in Hcfg];
      repeat (apply elem_of_cons in Hcfg' as [->|Hcfg']);
      try (by apply elem_of_nil in Hcfg'); try done. }
  assert (rangeOk f it cfg = inRange (Client.field (field cfg) it) minStr maxStr) as Hown.
  { unfold rangeOk, f. rewrite !TextFacts.getFilter_setFilter.
    assert (minKey cfg <> maxKey cfg) as Hkeys.
    { repeat (apply elem_of_cons in Hcfg as [->|Hcfg]);
        [..|by apply elem_of_nil in Hcfg]; done. }
    repeat case_decide; try congruence.
    destruct (String.eqb_spec minStr ""), (String.eqb_spec maxStr ""); simpl;
      try (by rewrite negb_involutive). by destruct Hset. }
  split.
  - intros [_ Hall]. specialize (Hall cfg Hcfg). rewrite Hown in Hall.
    destruct (field_of_config cfg it Hcfg) as [Hv|[v Hv]]; rewrite Hv in Hall; [done|].
    exists v. split; [done|]. by apply inRange_Fin.
  - intros (v & Hv & Hle). split; [done|]. intros cfg' Hcfg'.
    destruct (decide (minKey cfg' = minKey cfg)) as [He|Hne]; [|by apply Hothers].
    apply (config_by_minKey _ _ Hcfg' Hcfg) in He as ->.
    rewrite Hown, Hv. by apply inRange_Fin.
Qed.

End Filtered.

Lemma unsatisfiable_range_empties_list_witness :
  filtered Sample.records
    (setFilter key_buyMax "5" (setFilter key_buyMin "10" defaultFilters)) 1.125 = [].
Proof.
  apply (unsatisfiable_range_empties_list _ _ _
           {| field := by_buy; label := "Buy price"; minKey := key_buyMin; maxKey := key_buyMax;
        step := 1000; defaultMax := 50000000 |});
    [left|right; right; reflexivity].
Defined.

Lemma bounded_field_hides_null_values_witness :
  Forall (fun it => isNull by_buy it = false)
    (filtered Sample.records (setFilter key_buyMin "0" defaultFilters) 1.125).
Proof.
  apply (bounded_field_hides_null_values Sample.records
           (setFilter key_buyMin "0" defaultFilters) 1.125
           {| field := by_buy; label := "Buy price"; minKey := key_buyMin; maxKey := key_buyMax;
        step := 1000; defaultMax := 50000000 |});
    [left|left; discriminate].
Defined.

Lemma single_range_filter_witness :
  let f := setFilter key_buyMax "" (setFilter key_buyMin "4" defaultFilters) in
  passes f (blacklistTokens f) (Sample.record "a" (Some 5) (Some 1)) = true <->
  exists v, Client.field by_buy (Sample.record "a" (Some 5) (Some 1)) = VNum (Fin v) /\
            JsNum.le (lowerBound "4") (Fin v) /\ JsNum.le (Fin v) (upperBound "").
Proof.
  apply (single_range_filter
           {| field := by_buy; label := "Buy price"; minKey := key_buyMin; maxKey := key_buyMax;
        step := 1000; defaultMax := 50000000 |}
           "4" "" (Sample.record "a" (Some 5) (Some 1)));
    [left|left; discriminate].
Defined.

End FilterFacts.

Module BlacklistFacts.
Import Client App.
Local Open Scope string_scope.

Lemma toLowerCase_app a b :
  JsString.toLowerCase (a +:+ b) = JsString.toLowerCase a +:+ JsString.toLowerCase b.
Proof.
  induction a as [|c r IH]; [done|].
  rewrite JsStringFacts.app_cons. simpl. by rewrite IH, JsStringFacts.app_cons.
Qed.

Lemma splitCommas_single s : JsString.occurs "," s = false -> splitCommas s = [s].
Proof.
  induction s as [|c r IH]; [done|]. rewrite JsStringFacts.occurs_cons.
  intros [Hc Hr]%orb_false_iff. simpl. rewrite Ascii.eqb_sym, Hc. by rewrite IH.
Qed.

Lemma filter_sublist_impl {A} (P Q : A -> bool) l :
  (forall x, P x = true -> Q x = true) ->
  sublist (List.filter P l) (List.filter Q l).
Proof.
  intros HPQ. induction l as [|x l IH]; [done|]. simpl.
  destruct (P x) eqn:Px.
  - rewrite (HPQ x Px). by apply sublist_skip.
  - destruct (Q x); [by apply sublist_cons|done].
Qed.

Lemma blacklistTokens_setFilter b f :
  blacklistTokens (setFilter key_blacklist b f)
  = List.filter (fun item => negb (String.eqb item ""))
      ((fun item => JsString.toLowerCase (JsString.trim item)) <$> splitCommas b).
Proof. reflexivity. Qed.

Lemma blacklistTokens_join b b' f :
  blacklistTokens (setFilter key_blacklist (b +:+ "," +:+ b') f)
  = (blacklistTokens (setFilter key_blacklist b f)
     ++ blacklistTokens (setFilter key_blacklist b' f))%list.
Proof.
  rewrite !blacklistTokens_setFilter, TextFacts.splitCommas_join, fmap_app.
  apply List.filter_app.
Qed.

Section Filtered.
Context `{Runtime}.

Lemma rangeOk_blacklist b f it cfg :
  cfg ∈ filterConfig -> rangeOk (setFilter key_blacklist b f) it cfg = rangeOk f it cfg.
Proof.
  intros Hcfg. unfold rangeOk. rewrite !TextFacts.getFilter_setFilter.
  repeat (apply elem_of_cons in Hcfg as [->|Hcfg]);
    [..|by apply elem_of_nil in Hcfg]; done.
Qed.

(** X13. The blacklist ignores letter case on both sides: lower-casing
    the blacklist text changes no keyword, and a keyword drops every record
    whose title and raw text contain it in any letter case. *)
Theorem blacklist_ignores_case (f : filters) (b : string) :
  blacklistTokens (setFilter key_blacklist (JsString.toLowerCase b) f)
  = blacklistTokens (setFilter key_blacklist b f) /\
  forall it pre w post,
    JsString.occurs "," b = false ->
    JsString.toLowerCase (JsString.trim b) <> "" ->
    title it +:+ " " +:+ raw it = pre +:+ w +:+ post ->
    JsString.toLowerCase w = JsString.toLowerCase (JsString.trim b) ->
    passes (setFilter key_blacklist b f)
           (blacklistTokens (setFilter key_blacklist b f)) it = false.
Proof.
  split.
  - rewrite !blacklistTokens_setFilter, TextFacts.splitCommas_lower.
    rewrite <- list_fmap_compose. f_equal. apply list_fmap_ext. intros _ s _. simpl.
    by rewrite JsStringFacts.trim_lower, JsStringFacts.toLowerCase_idemp.
  - intros it pre w post Hcomma Hne Hhay Hw.
    rewrite blacklistTokens_setFilter, splitCommas_single by done. simpl.
    destruct (String.eqb_spec (JsString.toLowerCase (JsString.trim b)) ""); [done|].
    unfold passes. simpl existsb.
    assert (includes (JsString.toLowerCase (title it +:+ " " +:+ raw it))
                     (JsString.toLowerCase (JsString.trim b)) = true) as ->; [|done].
    apply TextFacts.includes_spec.
    exists (JsString.toLowerCase pre), (JsString.toLowerCase post).
    by rewrite Hhay, !toLowerCase_app, Hw.
Qed.

(** X14. Keywords add up: the keywords of two blacklists joined by a
    comma are those of the first followed by those of the second, so a
    longer blacklist never shows a record the shorter one hides. *)
Theorem more_keywords_fewer_records
    (items : list item) (f : filters) (b b' : string) (tax : Q) :
  blacklistTokens (setFilter key_blacklist (b +:+ "," +:+ b') f)
  = (blacklistTokens (setFilter key_blacklist b f)
     ++ blacklistTokens (setFilter key_blacklist b' f))%list /\
  sublist (filtered items (setFilter key_blacklist (b +:+ "," +:+ b') f) tax)
          (filtered items (setFilter key_blacklist b f) tax).
Proof.
  split; [apply blacklistTokens_join|].
  unfold filtered. apply filter_sublist_impl. intros it.
  rewrite blacklistTokens_join, !FilterFacts.passes_true, existsb_app, orb_false_iff.
  intros [[Hb _] Hranges]. split; [done|].
  intros cfg Hcfg. specialize (Hranges cfg Hcfg).
  by rewrite rangeOk_blacklist in *.
Qed.

(** X15. The margin and the coins per hour a record arrives with never
    reach the list: items that agree on every other field are filtered,
    sorted and shown alike. *)
Theorem received_margin_is_ignored
    (items items' : list item) (f : filters) (tax : Q)
    (sortBy : sortField) (sortDir : sortDirection) :
  Forall2 (fun a b =>
             id a = id b /\ title a = title b /\ buy a = buy b /\ sell a = sell b /\
             instabuy a = instabuy b /\ instasell a = instasell b /\
             href a = href b /\ img a = img b /\ raw a = raw b) items items' ->
  filtered items f tax = filtered items' f tax /\
  shown items f tax sortBy sortDir = shown items' f tax sortBy sortDir.
Proof.
  intros Hagree.
  assert (recompute tax <$> items = recompute tax <$> items') as Hre.
  { induction Hagree as [|a b l l' Hab _ IH]; [done|].
    cbn [fmap list_fmap]. f_equal; [|exact IH].
    destruct Hab as (Hid & Ht & Hb & Hs & Hib & His & Hh & Hi & Hr).
    unfold recompute. by rewrite Hid, Ht, Hb, Hs, Hib, His, Hh, Hi, Hr. }
  assert (filtered items f tax = filtered items' f tax) as Hf.
  { unfold filtered. by rewrite Hre. }
  split; [done|]. unfold shown. by rewrite Hf.
Qed.

End Filtered.

Lemma blacklist_ignores_case_witness :
  passes (setFilter key_blacklist " Rune " defaultFilters)
         (blacklistTokens (setFilter key_blacklist " Rune " defaultFilters))
         (Sample.record "Enchanted RUNE" None None) = false.
Proof.
  apply (proj2 (blacklist_ignores_case defaultFilters " Rune ")
           (Sample.record "Enchanted RUNE" None None) "Enchanted " "RUNE" " ");
    [reflexivity|discriminate|reflexivity|reflexivity].
Defined.

Lemma received_margin_is_ignored_witness :
  filtered Sample.records defaultFilters 1.125
  = filtered (recompute 5 <$> Sample.records) defaultFilters 1.125 /\
  shown Sample.records defaultFilters 1.125 by_margin desc
  = shown (recompute 5 <$> Sample.records) defaultFilters 1.125 by_margin desc.
Proof.
  apply (received_margin_is_ignored Sample.records (recompute 5 <$> Sample.records)).
  repeat constructor.
Defined.

End BlacklistFacts.

(** ** Value statistics and the sliders *)

Module StatsFacts.
Import Client App Slider.

Lemma field_VNum f it n : Client.field f it = VNum n -> exists q, n = Fin q.
Proof.
  destruct f; simpl; try done;
    match goal with |- context [ofNumber ?x] => destruct x end; simpl; intros [=]; eauto.
Qed.

Lemma fold_stats f items mn mx :
  mn <> NaN -> mx <> NaN ->
  exists mn' mx',
    fold_left (statsStep f) items (mn, mx) = (mn', mx') /\
    mn' <> NaN /\ mx' <> NaN /\
    JsNum.le mn' mn /\ JsNum.le mx mx' /\
    (forall it v, it ∈ items -> Client.field f it = VNum v ->
                  JsNum.le mn' v /\ JsNum.le v mx') /\
    (mn' = mn \/ exists it, it ∈ items /\ Client.field f it = VNum mn') /\
    (mx' = mx \/ exists it, it ∈ items /\ Client.field f it = VNum mx').
Proof.
  revert mn mx. induction items as [|it items IH]; intros mn mx Hmn Hmx.
  - exists mn, mx. split; [done|]. split; [done|]. split; [done|].
    split; [by apply JsNumFacts.le_refl|]. split; [by apply JsNumFacts.le_refl|].
    split; [|by split; left].
    intros it v Hit. by apply elem_of_nil in Hit.
  - cbn [fold_left].
    assert (forall mn1 mx1,
      mn1 <> NaN -> mx1 <> NaN -> JsNum.le mn1 mn -> JsNum.le mx mx1 ->
      (forall v, Client.field f it = VNum v -> JsNum.le mn1 v /\ JsNum.le v mx1) ->
      (mn1 = mn \/ Client.field f it = VNum mn1) ->
      (mx1 = mx \/ Client.field f it = VNum mx1) ->
      exists mn' mx',
        fold_left (statsStep f) items (mn1, mx1) = (mn', mx') /\
        mn' <> NaN /\ mx' <> NaN /\
        JsNum.le mn' mn /\ JsNum.le mx mx' /\
        (forall it' v, it' ∈ it :: items -> Client.field f it' = VNum v ->
                       JsNum.le mn' v /\ JsNum.le v mx') /\
        (mn' = mn \/ exists it', it' ∈ it :: items /\ Client.field f it' = VNum mn') /\
        (mx' = mx \/ exists it', it' ∈ it :: items /\ Client.field f it' = VNum mx'))
      as Hstep.
    { intros mn1 mx1 Hmn1 Hmx1 Hle1 Hle2 Hit Hc1 Hc2.
      destruct (IH mn1 mx1 Hmn1 Hmx1)
        as (mn' & mx' & Hfold & Hn1 & Hn2 & Hlo' & Hhi' & Hall & Hlo & Hhi).
      exists mn', mx'. split; [done|]. split; [done|]. split; [done|].
      split; [by apply JsNumFacts.le_trans with mn1|].
      split; [by apply JsNumFacts.le_trans with mx1|].
      split; [|split].
      - intros it' v [->|Hin]%elem_of_cons Hv; [|by apply (Hall it' v)].
        destruct (Hit v Hv). split.
        + by apply JsNumFacts.le_trans with mn1.
        + by apply JsNumFacts.le_trans with mx1.
      - destruct Hlo as [->|(it' & ? & ?)].
        + destruct Hc1 as [->|Hc1]; [by left|]. right. exists it. split; [by left|done].
        + right. exists it'. split; [by right|done].
      - destruct Hhi as [->|(it' & ? & ?)].
        + destruct Hc2 as [->|Hc2]; [by left|]. right. exists it. split; [by left|done].
        + right. exists it'. split; [by right|done]. }
    unfold statsStep at 2.
    destruct (Client.field f it) as [| |val|s] eqn:Ef;
      try (apply Hstep; auto using JsNumFacts.le_refl; intros v; discriminate).
    destruct (field_VNum _ _ _ Ef) as [q ->]. cbn [JsNum.isNaN].
    apply Hstep.
    + by destruct (Fin q <? mn)%J.
    + by destruct (Fin q >? mx)%J.
    + destruct (Fin q <? mn)%J eqn:E;
        auto using JsNumFacts.ltb_true_le, JsNumFacts.le_refl.
    + unfold JsNum.gtb. destruct (mx <? Fin q)%J eqn:E;
        auto using JsNumFacts.ltb_true_le, JsNumFacts.le_refl.
    + intros v [= <-]. split.
      * destruct (Fin q <? mn)%J eqn:E; [by apply JsNumFacts.le_refl|].
        by apply JsNumFacts.ltb_false_le.
      * unfold JsNum.gtb. destruct (mx <? Fin q)%J eqn:E; [by apply JsNumFacts.le_refl|].
        by apply JsNumFacts.ltb_false_le.
    + destruct (Fin q <? mn)%J; auto.
    + destruct (Fin q >? mx)%J; auto.
Qed.


Lemma valueStats_spec (items : list item) (f : sortField) :
  match valueStats items f with
  | Some (lo, hi) =>
      (exists it, it ∈ items /\ Client.field f it = VNum lo) /\
      (exists it, it ∈ items /\ Client.field f it = VNum hi) /\
      forall it v, it ∈ items -> Client.field f it = VNum v ->
                   JsNum.le lo v /\ JsNum.le v hi
  | None => forall it v, it ∈ items -> Client.field f it <> VNum v
  end.
Proof.
  unfold valueStats.
  destruct (fold_stats f items PInf NInf)
    as (mn & mx & -> & Hmn & Hmx & _ & _ & Hall & Hlo & Hhi); [done..|].
  destruct (negb (mn === PInf)%J && negb (mx === NInf)%J) eqn:E.
  - apply andb_true_iff in E as [E1 E2].
    destruct Hlo as [->|Hlo]; [done|]. destruct Hhi as [->|Hhi]; [done|]. done.
  - intros it v Hit Hv. destruct (Hall it v Hit Hv) as [H1 H2].
    destruct (field_VNum _ _ _ Hv) as [q ->].
    apply andb_false_iff in E as [E|E]; apply negb_false_iff in E.
    + by destruct mn.
    + by destruct mx.
Qed.

Lemma valueStats_max items f lo hi :
  valueStats items f = Some (lo, hi) ->
  exists h, hi = Fin h /\
    forall it v, it ∈ items -> Client.field f it = VNum v -> JsNum.le v (Fin h).
Proof.
  intros Hs. pose proof (valueStats_spec items f) as Hx.
  rewrite Hs in Hx. destruct Hx as (_ & (it & _ & Hit) & Hall).
  destruct (field_VNum _ _ _ Hit) as [h ->]. exists h. split; [done|].
  intros it' v Hin Hv. by apply (Hall it' v).
Qed.


(** X16. The statistics of a field are the extremes of its values: when
    some item has a number for the field, [min] and [max] are values of
    items and every value lies between them; when none has, there are no
    statistics. *)
Theorem valueStats_are_the_extremes (items : list item) (f : sortField) :
  match valueStats items f with
  | Some (lo, hi) =>
      (exists it, it ∈ items /\ Client.field f it = VNum lo) /\
      (exists it, it ∈ items /\ Client.field f it = VNum hi) /\
      forall it v, it ∈ items -> Client.field f it = VNum v ->
                   JsNum.le lo v /\ JsNum.le v hi
  | None => forall it v, it ∈ items -> Client.field f it <> VNum v
  end.
Proof. apply valueStats_spec. Qed.

Lemma mathMax_Fin a b :
  exists m, mathMax (Fin a) (Fin b) = Fin m /\ a <= m /\ b <= m.
Proof.
  unfold mathMax. destruct (Fin a <? Fin b)%J eqn:E.
  - apply JsNumFacts.ltb_Fin in E. exists b. split; [done|]. lra.
  - apply JsNumFacts.ltb_Fin_false in E. exists a. split; [done|]. lra.
Qed.

(** X17. The slider of a field spans its values: it starts at 0, ends
    above 0 at no less than the default maximum of the field, and no item
    has a value for the field beyond its end. *)
Theorem slider_spans_the_values (items : list item) (cfg : config) :
  cfg ∈ filterConfig ->
  exists sliderMax,
    sliderRange cfg (sliderBounds items cfg) = (Fin 0, Fin sliderMax) /\
    0 < sliderMax /\ defaultMax cfg <= sliderMax /\
    forall it v, it ∈ items -> Client.field (field cfg) it = VNum (Fin v) -> v <= sliderMax.
Proof.
  intros Hcfg.
  assert (0 < defaultMax cfg) as Hd.
  { repeat (apply elem_of_cons in Hcfg as [->|Hcfg]);
      [..|by apply elem_of_nil in Hcfg]; reflexivity. }
  assert (exists x, numberOrZero (snd <$> valueStats items (field cfg)) = Fin x /\
            forall it v, it ∈ items -> Client.field (field cfg) it = VNum (Fin v) ->
                         v <= x \/ v <= 0) as (x & Ex & Hx).
  { destruct (valueStats items (field cfg)) as [[lo hi]|] eqn:Es.
    - destruct (valueStats_max _ _ _ _ Es) as (h & -> & Hall). simpl.
      destruct (Qeq_bool h 0) eqn:E.
      + exists 0. split; [done|]. intros it v Hit Hv. right.
        specialize (Hall it _ Hit Hv). apply JsNumFacts.leb_Fin in Hall.
        apply Qeq_bool_iff in E. lra.
      + exists h. split; [done|]. intros it v Hit Hv. left.
        specialize (Hall it _ Hit Hv). by apply JsNumFacts.leb_Fin in Hall.
    - exists 0. split; [done|]. intros it v Hit Hv.
      pose proof (valueStats_spec items (field cfg)) as Hn. rewrite Es in Hn.
      by destruct (Hn it (Fin v) Hit). }
  destruct (mathMax_Fin (defaultMax cfg) x) as (m & Em & Hm1 & Hm2).
  exists m. unfold sliderRange, sliderBounds. rewrite Ex, Em. cbn [fst snd].
  assert ((Fin m <=? Fin 0)%J = false) as -> by (apply JsNumFacts.leb_Fin_false; lra).
  split; [done|]. split; [lra|]. split; [done|].
  intros it v Hit Hv. destruct (Hx it v Hit Hv); lra.
Qed.

Lemma slider_spans_the_values_witness :
  exists sliderMax,
    sliderRange {| field := by_buy; label := "Buy price"; minKey := key_buyMin; maxKey := key_buyMax;
        step := 1000; defaultMax := 50000000 |}
      (sliderBounds Sample.records
         {| field := by_buy; label := "Buy price"; minKey := key_buyMin; maxKey := key_buyMax;
        step := 1000; defaultMax := 50000000 |})
    = (Fin 0, Fin sliderMax) /\
    0 < sliderMax /\ 50000000 <= sliderMax /\
    forall it v, it ∈ Sample.records -> Client.field by_buy it = VNum (Fin v) -> v <= sliderMax.
Proof.
  apply (slider_spans_the_values Sample.records
           {| field := by_buy; label := "Buy price"; minKey := key_buyMin; maxKey := key_buyMax;
        step := 1000; defaultMax := 50000000 |}).
  left.
Defined.

End StatsFacts.

(** ** Fetching *)

Module FetchingFacts.
Import Client Fetching.
Local Open Scope string_scope.

Section EndToEnd.
Context `{Runtime}.

(** X18. When the snapshot is requested and the request fails, the
    client keeps the list and the time stamp it had and shows the message of
    the error, or a stock message when that is empty. *)
Theorem upstream_failure_keeps_the_list
    (silent : bool) (now : Z) (s : state)
    (fetch : Server.upstream) (c : Server.cache) (message : string) :
  Server.failure fetch = Some message ->
  c !! Server.cacheKey (Fin 1.25) = None ->
  let s' := fetchData silent now (overTheWire (Server.apiFlips None fetch c).1) s in
  items s' = items s /\
  lastUpdated s' = lastUpdated s /\
  error s' = Some (if String.eqb message "" then "Failed to load flips" else message) /\
  loading s' = (if silent then loading s else false).
Proof.
  intros Hfail Hmiss s'. unfold s', Server.apiFlips.
  change (Server.queryTax None) with (Fin 1.25).
  rewrite (getBazaarData_failure _ _ _ _ Hfail) by done.
  unfold fetchData, overTheWire. simpl. by destruct silent.
Qed.

(** X19. The addresses [computeApiBase] builds carry no tax parameter, so
    whatever tax the client recomputes with, the list it receives was
    chosen, ranked and cut by the server at its own default rate; a fetch
    that succeeds replaces the list and clears the error. *)
Theorem fetched_list_is_ranked_at_server_default
    (silent : bool) (now : Z) (s : state)
    (evs : list Server.event) (fetch : Server.upstream) (cards : list Server.card) :
  (Server.apiFlips None fetch (Server.run evs)).1
    = {| Server.statusCode := 200; Server.json := Server.Success cards |} ->
  let s' := fetchData silent now (overTheWire (Server.apiFlips None fetch (Server.run evs)).1) s in
  (exists taxRate products,
     JsNum.same (Fin 1.25) taxRate /\ cards = Server.topCards taxRate products) /\
  items s' = received <$> cards /\
  error s' = None /\
  lastUpdated s' = Some now.
Proof.
  intros Hreply s'. unfold s'. rewrite Hreply. split; [|done].
  unfold Server.apiFlips in Hreply.
  change (Server.queryTax None) with (Fin 1.25) in Hreply.
  destruct (Server.getBazaarData _ _ _) as [[data|e] c'] eqn:Hget; [|done].
  injection Hreply as ->.
  apply (getBazaarData_Returned (Some (Fin 1.25)) fetch (Server.run evs)).
  - apply run_derived.
  - by rewrite Hget.
Qed.

(** X20. Sorting by title changes nothing: when no title reads as a
    number, as no item name does, the list is shown in the order the filter
    leaves it in, in either direction. *)
Theorem title_sort_changes_nothing
    (items : list item) (f : App.filters) (tax : Q) (sortDir : sortDirection) :
  Forall (fun a => StringToNumber (title a) = NaN) items ->
  App.shown items f tax by_title sortDir = App.filtered items f tax.
Proof.
  intros Ht. unfold App.shown. apply ClientFacts.sorted_by_title.
  apply Forall_forall. intros a Ha. unfold App.filtered in Ha.
  apply list_elem_of_In, filter_In in Ha as [Ha%list_elem_of_In _].
  apply list_elem_of_fmap in Ha as (b & -> & Hb).
  rewrite Forall_forall in Ht. exact (Ht b Hb).
Qed.

End EndToEnd.

Lemma upstream_failure_keeps_the_list_witness :
  let s' := fetchData true 7
              (overTheWire (Server.apiFlips None (Server.Rejected "Network Error") ∅).1)
              initialState in
  items s' = items initialState /\
  lastUpdated s' = lastUpdated initialState /\
  error s' = Some "Network Error" /\
  loading s' = loading initialState.
Proof.
  apply (upstream_failure_keeps_the_list true 7 initialState
           (Server.Rejected "Network Error") ∅ "Network Error"); reflexivity.
Defined.

Lemma fetched_list_is_ranked_at_server_default_witness :
  let s' := fetchData false 7
              (overTheWire (Server.apiFlips None (Server.Response true [Sample.rune])
                              (Server.run [])).1)
              initialState in
  (exists taxRate products,
     JsNum.same (Fin 1.25) taxRate /\
     Server.topCards (Fin 1.25) [Sample.rune] = Server.topCards taxRate products) /\
  items s' = received <$> Server.topCards (Fin 1.25) [Sample.rune] /\
  error s' = None /\
  lastUpdated s' = Some 7%Z.
Proof.
  apply (fetched_list_is_ranked_at_server_default false 7 initialState []
           (Server.Response true [Sample.rune]) (Server.topCards (Fin 1.25) [Sample.rune])).
  reflexivity.
Defined.

Lemma title_sort_changes_nothing_witness :
  App.shown Sample.records App.defaultFilters 1.125 by_title asc
  = App.filtered Sample.records App.defaultFilters 1.125.
Proof.
  apply (title_sort_changes_nothing Sample.records).
  repeat constructor.
Defined.

(** X21. A card of the live-API backend, derived under a tax rate that is
    not negative from finite prices, gets a negative margin from the
    client's recomputation under any tax that is not negative: the client
    takes [buy], the low price, for the price it sells at. *)
Theorem live_card_margin_is_negative
    (serverTax tax : Q) (p : Server.product) (c : Server.card) (highPrice : Q) :
  0 <= serverTax -> 0 <= tax ->
  Server.flipCard (Fin serverTax) p = Some c ->
  Server.buyPriceOf p = Fin highPrice ->
  exists m, margin (recompute tax (received c)) = Some m /\ m < 0.
Proof.
  intros HT Ht Hc Hh.
  pose proof (ServerFacts.flipCard_Some _ _ _ Hc)
    as (_ & _ & _ & _ & Hbuy & Hsell & _).
  apply TaxFacts.flipCard_prices in Hc as (l & El & Hl & [[E _]|(h & E & Hh' & Hlh)]);
    [congruence|].
  rewrite Hh in E. injection E as <-.
  eexists. split; [reflexivity|].
  cbn [received buy sell]. rewrite Hbuy, Hsell, El, Hh. cbn [jsonNumber].
  rewrite !ClientFacts.orZero_Some. TaxFacts.div100. nra.
Qed.

Lemma live_card_margin_is_negative_witness :
  exists c,
    Server.flipCard (Fin 1.25) Sample.rune = Some c /\
    exists m, margin (recompute 1.125 (received c)) = Some m /\ m < 0.
Proof.
  assert (exists c, Server.flipCard (Fin 1.25) Sample.rune = Some c) as [c Hc].
  { eexists. vm_compute. reflexivity. }
  exists c. split; [exact Hc|].
  apply (live_card_margin_is_negative 1.25 1.125 Sample.rune c 100);
    [discriminate|discriminate|exact Hc|reflexivity].
Defined.

End FetchingFacts.

(** ** The sliders *)

Module SliderFacts.
Import Client App SliderChange.
Local Open Scope string_scope.

Section Handler.
Context `{Runtime}.

Lemma le_NInf v : v <> NaN -> JsNum.le NInf v.
Proof. by destruct v. Qed.

Lemma le_PInf v : v <> NaN -> JsNum.le v PInf.
Proof. by destruct v. Qed.

(** The bounds read from the rendering of a number that is read back as
    itself. *)
Lemma lowerBound_rendering v :
  StringToNumber (NumberToString v) = v ->
  lowerBound (NumberToString v) = NInf \/ lowerBound (NumberToString v) = v.
Proof. intros Hv. unfold lowerBound. destruct (String.eqb _ ""); auto. Qed.

Lemma upperBound_rendering v :
  StringToNumber (NumberToString v) = v ->
  upperBound (NumberToString v) = PInf \/ upperBound (NumberToString v) = v.
Proof. intros Hv. unfold upperBound. destruct (String.eqb _ ""); auto. Qed.

Lemma keys_differ cfg : cfg ∈ filterConfig -> minKey cfg <> maxKey cfg.
Proof.
  intros Hcfg. repeat (apply elem_of_cons in Hcfg as [->|Hcfg]);
    [..|by apply elem_of_nil in Hcfg]; done.
Qed.

(** X22. Moving a slider never leaves a range that no number satisfies:
    the handler writes the value into its own bound and, when the value
    passes the other bound, into that one too, so that the minimum is at or
    below the maximum afterwards; no other filter is touched.  A value that
    is not a number changes nothing. *)
Theorem slider_change_keeps_min_below_max
    (cfg : config) (kind : sliderKind) (raw : string) (prev : filters) :
  cfg ∈ filterConfig ->
  StringToNumber raw <> NaN ->
  StringToNumber (NumberToString (StringToNumber raw)) = StringToNumber raw ->
  match kind with
  | kind_min => upperBound (getFilter prev (maxKey cfg)) <> NaN
  | kind_max => lowerBound (getFilter prev (minKey cfg)) <> NaN
  end ->
  let next := handleSliderChange cfg kind raw prev in
  JsNum.le (lowerBound (getFilter next (minKey cfg)))
           (upperBound (getFilter next (maxKey cfg))) /\
  getFilter next (match kind with kind_min => minKey cfg | kind_max => maxKey cfg end)
    = NumberToString (StringToNumber raw) /\
  (forall key, key <> minKey cfg -> key <> maxKey cfg ->
               getFilter next key = getFilter prev key).
Proof.
  intros Hcfg%keys_differ Hv Hround Hother next. unfold next, handleSliderChange.
  set (v := StringToNumber raw) in *.
  assert (JsNum.isNaN v = false) as -> by (by destruct v).
  assert (JsNum.le v v) as Hvv by (by apply JsNumFacts.le_refl).
  pose proof (le_NInf v Hv) as Hlo. pose proof (le_PInf v Hv) as Hhi.
  destruct kind; cbn zeta; rewrite !TextFacts.getFilter_setFilter;
    repeat case_decide; try congruence.
  - (* the slider of the minimum *)
    destruct (lowerBound_rendering v Hround) as [El|El],
             (upperBound_rendering v Hround) as [Eu|Eu].
    all: destruct (negb (String.eqb (getFilter prev (maxKey cfg)) "")
                   && (v >? StringToNumber (getFilter prev (maxKey cfg)))%J) eqn:Ec.
    all: rewrite !TextFacts.getFilter_setFilter; repeat case_decide; try congruence.
    all: rewrite ?El, ?Eu.
    all: split; [|split; [done|]];
      try (intros key Hk1 Hk2; rewrite !TextFacts.getFilter_setFilter;
           by repeat case_decide).
    all: try done.
    all: try (by apply le_NInf).
    all: unfold upperBound in *;
      destruct (String.eqb (getFilter prev (maxKey cfg)) "") eqn:Ee; try done.
    all: simpl in Ec; apply JsNumFacts.ltb_false_le; done.
  - (* the slider of the maximum *)
    destruct (lowerBound_rendering v Hround) as [El|El],
             (upperBound_rendering v Hround) as [Eu|Eu].
    all: destruct (negb (String.eqb (getFilter prev (minKey cfg)) "")
                   && (v <? StringToNumber (getFilter prev (minKey cfg)))%J) eqn:Ec.
    all: rewrite !TextFacts.getFilter_setFilter; repeat case_decide; try congruence.
    all: rewrite ?El, ?Eu.
    all: split; [|split; [done|]];
      try (intros key Hk1 Hk2; rewrite !TextFacts.getFilter_setFilter;
           by repeat case_decide).
    all: try done.
    all: try (by apply le_PInf).
    all: unfold lowerBound in *;
      destruct (String.eqb (getFilter prev (minKey cfg)) "") eqn:Ee; try done.
    all: simpl in Ec; apply JsNumFacts.ltb_false_le; done.
Qed.

(** A value that is not a number leaves the filters as they are. *)
Lemma handleSliderChange_NaN cfg kind raw prev :
  StringToNumber raw = NaN -> handleSliderChange cfg kind raw prev = prev.
Proof. unfold handleSliderChange. by intros ->. Qed.

End Handler.

Lemma slider_change_keeps_min_below_max_witness :
  let prev := setFilter key_buyMax "5" defaultFilters in
  let next :=
    @handleSliderChange decimal_runtime
      {| field := by_buy; label := "Buy price"; minKey := key_buyMin; maxKey := key_buyMax;
        step := 1000; defaultMax := 50000000 |}
      kind_min "7" prev in
  JsNum.le (@lowerBound decimal_runtime (getFilter next key_buyMin))
           (@upperBound decimal_runtime (getFilter next key_buyMax)) /\
  getFilter next key_buyMin = "7" /\
  (forall key, key <> key_buyMin -> key <> key_buyMax ->
               getFilter next key = getFilter prev key).
Proof.
  apply (@slider_change_keeps_min_below_max decimal_runtime
           {| field := by_buy; label := "Buy price"; minKey := key_buyMin; maxKey := key_buyMax;
        step := 1000; defaultMax := 50000000 |}
           kind_min "7" (setFilter key_buyMax "5" defaultFilters));
    [left|by vm_compute|by vm_compute|by vm_compute].
Defined.

End SliderFacts.

(** ** The engine's sort and the model *)

Module V8Facts.

Section Consistent.
Context {A : Type} (comparefn : A -> A -> num).
Context (R : A -> A -> Prop) (eqv : A -> A -> bool).
Hypothesis R_refl : forall x, R x x.
Hypothesis R_trans : forall x y z, R x y -> R y z -> R x z.
Hypothesis R_stay : forall x y, (comparefn x y >? Fin 0)%J = false -> R x y.
Hypothesis R_move : forall x y, (comparefn x y >? Fin 0)%J = true -> R y x /\ ~ R x y.
Hypothesis negative_spec :
  forall x y, V8.negative comparefn x y = (comparefn y x >? Fin 0)%J.
Hypothesis eqv_spec : forall x y, eqv x y = true <-> R x y /\ R y x.

(** Strictly before. *)
Let before (x y : A) : Prop := R x y /\ ~ R y x.

Lemma negative_true x y : V8.negative comparefn x y = true -> before x y.
Proof using R_move negative_spec. rewrite negative_spec. apply R_move. Qed.

Lemma negative_false x y : V8.negative comparefn x y = false -> R y x.
Proof using R_stay negative_spec. rewrite negative_spec. apply R_stay. Qed.

Lemma before_R_trans x y z : before x y -> R y z -> before x z.
Proof using R_trans.
  intros [Hxy Hyx] Hyz. split; [by eapply R_trans|].
  intros Hzx. apply Hyx. by eapply R_trans.
Qed.

Lemma R_before_trans x y z : R x y -> before y z -> before x z.
Proof using R_trans.
  intros Hxy [Hyz Hzy]. split; [by eapply R_trans|].
  intros Hzx. apply Hzy. by eapply R_trans.
Qed.

Lemma sorted_app (P : A -> A -> Prop) l1 l2 :
  StronglySorted P l1 -> StronglySorted P l2 ->
  (forall a b, a ∈ l1 -> b ∈ l2 -> P a b) ->
  StronglySorted P (l1 ++ l2).
Proof.
  intros H1 H2 Hc. induction H1 as [|x l1 H1 IH Hx]; [done|].
  simpl. constructor.
  - apply IH. intros a b Ha Hb. apply Hc; [by right|done].
  - apply Forall_app. split; [done|].
    apply Forall_forall. intros b Hb. apply Hc; [by left|done].
Qed.

Lemma sorted_app_inv (P : A -> A -> Prop) l1 l2 :
  StronglySorted P (l1 ++ l2) ->
  StronglySorted P l1 /\ StronglySorted P l2 /\
  forall a b, a ∈ l1 -> b ∈ l2 -> P a b.
Proof.
  induction l1 as [|x l1 IH]; simpl; intros Hs.
  - split; [constructor|]. split; [done|]. intros a b Ha. by apply elem_of_nil in Ha.
  - apply StronglySorted_inv in Hs as [Hs Hx].
    destruct (IH Hs) as (H1 & H2 & Hc). apply Forall_app in Hx as [Hx1 Hx2].
    split; [by constructor|]. split; [done|].
    intros a b [->|Ha]%elem_of_cons Hb; [|by apply Hc].
    by eapply Forall_forall in Hx2.
Qed.

Lemma sorted_impl (P P' : A -> A -> Prop) l :
  (forall a b, P a b -> P' a b) -> StronglySorted P l -> StronglySorted P' l.
Proof.
  intros HP. induction 1 as [|x l Hs IH Hx]; constructor; [done|].
  eapply Forall_impl; [exact Hx|]. intros b. apply HP.
Qed.

Lemma sorted_rev (P : A -> A -> Prop) l :
  StronglySorted (fun a b => P b a) l -> StronglySorted P (rev l).
Proof.
  induction 1 as [|x l Hs IH Hx]; simpl; [constructor|].
  apply sorted_app; [done|repeat constructor|].
  intros a b Ha Hb%list_elem_of_singleton. subst b.
  apply list_elem_of_In, in_rev, list_elem_of_In in Ha.
  by eapply Forall_forall in Hx.
Qed.

Lemma sorted_lookup l i j a b :
  StronglySorted R l -> (i <= j)%nat -> l !! i = Some a -> l !! j = Some b -> R a b.
Proof using R_refl.
  intros Hs. revert i j. induction Hs as [|x l Hs IH Hx]; intros i j Hij Ha Hb; [done|].
  destruct i as [|i], j as [|j]; simpl in *; try lia.
  - injection Ha as <-. injection Hb as <-. apply R_refl.
  - injection Ha as <-. apply list_elem_of_lookup_2 in Hb.
    by eapply Forall_forall in Hx.
  - apply (IH i j); [lia|done..].
Qed.

(** *** The run the array starts with *)

Lemma runTail_ascending previous l run rest :
  V8.runTail comparefn false previous l = (run, rest) ->
  l = run ++ rest /\ StronglySorted R (previous :: run).
Proof using R_trans R_stay negative_spec.
  revert previous run rest. induction l as [|cur l IH]; intros previous run rest; simpl.
  - intros [= <- <-]. split; [done|repeat constructor].
  - destruct (V8.negative comparefn cur previous) eqn:E; simpl.
    + intros [= <- <-]. split; [done|repeat constructor].
    + destruct (V8.runTail comparefn false cur l) as [run' rest'] eqn:Et.
      intros [= <- <-]. destruct (IH _ _ _ Et) as [-> Hs].
      split; [done|]. constructor; [done|].
      apply negative_false in E. constructor; [done|].
      apply StronglySorted_inv in Hs as [_ Hc].
      eapply Forall_impl; [exact Hc|]. intros b Hb. by eapply R_trans.
Qed.

Lemma runTail_descending previous l run rest :
  V8.runTail comparefn true previous l = (run, rest) ->
  l = run ++ rest /\ StronglySorted (fun a b => before b a) (previous :: run).
Proof using R_trans R_move negative_spec.
  revert previous run rest. induction l as [|cur l IH]; intros previous run rest; simpl.
  - intros [= <- <-]. split; [done|repeat constructor].
  - destruct (V8.negative comparefn cur previous) eqn:E; simpl.
    + destruct (V8.runTail comparefn true cur l) as [run' rest'] eqn:Et.
      intros [= <- <-]. destruct (IH _ _ _ Et) as [-> Hs].
      split; [done|]. constructor; [done|].
      apply negative_true in E. constructor; [done|].
      apply StronglySorted_inv in Hs as [_ Hc].
      eapply Forall_impl; [exact Hc|]. intros b Hb. simpl in Hb.
      eapply before_R_trans; [exact Hb|]. apply E.
    + intros [= <- <-]. split; [done|repeat constructor].
Qed.

(** In a strictly descending run no two elements tie. *)
Lemma descending_filter x l :
  StronglySorted (fun a b => before b a) l ->
  List.filter (eqv x) (rev l) = List.filter (eqv x) l.
Proof using R_trans eqv_spec.
  intros Hs. rewrite List.filter_rev.
  assert (length (List.filter (eqv x) l) <= 1)%nat as Hlen.
  { induction Hs as [|a l Hs IH Ha]; simpl; [lia|].
    destruct (eqv x a) eqn:Ea; [|done]. simpl.
    assert (List.filter (eqv x) l = []) as ->; [|simpl; lia].
    clear IH. induction l as [|b l IHl]; [done|]. simpl.
    apply Forall_cons in Ha as [Hb Ha]. apply StronglySorted_inv in Hs as [Hs _].
    destruct (eqv x b) eqn:Eb; [|by apply IHl].
    apply eqv_spec in Ea as [Hxa Hax], Eb as [Hxb Hbx].
    destruct Hb as [_ Hb]. destruct Hb. by eapply R_trans. }
  destruct (List.filter (eqv x) l) as [|a [|b t]]; simpl in *; try done; lia.
Qed.

Lemma countAndMakeRun_spec l run rest :
  V8.countAndMakeRun comparefn l = (run, rest) ->
  exists whole,
    l = whole ++ rest /\ StronglySorted R run /\ run ≡ₚ whole /\
    forall x, List.filter (eqv x) run = List.filter (eqv x) whole.
Proof using R_trans R_stay R_move negative_spec eqv_spec.
  unfold V8.countAndMakeRun.
  destruct l as [|hi [|lo l]].
  - intros [= <- <-]. exists []. repeat split; constructor.
  - intros [= <- <-]. exists [hi]. repeat split; repeat constructor.
  - destruct (V8.negative comparefn lo hi) eqn:E.
    + destruct (V8.runTail comparefn true lo l) as [run' rest'] eqn:Et.
      intros [= <- <-]. destruct (runTail_descending _ _ _ _ Et) as [-> Hs].
      exists (hi :: lo :: run'). split; [done|].
      assert (StronglySorted (fun a b => before b a) (hi :: lo :: run')) as Hd.
      { constructor; [done|]. apply negative_true in E. constructor; [done|].
        apply StronglySorted_inv in Hs as [_ Hc].
        eapply Forall_impl; [exact Hc|]. intros b Hb. simpl in Hb.
        eapply before_R_trans; [exact Hb|]. apply E. }
      split; [|split].
      * apply (sorted_impl before); [by intros a b [? _]|].
        exact (sorted_rev before (hi :: lo :: run') Hd).
      * symmetry. exact (Permutation_rev (hi :: lo :: run')).
      * intros x. exact (descending_filter x (hi :: lo :: run') Hd).
    + destruct (V8.runTail comparefn false lo l) as [run' rest'] eqn:Et.
      intros [= <- <-]. destruct (runTail_ascending _ _ _ _ Et) as [-> Hs].
      exists (hi :: lo :: run'). split; [done|]. split; [|done].
      constructor; [done|]. apply negative_false in E. constructor; [done|].
      apply StronglySorted_inv in Hs as [_ Hc].
      eapply Forall_impl; [exact Hc|]. intros b Hb. by eapply R_trans.
Qed.

(** *** The binary search *)

Lemma search_spec fuel pivot work left right :
  StronglySorted R work ->
  (left <= right <= length work)%nat -> (right - left < fuel)%nat ->
  (forall i e, (i < left)%nat -> work !! i = Some e -> R e pivot) ->
  (forall i e, (right <= i)%nat -> work !! i = Some e -> before pivot e) ->
  (forall i e, (i < V8.search comparefn fuel pivot work left right)%nat ->
               work !! i = Some e -> R e pivot) /\
  (forall i e, (V8.search comparefn fuel pivot work left right <= i)%nat ->
               work !! i = Some e -> before pivot e).
Proof using R_refl R_trans R_stay R_move negative_spec.
  intros Hs. revert left right.
  induction fuel as [|fuel IH]; intros left right Hlr Hfuel Hlo Hhi; [lia|].
  cbn [V8.search]. destruct (Nat.ltb_spec left right) as [Hlt|Hge].
  - pose proof (Nat.div_mod_eq (right - left) 2) as Hd.
    pose proof (Nat.mod_upper_bound (right - left) 2) as Hm.
    set (half := ((right - left) / 2)%nat) in *.
    assert (left + half < right)%nat as Hmid by lia.
    destruct (lookup_lt_is_Some_2 work (left + half)) as [element He]; [lia|].
    rewrite He. destruct (V8.negative comparefn pivot element) eqn:E.
    + apply IH; [lia|lia|done|].
      intros i e Hi Hie. apply negative_true in E.
      eapply before_R_trans; [exact E|]. by apply (sorted_lookup work (left + half) i).
    + apply IH; [lia|lia| |done].
      intros i e Hi Hie. apply negative_false in E.
      eapply R_trans; [|exact E]. apply (sorted_lookup work i (left + half)); [done|lia|done..].
  - assert (left = right) as -> by lia. done.
Qed.

Lemma place_spec work pivot :
  StronglySorted R work ->
  StronglySorted R (V8.place comparefn work pivot) /\
  V8.place comparefn work pivot ≡ₚ work ++ [pivot] /\
  forall x, List.filter (eqv x) (V8.place comparefn work pivot)
            = List.filter (eqv x) (work ++ [pivot]).
Proof using R_refl R_trans R_stay R_move negative_spec eqv_spec.
  intros Hs. unfold V8.place.
  set (left := V8.search comparefn (S (length work)) pivot work 0 (length work)).
  destruct (search_spec (S (length work)) pivot work 0 (length work)) as [Hlo Hhi];
    [done|lia|lia|intros; lia| |].
  { intros i e Hi He. apply lookup_lt_Some in He. lia. }
  fold left in Hlo, Hhi.
  assert (forall e, e ∈ take left work -> R e pivot) as Htake.
  { intros e [i Hi]%list_elem_of_lookup_1. apply lookup_take_Some in Hi as [Hi ?].
    by apply (Hlo i). }
  assert (forall e, e ∈ drop left work -> before pivot e) as Hdrop.
  { intros e [i Hi]%list_elem_of_lookup_1. rewrite lookup_drop in Hi.
    apply (Hhi (left + i)%nat); [lia|done]. }
  rewrite <- (take_drop left work) in Hs.
  apply sorted_app_inv in Hs as (Hs1 & Hs2 & Hc).
  split; [|split].
  - apply sorted_app; [done| |].
    + constructor; [done|]. apply Forall_forall. intros e He. by apply Hdrop.
    + intros a b Ha [->|Hb]%elem_of_cons; [by apply Htake|by apply Hc].
  - rewrite <- Permutation_middle, <- Permutation_cons_append.
    by rewrite take_drop.
  - intros x.
    replace (work ++ [pivot]) with ((take left work ++ drop left work) ++ [pivot])
      by (by rewrite take_drop).
    rewrite !List.filter_app. simpl.
    destruct (eqv x pivot) eqn:Ep; [|by rewrite app_nil_r].
    apply eqv_spec in Ep as [Hxp Hpx].
    assert (forall l, (forall e, e ∈ l -> before pivot e) ->
                      List.filter (eqv x) l = []) as Hnone.
    { intros l. induction l as [|d l IHl]; intros Hl; [done|]. simpl.
      destruct (eqv x d) eqn:Ed.
      - apply eqv_spec in Ed as [Hxd Hdx].
        destruct (Hl d) as [_ Hn]; [by left|]. destruct Hn. by eapply R_trans.
      - apply IHl. intros e He. apply Hl. by right. }
    rewrite (Hnone _ Hdrop). by rewrite app_nil_r.
Qed.

Lemma binaryInsertionSort_spec run rest :
  StronglySorted R run ->
  StronglySorted R (V8.binaryInsertionSort comparefn run rest) /\
  V8.binaryInsertionSort comparefn run rest ≡ₚ run ++ rest /\
  forall x, List.filter (eqv x) (V8.binaryInsertionSort comparefn run rest)
            = List.filter (eqv x) (run ++ rest).
Proof using R_refl R_trans R_stay R_move negative_spec eqv_spec.
  unfold V8.binaryInsertionSort. revert run.
  induction rest as [|pivot rest IH]; intros run Hs; simpl.
  - rewrite app_nil_r. done.
  - destruct (place_spec run pivot Hs) as (Hs' & Hp & Hf).
    destruct (IH _ Hs') as (Hs'' & Hp' & Hf').
    split; [done|]. split.
    + rewrite Hp', Hp. by rewrite <- app_assoc.
    + intros x. rewrite Hf', !List.filter_app, Hf, List.filter_app.
      rewrite <- app_assoc. simpl. by destruct (eqv x pivot).
Qed.

(** On a consistent comparator the engine's sort of a short array is the
    stable insertion sort of the model. *)
Lemma sort_consistent l out :
  V8.sort comparefn l = Some out -> out = JsArray.sort comparefn l.
Proof using R_refl R_trans R_stay R_move negative_spec eqv_spec.
  intros Hout.
  apply (JsArrayFacts.sort_unique comparefn R (fun _ => True) eqv
           (fun x _ => R_refl x) (fun x y z _ _ _ => R_trans x y z)
           (fun x y _ _ => R_stay x y) (fun x y _ _ => R_move x y)
           (fun x y _ _ => eqv_spec x y)).
  - by apply Forall_true.
  - revert Hout. unfold V8.sort.
    destruct (length l <? 2)%nat; [by intros [= <-]|].
    destruct (length l <? 64)%nat; [|done].
    destruct (V8.countAndMakeRun comparefn l) as [run rest] eqn:Er.
    intros [= <-]. destruct (countAndMakeRun_spec _ _ _ Er) as (whole & -> & Hs & Hp & _).
    destruct (binaryInsertionSort_spec run rest Hs) as (_ & Hp' & _).
    by rewrite Hp', Hp.
  - revert Hout. unfold V8.sort.
    destruct (Nat.ltb_spec (length l) 2) as [Hlen|_].
    { intros [= <-]. destruct l as [|a [|b l]]; simpl in Hlen; try lia; repeat constructor. }
    destruct (length l <? 64)%nat; [|done].
    destruct (V8.countAndMakeRun comparefn l) as [run rest] eqn:Er.
    intros [= <-]. destruct (countAndMakeRun_spec _ _ _ Er) as (whole & -> & Hs & _).
    by destruct (binaryInsertionSort_spec run rest Hs) as (? & _).
  - intros x _. revert Hout. unfold V8.sort.
    destruct (length l <? 2)%nat; [by intros [= <-]|].
    destruct (length l <? 64)%nat; [|done].
    destruct (V8.countAndMakeRun comparefn l) as [run rest] eqn:Er.
    intros [= <-]. destruct (countAndMakeRun_spec _ _ _ Er) as (whole & -> & Hs & _ & Hf).
    destruct (binaryInsertionSort_spec run rest Hs) as (_ & _ & Hf').
    by rewrite Hf', !List.filter_app, Hf.
Qed.

End Consistent.

End V8Facts.

Module EngineSort.
Import Client.

Lemma sub_ltb_0 a b :
  a <> NaN -> b <> NaN -> (a - b <? Fin 0)%J = (a <? b)%J.
Proof.
  destruct a as [| |x|], b as [| |y|]; try done. intros _ _.
  unfold JsNum.sub. simpl JsNum.add.
  apply eq_true_iff_eq. rewrite !JsNumFacts.ltb_Fin. split; intros; lra.
Qed.

Section Sorted.
Context `{Runtime}.

Lemma compareBy_negative sortBy sortDir x y :
  sortBy <> by_title ->
  V8.negative (compareBy sortBy sortDir) x y
  = (compareBy sortBy sortDir y x >? Fin 0)%J.
Proof.
  intros Hf. rewrite ClientFacts.compareBy_gtb by done.
  unfold V8.negative, compareBy.
  pose proof (ClientFacts.keyOf_not_NaN sortBy x Hf) as Hx.
  pose proof (ClientFacts.keyOf_not_NaN sortBy y Hf) as Hy.
  destruct (strictEq _ _) eqn:E.
  - destruct (ClientFacts.keyOf_numeric sortBy x Hf) as [[_ Ex]|[_ [q Ex]]],
             (ClientFacts.keyOf_numeric sortBy y Hf) as [[_ Ey]|[_ [r Ey]]];
      rewrite Ex, Ey in *; simpl in E; try done; [by destruct sortDir|].
    apply Qeq_bool_iff in E.
    destruct sortDir; symmetry; apply JsNumFacts.ltb_Fin_false; rewrite E; apply Qle_refl.
  - destruct sortDir; by apply sub_ltb_0.
Qed.

(** X25. On the numeric sort fields the engine's sort and the model
    agree: for a list shorter than 64 records V8's run detection and binary
    insertion return the list the stable insertion sort returns. *)
Theorem v8_sort_agrees_on_numeric_fields
    (sortBy : sortField) (sortDir : sortDirection) (filtered : list item) :
  sortBy <> by_title -> (length filtered < 64)%nat ->
  V8.sort (compareBy sortBy sortDir) filtered = Some (sorted sortBy sortDir filtered).
Proof.
  intros Hf Hlen.
  assert (exists out, V8.sort (compareBy sortBy sortDir) filtered = Some out) as [out Hout].
  { unfold V8.sort. destruct (length filtered <? 2)%nat; [eauto|].
    destruct (Nat.ltb_spec (length filtered) 64); [|lia].
    destruct (V8.countAndMakeRun _ _); eauto. }
  rewrite Hout. f_equal. unfold sorted.
  apply (V8Facts.sort_consistent (compareBy sortBy sortDir) (inOrder sortBy sortDir)
           (fun x a => strictEq (keyOf sortBy x) (keyOf sortBy a))); try done.
  - intros x. unfold inOrder.
    destruct sortDir; apply JsNumFacts.le_refl; by apply ClientFacts.keyOf_not_NaN.
  - intros x y z. unfold inOrder.
    destruct sortDir; intros; eapply JsNumFacts.le_trans; eauto.
  - intros x y. rewrite ClientFacts.compareBy_gtb by done. unfold inOrder.
    destruct sortDir; apply JsNumFacts.ltb_false_le; by apply ClientFacts.keyOf_not_NaN.
  - intros x y. rewrite ClientFacts.compareBy_gtb by done. unfold inOrder.
    destruct sortDir; intros Hlt;
      (split; [by apply JsNumFacts.ltb_true_le|by apply JsNumFacts.ltb_not_le]).
  - intros x y. by apply compareBy_negative.
  - intros x y. unfold inOrder.
    destruct (ClientFacts.keyOf_numeric sortBy x Hf) as [[_ ->]|[_ [q ->]]],
             (ClientFacts.keyOf_numeric sortBy y Hf) as [[_ ->]|[_ [r ->]]];
      change (strictEq (VNum ?a) (VNum ?b)) with (a === b)%J;
      cbn [toNumber]; rewrite JsNumFacts.eqb_le; destruct sortDir; tauto.
Qed.

End Sorted.

Lemma v8_sort_agrees_on_numeric_fields_witness :
  V8.sort (compareBy by_buy asc) Sample.records = Some (sorted by_buy asc Sample.records).
Proof.
  apply (v8_sort_agrees_on_numeric_fields by_buy asc Sample.records);
    [discriminate|vm_compute; lia].
Defined.

(** X24. On the title field the engine's sort does not keep records of
    equal title in their input order: of the titles x, y, 9, z, 5, 1, 5,
    sorted ascending, the second 5 comes out before the first.  Nor does it
    return what the insertion sort returns: the titles 10, 9, x, 1 come out
    as 1, 9, 10, x from the one and as 9, 10, x, 1 from the other. *)
Theorem v8_title_sort_swaps_equal_titles :
  let out := [Shelf.titled "r1" "x"; Shelf.titled "r2" "y"; Shelf.titled "r6" "1";
              Shelf.titled "r7" "5"; Shelf.titled "r3" "9"; Shelf.titled "r4" "z";
              Shelf.titled "r5" "5"] in
  V8.sort (compareBy by_title asc) Shelf.mixed = Some out /\
  List.filter (fun a => strictEq (keyOf by_title a) (VStr "5")) Shelf.mixed
  = [Shelf.titled "r5" "5"; Shelf.titled "r7" "5"] /\
  List.filter (fun a => strictEq (keyOf by_title a) (VStr "5")) out
  = [Shelf.titled "r7" "5"; Shelf.titled "r5" "5"] /\
  V8.sort (compareBy by_title asc) Shelf.short
  = Some [Shelf.titled "s4" "1"; Shelf.titled "s2" "9"; Shelf.titled "s1" "10";
          Shelf.titled "s3" "x"] /\
  sorted by_title asc Shelf.short
  = [Shelf.titled "s2" "9"; Shelf.titled "s1" "10"; Shelf.titled "s3" "x";
     Shelf.titled "s4" "1"].
Proof. repeat split; vm_compute; reflexivity. Qed.

End EngineSort.
